(** * tg-analytics: collector, analysis orchestrator and conversation controller

    A shallow embedding of
      - [src/database/models.py]      (module [Models]),
      - [src/data/collector.py]       (module [Collector]),
      - [src/analysis/llm_service.py] (module [LLMService]),
      - [src/bot/bot.py]              (module [Bot]),
    over a small model of the Python values they manipulate (module [Py])
    and of the SQLAlchemy session they write through (module [Orm]).

    Everything outside the repository (the model provider, the messaging
    API, the storage engine's faults, the clock, [json.loads]) is an
    oracle of the environment record [Env]; the code itself is a program
    in the state-and-exception monad [M].  Logging is left out: it changes
    nothing the statements speak of.

    The file has three parts: the embedding, the vocabulary of the
    statements with the concrete environments of the examples, and the
    theorems. *)

From Stdlib Require Import ZArith String Ascii List Lia.
From stdpp Require Import base option list strings pretty sorting.

Set Warnings "-register-all".
Local Open Scope Z_scope.

(* ===================================================================== *)
(** ** Python values                                                      *)
(* ===================================================================== *)

Module Py.

(** A [str] is kept as its UTF-8 bytes.  Every character the source
    inspects (['@'], ['_'], digits, blanks, quotes) is ASCII. *)

(** Exceptions: the class name and the text [str(e)] gives. *)
Record exn := Exn { exn_class : string; exn_msg : string }.

Definition str_exn (e : exn) : string := exn_msg e.

Inductive outcome (A : Type) : Type :=
| Returned (a : A)
| Raised (e : exn).
Arguments Returned {A} a.
Arguments Raised {A} e.

(** *** Parsed JSON, which is also the shape of every [Dict] the
    orchestrator returns.  A [float] is kept as the text [repr] gives
    for it.  Objects keep insertion order, as [dict] does. *)
Inductive json : Type :=
| JNull
| JBool (b : bool)
| JInt (n : Z)
| JFloat (repr : string)
| JStr (s : string)
| JArr (xs : list json)
| JObj (kvs : list (string * json)).

(** [d.get(k)] on a dict: the value of the first (only) binding. *)
Fixpoint assoc (k : string) (kvs : list (string * json)) : option json :=
  match kvs with
  | [] => None
  | (k', v) :: rest => if String.eqb k k' then Some v else assoc k rest
  end.

Definition type_name (j : json) : string :=
  match j with
  | JNull => "NoneType" | JBool _ => "bool" | JInt _ => "int"
  | JFloat _ => "float" | JStr _ => "str" | JArr _ => "list"
  | JObj _ => "dict"
  end.

(** [x[k]] for a string key [k]. *)
Definition getitem (j : json) (k : string) : outcome json :=
  match j with
  | JObj kvs =>
      match assoc k kvs with
      | Some v => Returned v
      | None => Raised (Exn "KeyError" ("'" +:+ k +:+ "'"))
      end
  | JArr _ =>
      Raised (Exn "TypeError" "list indices must be integers or slices, not str")
  | JStr _ =>
      Raised (Exn "TypeError" "string indices must be integers")
  | _ =>
      Raised (Exn "TypeError"
                ("'" +:+ type_name j +:+ "' object is not subscriptable"))
  end.

(** [x.items()]: only a dict has it. *)
Definition items (j : json) : outcome (list (string * json)) :=
  match j with
  | JObj kvs => Returned kvs
  | _ => Raised (Exn "AttributeError"
                   ("'" +:+ type_name j +:+ "' object has no attribute 'items'"))
  end.

(** Byte-wise substring test, for ["error" in s] on a [str]. *)
Fixpoint is_infix (p s : string) : bool :=
  String.prefix p s ||
  match s with
  | EmptyString => false
  | String _ s' => is_infix p s'
  end.

Definition json_is_str (k : string) (j : json) : bool :=
  match j with JStr s => String.eqb s k | _ => false end.

(** [k in x] for a string [k]. *)
Definition contains (k : string) (j : json) : outcome bool :=
  match j with
  | JObj kvs => Returned (bool_decide (is_Some (assoc k kvs)))
  | JArr xs => Returned (existsb (json_is_str k) xs)
  | JStr s => Returned (is_infix k s)
  | _ => Raised (Exn "TypeError"
                   ("argument of type '" +:+ type_name j +:+ "' is not iterable"))
  end.

(** *** [json.dumps(..., ensure_ascii=False)] *)

Definition dquote : string := String (ascii_of_N 34) "".

Definition hex_digit (n : N) : ascii :=
  ascii_of_N (if (n <? 10)%N then 48 + n else 87 + n)%N.

Definition escape_char (c : ascii) : string :=
  let n := N_of_ascii c in
  if (n =? 34)%N then "\" +:+ dquote
  else if (n =? 92)%N then "\\"
  else if (n =? 10)%N then "\n"
  else if (n =? 13)%N then "\r"
  else if (n =? 9)%N then "\t"
  else if (n =? 8)%N then "\b"
  else if (n =? 12)%N then "\f"
  else if (n <? 32)%N then
    "\u00" +:+ String (hex_digit (n / 16)) (String (hex_digit (n mod 16)) "")
  else String c "".

Fixpoint escape_body (s : string) : string :=
  match s with
  | EmptyString => ""
  | String c s' => escape_char c +:+ escape_body s'
  end.

Definition encode_str (s : string) : string :=
  dquote +:+ escape_body s +:+ dquote.

Definition encode_bool (b : bool) : string := if b then "true" else "false".

(** A float prints as its [repr], but for the three non-finite ones. *)
Definition encode_float (repr : string) : string :=
  if String.eqb repr "inf" then "Infinity"
  else if String.eqb repr "-inf" then "-Infinity"
  else if String.eqb repr "nan" then "NaN"
  else repr.

(** Compact form, separators [", "] and [": "]. *)
Fixpoint json_dumps (j : json) : string :=
  match j with
  | JNull => "null"
  | JBool b => encode_bool b
  | JInt n => pretty n
  | JFloat r => encode_float r
  | JStr s => encode_str s
  | JArr xs => "[" +:+ String.concat ", " (List.map json_dumps xs) +:+ "]"
  | JObj kvs =>
      "{" +:+ String.concat ", "
                (List.map (fun kv => encode_str (fst kv) +:+ ": " +:+ json_dumps (snd kv)) kvs)
          +:+ "}"
  end.

Definition newline : string := String (ascii_of_N 10) "".

Fixpoint spaces (n : nat) : string :=
  match n with O => "" | S n' => String " " (spaces n') end.

Definition newline_indent (level : nat) : string :=
  newline +:+ spaces (2 * level)%nat.

(** [indent=2]: one item per line, item separator [","]. *)
Fixpoint json_dumps_indent (level : nat) (j : json) : string :=
  match j with
  | JArr [] => "[]"
  | JArr xs =>
      "[" +:+ newline_indent (S level)
          +:+ String.concat ("," +:+ newline_indent (S level))
                (List.map (json_dumps_indent (S level)) xs)
          +:+ newline_indent level +:+ "]"
  | JObj [] => "{}"
  | JObj kvs =>
      "{" +:+ newline_indent (S level)
          +:+ String.concat ("," +:+ newline_indent (S level))
                (List.map (fun kv => encode_str (fst kv) +:+ ": "
                                     +:+ json_dumps_indent (S level) (snd kv)) kvs)
          +:+ newline_indent level +:+ "}"
  | _ => json_dumps j
  end.

(** *** [str] methods and [int()] *)

(** The ASCII characters [str.strip()] and [int()] treat as blanks. *)
Definition is_space (c : ascii) : bool :=
  let n := N_of_ascii c in
  ((9 <=? n) && (n <=? 13) || (28 <=? n) && (n <=? 32))%N.

Fixpoint lstrip (s : string) : string :=
  match s with
  | EmptyString => ""
  | String c s' => if is_space c then lstrip s' else s
  end.

Definition reverse (s : string) : string :=
  string_of_list_ascii (List.rev (list_ascii_of_string s)).

Definition strip (s : string) : string :=
  reverse (lstrip (reverse (lstrip s))).

(** [s.lower()] on the letters of ASCII. *)
Definition lower_char (c : ascii) : ascii :=
  let n := N_of_ascii c in
  if ((65 <=? n) && (n <=? 90))%N then ascii_of_N (n + 32) else c.

Fixpoint lower (s : string) : string :=
  match s with
  | EmptyString => ""
  | String c s' => String (lower_char c) (lower s')
  end.

(** [s.startswith('@')] then [s[1:]]. *)
Definition startswith (p s : string) : bool := String.prefix p s.

Definition drop_first (s : string) : string :=
  match s with EmptyString => "" | String _ s' => s' end.

(** [s.split(sep)] for a one-character separator: never empty. *)
Fixpoint split (sep : ascii) (s : string) : list string :=
  match s with
  | EmptyString => [""]
  | String c s' =>
      if Ascii.eqb c sep then "" :: split sep s'
      else match split sep s' with
           | [] => [String c ""]
           | w :: ws => String c w :: ws
           end
  end.

(** [l[i]] on a list. *)
Definition index {A} (l : list A) (i : nat) : outcome A :=
  match nth_error l i with
  | Some x => Returned x
  | None => Raised (Exn "IndexError" "list index out of range")
  end.

Definition is_digit (c : ascii) : bool :=
  let n := N_of_ascii c in ((48 <=? n) && (n <=? 57))%N.

Definition digit_val (c : ascii) : Z := Z.of_N (N_of_ascii c) - 48.

(** Decimal digits with single underscores between them;
    [after_digit] tells whether the previous character was a digit. *)
Fixpoint digits (acc : Z) (after_digit : bool) (s : string) : option Z :=
  match s with
  | EmptyString => if after_digit then Some acc else None
  | String c s' =>
      if is_digit c then digits (10 * acc + digit_val c) true s'
      else if Ascii.eqb c "_" && after_digit then
        match s' with
        | EmptyString => None
        | String d _ => if is_digit d then digits acc false s' else None
        end
      else None
  end.

(** [int(s)] in base 10: blanks around, an optional sign, digits.
    [None] stands for [ValueError].  The numeral is read whatever its
    length: the interpreter refuses one of more than 4300 digits
    ([sys.int_info.default_max_str_digits]), which no message of a chat
    holds (4096 characters at most); where a longer text can come in, the
    statements bound the integer. *)
Definition int (s : string) : option Z :=
  match strip s with
  | String "-" s' => Z.opp <$> digits 0 false s'
  | String "+" s' => digits 0 false s'
  | s' => digits 0 false s'
  end.

(** The characters of a [str]: a byte and the continuation bytes that
    follow it. *)
Definition is_continuation (c : ascii) : bool :=
  let n := N_of_ascii c in ((128 <=? n) && (n <? 192))%N.

Definition close_char (cur : string) : list string :=
  match cur with EmptyString => [] | _ => [cur] end.

Fixpoint chars_from (cur : string) (s : string) : list string :=
  match s with
  | EmptyString => close_char cur
  | String c s' =>
      if is_continuation c then chars_from (cur +:+ String c "") s'
      else close_char cur ++ chars_from (String c "") s'
  end.

Definition chars (s : string) : list string := chars_from "" s.

(** [x.get(k, default)] *)
Definition get (j : json) (k : string) (default : json) : outcome json :=
  match j with
  | JObj kvs => Returned (match assoc k kvs with Some v => v | None => default end)
  | _ => Raised (Exn "AttributeError"
                   ("'" +:+ type_name j +:+ "' object has no attribute 'get'"))
  end.

(** [len(x)] *)
Definition len (j : json) : outcome Z :=
  match j with
  | JArr xs => Returned (Z.of_nat (length xs))
  | JObj kvs => Returned (Z.of_nat (length kvs))
  | JStr s => Returned (Z.of_nat (length (chars s)))
  | _ => Raised (Exn "TypeError"
                   ("object of type '" +:+ type_name j +:+ "' has no len()"))
  end.

(** [x[:3]] *)
Definition first3 (j : json) : outcome json :=
  match j with
  | JArr xs => Returned (JArr (take 3 xs))
  | JStr s => Returned (JStr (String.concat "" (take 3 (chars s))))
  | JObj _ => Raised (Exn "TypeError" "unhashable type: 'slice'")
  | _ => Raised (Exn "TypeError"
                   ("'" +:+ type_name j +:+ "' object is not subscriptable"))
  end.

(** [for x in j]: what the iteration yields. *)
Definition iterate (j : json) : outcome (list json) :=
  match j with
  | JArr xs => Returned xs
  | JStr s => Returned (List.map JStr (chars s))
  | JObj kvs => Returned (List.map (fun kv => JStr (fst kv)) kvs)
  | _ => Raised (Exn "TypeError"
                   ("'" +:+ type_name j +:+ "' object is not iterable"))
  end.

Fixpoint all_str (xs : list json) : option (list string) :=
  match xs with
  | [] => Some []
  | JStr s :: rest => cons s <$> all_str rest
  | _ :: _ => None
  end.

(** [sep.join(x)] *)
Definition join (sep : string) (j : json) : outcome string :=
  match iterate j with
  | Returned xs =>
      match all_str xs with
      | Some l => Returned (String.concat sep l)
      | None => Raised (Exn "TypeError" "sequence item: expected str instance")
      end
  | Raised _ => Raised (Exn "TypeError" "can only join an iterable")
  end.

(** *** [datetime] (naive, proleptic Gregorian) *)

Record datetime := Datetime {
  year : Z; month : Z; day : Z;
  hour : Z; minute : Z; second : Z; microsecond : Z }.

Definition is_leap (y : Z) : bool :=
  (y mod 4 =? 0) && (negb (y mod 100 =? 0) || (y mod 400 =? 0)).

Definition days_before_year (y : Z) : Z :=
  let y' := y - 1 in y' * 365 + y' / 4 - y' / 100 + y' / 400.

Definition days_in_month_table : list Z :=
  [0; 31; 28; 31; 30; 31; 30; 31; 31; 30; 31; 30; 31].

Definition days_before_month_table : list Z :=
  [0; 0; 31; 59; 90; 120; 151; 181; 212; 243; 273; 304; 334].

Definition table_at (t : list Z) (m : Z) : Z := nth (Z.to_nat m) t 0.

Definition days_before_month (y m : Z) : Z :=
  table_at days_before_month_table m
  + (if (2 <? m) && is_leap y then 1 else 0).

Definition ymd2ord (y m d : Z) : Z :=
  days_before_year y + days_before_month y m + d.

Definition toordinal (t : datetime) : Z := ymd2ord (year t) (month t) (day t).

Definition ord2ymd (ordinal : Z) : Z * Z * Z :=
  let n := ordinal - 1 in
  let n400 := n / 146097 in let n := n mod 146097 in
  let n100 := n / 36524 in let n := n mod 36524 in
  let n4 := n / 1461 in let n := n mod 1461 in
  let n1 := n / 365 in let n := n mod 365 in
  let y := n400 * 400 + 1 + n100 * 100 + n4 * 4 + n1 in
  if (n1 =? 4) || (n100 =? 4) then (y - 1, 12, 31)
  else
    let leapyear := (n1 =? 3) && (negb (n4 =? 24) || (n100 =? 3)) in
    let m := Z.shiftr (n + 50) 5 in
    let preceding :=
      table_at days_before_month_table m
      + (if (2 <? m) && leapyear then 1 else 0) in
    if n <? preceding then
      let m' := m - 1 in
      let preceding' :=
        preceding - (table_at days_in_month_table m'
                     + (if (m' =? 2) && leapyear then 1 else 0)) in
      (y, m', n - preceding' + 1)
    else (y, m, n - preceding + 1).

Definition MAXORDINAL : Z := 3652059.
Definition MAX_DELTA_DAYS : Z := 999999999.

(** [t + timedelta(days=n)]: the time of day is kept. *)
Definition add_days (t : datetime) (n : Z) : outcome datetime :=
  if MAX_DELTA_DAYS <? Z.abs n then
    Raised (Exn "OverflowError"
              ("days=" +:+ pretty n +:+ "; must have magnitude <= 999999999"))
  else
    let o := toordinal t + n in
    if (0 <? o) && (o <=? MAXORDINAL) then
      let '(y, m, d) := ord2ymd o in
      Returned (Datetime y m d (hour t) (minute t) (second t) (microsecond t))
    else Raised (Exn "OverflowError" "date value out of range").

(** Chronological order, for [order_by(... .desc())]. *)
Definition timestamp (t : datetime) : Z :=
  (((toordinal t * 24 + hour t) * 60 + minute t) * 60 + second t) * 1000000
  + microsecond t.

Fixpoint zeros (n : nat) : string :=
  match n with O => "" | S n' => String "0" (zeros n') end.

Definition zero_pad (width : nat) (s : string) : string :=
  zeros (width - String.length s) +:+ s.

Definition fmt (width : nat) (n : Z) : string := zero_pad width (pretty n).

Definition isoformat (t : datetime) : string :=
  fmt 4 (year t) +:+ "-" +:+ fmt 2 (month t) +:+ "-" +:+ fmt 2 (day t)
  +:+ "T" +:+ fmt 2 (hour t) +:+ ":" +:+ fmt 2 (minute t) +:+ ":" +:+ fmt 2 (second t)
  +:+ (if microsecond t =? 0 then "" else "." +:+ fmt 6 (microsecond t)).

(** *** [json.loads]: what it gives on a text *)
Inductive loads_result : Type :=
| Loaded (j : json)
| JSONDecodeError (msg : string)
| LoadsRaised (e : exn).

End Py.

Import Py.

(* ===================================================================== *)
(** ** [src/database/models.py]                                           *)
(* ===================================================================== *)

Module Models.

(** One record per mapped class.  [id], [created_at] and [updated_at]
    are [None] on an object that has not been flushed.  A column that
    receives whatever the model returned ([ContentPlan.title], ...) holds
    that value as it is. *)

Record User := {
  user_id : option Z;
  user_tg_id : Z;
  user_username : option string;
  user_first_name : option string;
  user_last_name : option string;
  user_created_at : option datetime;
  user_updated_at : option datetime }.

Record Channel := {
  channel_id : option Z;
  channel_tg_id : Z;
  channel_username : option string;
  channel_title : option string;
  channel_description : option string;
  channel_member_count : option Z;
  channel_created_at : option datetime;
  channel_updated_at : option datetime }.

Record Post := {
  post_id : option Z;
  post_tg_id : Z;
  post_channel_id : Z;
  post_content : string;
  post_posted_at : datetime;
  post_views : option Z;
  post_forwards : option Z;
  post_created_at : option datetime;
  post_updated_at : option datetime }.

Record Comment := {
  comment_id : option Z;
  comment_tg_id : Z;
  comment_post_id : Z;
  comment_user_id : option Z;
  comment_content : string;
  comment_commented_at : datetime;
  comment_created_at : option datetime;
  comment_updated_at : option datetime }.

Record Reaction := {
  reaction_id : option Z;
  reaction_post_id : option Z;
  reaction_comment_id : option Z;
  reaction_type : string;
  reaction_count : Z;
  reaction_created_at : option datetime;
  reaction_updated_at : option datetime }.

Record Analysis := {
  analysis_id : option Z;
  analysis_channel_id : option Z;
  analysis_post_id : option Z;
  analysis_type : string;
  analysis_content : string;
  analysis_created_at : option datetime }.

Record ContentPlan := {
  plan_id : option Z;
  plan_channel_id : Z;
  plan_title : json;
  plan_description : json;
  plan_planned_date : datetime;
  plan_content : string;
  plan_status : string;
  plan_created_at : option datetime;
  plan_updated_at : option datetime }.

Record Survey := {
  survey_id : option Z;
  survey_channel_id : Z;
  survey_title : json;
  survey_description : json;
  survey_questions : string;
  survey_status : string;
  survey_created_at : option datetime;
  survey_updated_at : option datetime }.

(** An instance of any mapped class. *)
Inductive Row : Type :=
| RUser (u : User)
| RChannel (c : Channel)
| RPost (p : Post)
| RComment (c : Comment)
| RReaction (r : Reaction)
| RAnalysis (a : Analysis)
| RContentPlan (p : ContentPlan)
| RSurvey (s : Survey).

(** The stored tables, oldest row first. *)
Record Db := {
  users : list User;
  channels : list Channel;
  posts : list Post;
  comments : list Comment;
  reactions : list Reaction;
  analyses : list Analysis;
  content_plans : list ContentPlan;
  surveys : list Survey }.

Definition empty_db : Db := Build_Db [] [] [] [] [] [] [] [].

End Models.

Import Models.

(* ===================================================================== *)
(** ** The messaging client's objects (telethon)                          *)
(* ===================================================================== *)

Module Telethon.

Inductive Peer := PeerUser (id : Z) | PeerChannel (id : Z) | PeerChat (id : Z).

Record TgUser := {
  tg_user_id : Z;
  tg_username : option string;
  tg_first_name : option string;
  tg_last_name : option string }.

Inductive Entity :=
| EntityUser (u : TgUser)
| EntityChannel (id : Z)
| EntityChat (id : Z).

Definition entity_id (e : Entity) : Z :=
  match e with
  | EntityUser u => tg_user_id u
  | EntityChannel id => id
  | EntityChat id => id
  end.

(** The reaction descriptor of one [ReactionCount]: an emoji, a custom
    emoji, or any other kind, kept as the text [str()] gives for it. *)
Inductive ReactionKind :=
| ReactionEmoji (emoticon : string)
| ReactionCustomEmoji (document_id : Z)
| ReactionOther (repr : string).

Record ReactionCount := { rc_reaction : ReactionKind; rc_count : Z }.

(** A message of a history or of a reply thread.  [msg_message] is
    [None] for a service message, [msg_reactions] is [message.reactions]
    (its [results] when present). *)
Record Message := {
  msg_id : Z;
  msg_date : datetime;
  msg_message : option string;
  msg_views : option Z;
  msg_forwards : option Z;
  msg_reactions : option (list ReactionCount);
  msg_from_id : option Peer }.

Inductive EntityRef := ByUsername (name : string) | ByPeer (p : Peer).

End Telethon.

Import Telethon.

(* ===================================================================== *)
(** ** Effects: the environment, the world, the monad                     *)
(* ===================================================================== *)

Module Eff.

(** One [openai.ChatCompletion.acreate] call.  The temperature is kept
    as the literal the source writes. *)
Record ChatRequest := {
  chat_model : string;
  chat_system : string;
  chat_user : string;
  chat_temperature : string;
  chat_max_tokens : Z }.

(** What the program does not define.  Every interaction consumes one
    step of the world's counter [tick], and the oracles of the outside
    world are indexed by it, so that two calls may answer differently.
    - [json_loads] is [json.loads], and [py_str] is [str()] on a list or
      a dict (the bot prints values with it);
    - [utcnow] is the clock;
    - [query_fault] and [commit_fault] tell that the storage engine
      fails a query, resp. a commit, for a reason of its own: a lost
      connection, a locked file, a foreign key it enforces;
    - [chat_completion] gives [response.choices[0].message.content], or
      raises (authentication, quota, transport, a missing choice);
    - the four messaging oracles answer, or raise, for [self.client]
      (also when it was never started). *)
Record Env := {
  json_loads : string -> loads_result;
  py_str : json -> string;
  utcnow : nat -> datetime;
  query_fault : nat -> option exn;
  commit_fault : nat -> option exn;
  chat_completion : nat -> ChatRequest -> outcome string;
  get_entity : nat -> EntityRef -> outcome Entity;
  get_history : nat -> Entity -> Z -> option datetime -> outcome (list Message);
  get_message : nat -> Entity -> Z -> outcome (option Message);
  get_replies : nat -> Entity -> Z -> Z -> outcome (list Message) }.

(** [context.user_data] of one chat: a dict that holds at most these
    three keys; [None] is an absent key. *)
Record UserData := {
  ud_channel_username : option string;
  ud_post_id : option Z;
  ud_pending_action : option string }.

Definition empty_user_data : UserData := Build_UserData None None None.

(** The mutable state: the stored tables, the open session's pending
    instances, the requests sent to the model so far, and the bot's
    [context.user_data] with the replies it sent. *)
Record World := {
  tick : nat;
  store : Db;
  session : list Row;
  chat_log : list ChatRequest;
  user_data : UserData;
  sent : list string }.

Definition set_tick (n : nat) (w : World) : World :=
  Build_World n (store w) (session w) (chat_log w) (user_data w) (sent w).
Definition set_store (d : Db) (w : World) : World :=
  Build_World (tick w) d (session w) (chat_log w) (user_data w) (sent w).
Definition set_session (l : list Row) (w : World) : World :=
  Build_World (tick w) (store w) l (chat_log w) (user_data w) (sent w).
Definition set_chat_log (l : list ChatRequest) (w : World) : World :=
  Build_World (tick w) (store w) (session w) l (user_data w) (sent w).
Definition set_user_data (u : UserData) (w : World) : World :=
  Build_World (tick w) (store w) (session w) (chat_log w) u (sent w).
Definition set_sent (l : list string) (w : World) : World :=
  Build_World (tick w) (store w) (session w) (chat_log w) (user_data w) l.

Definition M (A : Type) : Type := Env -> World -> outcome A * World.

Definition ret {A} (a : A) : M A := fun _ w => (Returned a, w).

Definition raise {A} (e : exn) : M A := fun _ w => (Raised e, w).

Definition bind {A B} (m : M A) (k : A -> M B) : M B :=
  fun env w =>
    match m env w with
    | (Returned a, w') => k a env w'
    | (Raised e, w') => (Raised e, w')
    end.

(** [try: m  except Exception as e: h e] *)
Definition try_except {A} (m : M A) (h : exn -> M A) : M A :=
  fun env w =>
    match m env w with
    | (Returned a, w') => (Returned a, w')
    | (Raised e, w') => h e env w'
    end.

Definition lift {A} (o : outcome A) : M A := fun _ w => (o, w).

Definition gets {A} (f : World -> A) : M A := fun _ w => (Returned (f w), w).

Definition modify (f : World -> World) : M unit := fun _ w => (Returned tt, f w).

Definition asks {A} (f : Env -> A) : M A := fun env w => (Returned (f env), w).

(** The step of the next interaction. *)
Definition step : M nat :=
  fun _ w => (Returned (tick w), set_tick (S (tick w)) w).

End Eff.

Import Eff.

Declare Scope eff_scope.
Delimit Scope eff_scope with eff.
Notation "x <- m ;; k" := (bind m (fun x => k))
  (at level 100, m at next level, right associativity) : eff_scope.
Notation "m ;;; k" := (bind m (fun _ => k))
  (at level 100, right associativity) : eff_scope.
Local Open Scope eff_scope.

(** [for x in l: body x] *)
Fixpoint for_each {A} (l : list A) (body : A -> M unit) : M unit :=
  match l with
  | [] => ret tt
  | x :: rest => body x ;;; for_each rest body
  end.

(** [[f x for x in l]] where [f] has effects. *)
Fixpoint map_m {A B} (f : A -> M B) (l : list A) : M (list B) :=
  match l with
  | [] => ret []
  | x :: rest => y <- f x ;; ys <- map_m f rest ;; ret (y :: ys)
  end.

(* ===================================================================== *)
(** ** The SQLAlchemy session ([sessionmaker(autoflush=False)])           *)
(* ===================================================================== *)

Module Orm.

Definition integrity_error (msg : string) : exn := Exn "IntegrityError" msg.

Definition max_id (ids : list (option Z)) : Z :=
  fold_right (fun o m => match o with Some k => Z.max k m | None => m end) 0 ids.

(** The primary key an INSERT stores: the given one if it is free, a
    fresh one if none is given.  [None]: the given key is taken. *)
Definition insert_id (given : option Z) (ids : list (option Z)) : option Z :=
  match given with
  | None => Some (1 + max_id ids)
  | Some k => if existsb (fun o => bool_decide (o = Some k)) ids then None else Some k
  end.

Definition with_users (l : list User) (d : Db) : Db :=
  Build_Db l (channels d) (posts d) (comments d) (reactions d) (analyses d)
           (content_plans d) (surveys d).
Definition with_channels (l : list Channel) (d : Db) : Db :=
  Build_Db (users d) l (posts d) (comments d) (reactions d) (analyses d)
           (content_plans d) (surveys d).
Definition with_posts (l : list Post) (d : Db) : Db :=
  Build_Db (users d) (channels d) l (comments d) (reactions d) (analyses d)
           (content_plans d) (surveys d).
Definition with_comments (l : list Comment) (d : Db) : Db :=
  Build_Db (users d) (channels d) (posts d) l (reactions d) (analyses d)
           (content_plans d) (surveys d).
Definition with_reactions (l : list Reaction) (d : Db) : Db :=
  Build_Db (users d) (channels d) (posts d) (comments d) l (analyses d)
           (content_plans d) (surveys d).
Definition with_analyses (l : list Analysis) (d : Db) : Db :=
  Build_Db (users d) (channels d) (posts d) (comments d) (reactions d) l
           (content_plans d) (surveys d).
Definition with_content_plans (l : list ContentPlan) (d : Db) : Db :=
  Build_Db (users d) (channels d) (posts d) (comments d) (reactions d)
           (analyses d) l (surveys d).
Definition with_surveys (l : list Survey) (d : Db) : Db :=
  Build_Db (users d) (channels d) (posts d) (comments d) (reactions d)
           (analyses d) (content_plans d) l.

Definition is_null (j : json) : bool :=
  match j with JNull => true | _ => false end.

Definition pk_taken (table : string) : exn :=
  integrity_error ("UNIQUE constraint failed: " +:+ table +:+ ".id").

(** What the driver binds to a [String] or [Text] column: [None] and the
    scalars.  A list or a dict is refused when the statement is executed
    (the class and the text of that error are the driver's). *)
Definition bindable (j : json) : bool :=
  match j with JArr _ | JObj _ => false | _ => true end.

Definition not_bindable (j : json) : exn :=
  Exn "InterfaceError"
      ("Error binding parameter: type '" +:+ type_name j +:+ "' is not supported").

(** The first of two values of a row that the driver refuses, if any. *)
Definition unbound (title description : json) : option exn :=
  if negb (bindable title) then Some (not_bindable title)
  else if negb (bindable description) then Some (not_bindable description)
  else None.

(** Writing one pending instance at time [now], under the constraints
    [models.py] declares: primary keys, [unique=True], [nullable=False],
    and with its defaults: an attribute that is [None] is left out of the
    INSERT, so that [views] and [forwards] of a post are stored as their
    [default=0].  A [User] that carries the primary key of a stored row
    is the result of a [merge] and overwrites that row. *)
Definition flush_row (now : datetime) (r : Row) (d : Db) : exn + Db :=
  match r with
  | RUser u =>
      let others :=
        List.filter (fun u' => negb (bool_decide (is_Some (user_id u)
                                                  ∧ user_id u' = user_id u)))
                    (users d) in
      if existsb (fun u' => user_tg_id u' =? user_tg_id u) others then
        inl (integrity_error "UNIQUE constraint failed: users.tg_id")
      else
        match insert_id (user_id u) (List.map user_id (users d)) with
        | Some k =>
            inr (with_users
                   (users d ++ [Build_User (Some k) (user_tg_id u) (user_username u)
                                  (user_first_name u) (user_last_name u)
                                  (Some now) (Some now)]) d)
        | None =>
            inr (with_users
                   (List.map (fun u' =>
                      if bool_decide (user_id u' = user_id u) then
                        Build_User (user_id u') (user_tg_id u) (user_username u)
                          (user_first_name u) (user_last_name u)
                          (user_created_at u') (Some now)
                      else u') (users d)) d)
        end
  | RChannel c =>
      if existsb (fun c' => channel_tg_id c' =? channel_tg_id c) (channels d) then
        inl (integrity_error "UNIQUE constraint failed: channels.tg_id")
      else
        match insert_id (channel_id c) (List.map channel_id (channels d)) with
        | Some k =>
            inr (with_channels
                   (channels d ++ [Build_Channel (Some k) (channel_tg_id c)
                                     (channel_username c) (channel_title c)
                                     (channel_description c) (channel_member_count c)
                                     (Some now) (Some now)]) d)
        | None => inl (pk_taken "channels")
        end
  | RPost p =>
      match insert_id (post_id p) (List.map post_id (posts d)) with
      | Some k =>
          inr (with_posts
                 (posts d ++ [Build_Post (Some k) (post_tg_id p) (post_channel_id p)
                                (post_content p) (post_posted_at p)
                                (Some (default 0 (post_views p)))
                                (Some (default 0 (post_forwards p)))
                                (Some now) (Some now)]) d)
      | None => inl (pk_taken "posts")
      end
  | RComment c =>
      match insert_id (comment_id c) (List.map comment_id (comments d)) with
      | Some k =>
          inr (with_comments
                 (comments d ++ [Build_Comment (Some k) (comment_tg_id c)
                                   (comment_post_id c) (comment_user_id c)
                                   (comment_content c) (comment_commented_at c)
                                   (Some now) (Some now)]) d)
      | None => inl (pk_taken "comments")
      end
  | RReaction x =>
      match insert_id (reaction_id x) (List.map reaction_id (reactions d)) with
      | Some k =>
          inr (with_reactions
                 (reactions d ++ [Build_Reaction (Some k) (reaction_post_id x)
                                    (reaction_comment_id x) (reaction_type x)
                                    (reaction_count x) (Some now) (Some now)]) d)
      | None => inl (pk_taken "reactions")
      end
  | RAnalysis a =>
      match insert_id (analysis_id a) (List.map analysis_id (analyses d)) with
      | Some k =>
          inr (with_analyses
                 (analyses d ++ [Build_Analysis (Some k) (analysis_channel_id a)
                                   (analysis_post_id a) (analysis_type a)
                                   (analysis_content a) (Some now)]) d)
      | None => inl (pk_taken "analyses")
      end
  | RContentPlan p =>
      match unbound (plan_title p) (plan_description p) with
      | Some e => inl e
      | None =>
      if is_null (plan_title p) then
        inl (integrity_error "NOT NULL constraint failed: content_plans.title")
      else
        match insert_id (plan_id p) (List.map plan_id (content_plans d)) with
        | Some k =>
            inr (with_content_plans
                   (content_plans d ++ [Build_ContentPlan (Some k) (plan_channel_id p)
                                          (plan_title p) (plan_description p)
                                          (plan_planned_date p) (plan_content p)
                                          (plan_status p) (Some now) (Some now)]) d)
        | None => inl (pk_taken "content_plans")
        end
      end
  | RSurvey x =>
      match unbound (survey_title x) (survey_description x) with
      | Some e => inl e
      | None =>
      if is_null (survey_title x) then
        inl (integrity_error "NOT NULL constraint failed: surveys.title")
      else
        match insert_id (survey_id x) (List.map survey_id (surveys d)) with
        | Some k =>
            inr (with_surveys
                   (surveys d ++ [Build_Survey (Some k) (survey_channel_id x)
                                    (survey_title x) (survey_description x)
                                    (survey_questions x) (survey_status x)
                                    (Some now) (Some now)]) d)
        | None => inl (pk_taken "surveys")
        end
      end
  end.

(** Writing the pending instances in the order they were added, each at
    its own step of the clock (for [created_at]); the first violation
    stops the flush.  No table sees another one here, so the order in
    which the unit of work visits the tables is immaterial. *)
Fixpoint flush (clock : nat -> datetime) (n : nat) (pending : list Row) (d : Db)
  : (exn + Db) * nat :=
  match pending with
  | [] => (inr d, n)
  | r :: rest =>
      match flush_row (clock n) r d with
      | inl e => (inl e, S n)
      | inr d' => flush clock (S n) rest d'
      end
  end.

(** [db.add(instance)] *)
Definition add (r : Row) : M unit :=
  modify (fun w => set_session (session w ++ [r]) w).

(** A SELECT: it reads the stored tables only (no autoflush), unless the
    engine fails it. *)
Definition query {A} (select : Db -> A) : M A :=
  n <- step ;;
  fault <- asks (fun env => query_fault env n) ;;
  match fault with
  | Some e => raise e
  | None => gets (fun w => select (store w))
  end.

(** [db.merge(instance)] reconciles by primary key.  An instance without
    one (the source builds no other) matches no stored row: a copy of it
    becomes a new pending instance.  With one, the stored row is looked
    up first. *)
Definition merge (u : User) : M unit :=
  match user_id u with
  | None => add (RUser u)
  | Some k =>
      query (fun d => List.find (fun u' => bool_decide (user_id u' = Some k)) (users d)) ;;;
      add (RUser u)
  end.

(** [db.commit()]: all pending instances are written, or none is and
    the exception is raised; either way the session is left empty. *)
Definition commit : M unit :=
  fun env w =>
    let n := tick w in
    match commit_fault env n with
    | Some e => (Raised e, set_session [] (set_tick (S n) w))
    | None =>
        match flush (utcnow env) (S n) (session w) (store w) with
        | (inl e, n') => (Raised e, set_session [] (set_tick n' w))
        | (inr d, n') => (Returned tt, set_session [] (set_store d (set_tick n' w)))
        end
    end.

(** [with SessionLocal() as db: body]: a session of its own, closed on
    the way out, also when [body] raises. *)
Definition with_session {A} (body : M A) : M A :=
  fun env w =>
    let outer := session w in
    match body env (set_session [] w) with
    | (o, w') => (o, set_session outer w')
    end.

(** Stable insertion sort, largest key first. *)
Fixpoint insert_desc {A} (key : A -> Z) (x : A) (l : list A) : list A :=
  match l with
  | [] => [x]
  | y :: rest => if key x <? key y then y :: insert_desc key x rest else x :: l
  end.

Definition sort_desc {A} (key : A -> Z) (l : list A) : list A :=
  fold_right (insert_desc key) [] l.

Definition opt_timestamp (t : option datetime) : Z :=
  match t with Some t => timestamp t | None => -1 end.

End Orm.

Import Orm.

(* ===================================================================== *)
(** ** [src/data/collector.py]                                            *)
(* ===================================================================== *)

Module Collector.

(** In the file, the body of [_save_reactions] stands at the indentation
    of its [def], which Python refuses.  It is read here one level
    deeper, as the method that [get_posts] and [get_comments] call. *)

(** [self]: the default channel of the settings. *)
Record TelegramDataCollector := { self_channel_username : string }.

(** The dictionaries the two collection methods return. *)
Record PostData := {
  pd_id : Z; pd_date : datetime; pd_text : string;
  pd_views : option Z; pd_forwards : option Z }.

Record UserInfo := {
  ui_id : Z; ui_username : option string;
  ui_first_name : option string; ui_last_name : option string }.

Record CommentData := {
  cd_id : Z; cd_post_id : Z; cd_date : datetime; cd_text : string;
  cd_user : option UserInfo }.

(** Calls of [self.client]. *)
Definition client_get_entity (r : EntityRef) : M Entity :=
  n <- step ;; o <- asks (fun env => get_entity env n r) ;; lift o.

Definition client_get_history (peer : Entity) (limit : Z) (offset_date : option datetime)
  : M (list Message) :=
  n <- step ;; o <- asks (fun env => get_history env n peer limit offset_date) ;; lift o.

Definition client_get_message (peer : Entity) (id : Z) : M (option Message) :=
  n <- step ;; o <- asks (fun env => get_message env n peer id) ;; lift o.

Definition client_get_replies (peer : Entity) (reply_to limit : Z) : M (list Message) :=
  n <- step ;; o <- asks (fun env => get_replies env n peer reply_to limit) ;; lift o.

(** [if not channel_username: channel_username = self.channel_username] *)
Definition default_channel (self : TelegramDataCollector) (channel_username : option string)
  : string :=
  match channel_username with
  | Some name => if String.eqb name "" then self_channel_username self else name
  | None => self_channel_username self
  end.

(** [not message.message] *)
Definition text_of (m : Message) : option string :=
  match msg_message m with
  | Some t => if String.eqb t "" then None else Some t
  | None => None
  end.

(** The label of one reaction: emoticon, else [custom_<document id>],
    else [str(reaction)]. *)
Definition reaction_label (k : ReactionKind) : string :=
  match k with
  | ReactionEmoji emoticon => emoticon
  | ReactionCustomEmoji document_id => "custom_" +:+ pretty document_id
  | ReactionOther repr => repr
  end.

(** [entity.id if isinstance(entity, Post) else None], and the same for
    [Comment]: the identifier the instance has when the reaction is built. *)
Definition id_if_post (entity : Post + Models.Comment) : option Z :=
  match entity with inl p => post_id p | inr _ => None end.

Definition id_if_comment (entity : Post + Models.Comment) : option Z :=
  match entity with inr c => comment_id c | inl _ => None end.

Definition _save_reactions (message : Message) (entity : Post + Models.Comment) : M unit :=
  match msg_reactions message with
  | Some results =>
      for_each results (fun reaction =>
        let reaction_type := reaction_label (rc_reaction reaction) in
        let reaction_model :=
          {| reaction_id := None;
             reaction_post_id := id_if_post entity;
             reaction_comment_id := id_if_comment entity;
             reaction_type := reaction_type;
             reaction_count := rc_count reaction;
             reaction_created_at := None;
             reaction_updated_at := None |} in
        add (RReaction reaction_model))
  | None => ret tt
  end.

(** The loop of [get_posts] over [history.messages]; it returns the
    list [posts] it appends to. *)
Fixpoint collect_posts (entity : Entity) (messages : list Message) : M (list PostData) :=
  match messages with
  | [] => ret []
  | message :: rest =>
      match text_of message with
      | None => collect_posts entity rest
      | Some text =>
          let post_data :=
            {| pd_id := msg_id message; pd_date := msg_date message; pd_text := text;
               pd_views := msg_views message; pd_forwards := msg_forwards message |} in
          let post :=
            {| post_id := None;
               post_tg_id := msg_id message;
               post_channel_id := entity_id entity;
               post_content := text;
               post_posted_at := msg_date message;
               post_views := msg_views message;
               post_forwards := msg_forwards message;
               post_created_at := None;
               post_updated_at := None |} in
          add (RPost post) ;;;
          _save_reactions message (inl post) ;;;
          posts <- collect_posts entity rest ;;
          ret (post_data :: posts)
      end
  end.

Definition get_posts (self : TelegramDataCollector) (channel_username : option string)
    (limit : Z) (offset_date : option datetime) : M (list PostData) :=
  let channel_username := default_channel self channel_username in
  entity <- client_get_entity (ByUsername channel_username) ;;
  history <- client_get_history entity limit offset_date ;;
  with_session (
    posts <- collect_posts entity history ;;
    commit ;;;
    ret posts).

(** The author of a reply, best effort: [user_info] stays [None] when
    there is no sender, when the lookup raises, or when the sender is not
    a [User]; a resolved [User] is merged into the session. *)
Definition resolve_author (reply : Message) : M (option UserInfo) :=
  match msg_from_id reply with
  | Some from_id =>
      try_except
        (user <- client_get_entity (ByPeer from_id) ;;
         match user with
         | EntityUser user =>
             let user_info :=
               {| ui_id := tg_user_id user; ui_username := tg_username user;
                  ui_first_name := tg_first_name user;
                  ui_last_name := tg_last_name user |} in
             let db_user :=
               {| user_id := None;
                  user_tg_id := tg_user_id user;
                  user_username := tg_username user;
                  user_first_name := tg_first_name user;
                  user_last_name := tg_last_name user;
                  user_created_at := None;
                  user_updated_at := None |} in
             merge db_user ;;;
             ret (Some user_info)
         | _ => ret None
         end)
        (fun e => ret None)
  | None => ret None
  end.

(** The loop of [get_comments] over [replies]. *)
Fixpoint collect_comments (post_id : Z) (replies : list Message) : M (list CommentData) :=
  match replies with
  | [] => ret []
  | reply :: rest =>
      match text_of reply with
      | None => collect_comments post_id rest
      | Some text =>
          user_info <- resolve_author reply ;;
          let comment_data :=
            {| cd_id := msg_id reply; cd_post_id := post_id; cd_date := msg_date reply;
               cd_text := text; cd_user := user_info |} in
          let comment :=
            {| comment_id := None;
               comment_tg_id := msg_id reply;
               comment_post_id := post_id;
               comment_user_id := ui_id <$> user_info;
               comment_content := text;
               comment_commented_at := msg_date reply;
               comment_created_at := None;
               comment_updated_at := None |} in
          add (RComment comment) ;;;
          _save_reactions reply (inr comment) ;;;
          comments <- collect_comments post_id rest ;;
          ret (comment_data :: comments)
      end
  end.

Definition get_comments (self : TelegramDataCollector) (channel_username : option string)
    (post_id : option Z) (limit : Z) : M (list CommentData) :=
  let channel_username := default_channel self channel_username in
  entity <- client_get_entity (ByUsername channel_username) ;;
  match post_id with
  | Some post_id =>
      if post_id =? 0 then ret []
      else
        message <- client_get_message entity post_id ;;
        match message with
        | Some message =>
            replies <- client_get_replies entity (msg_id message) limit ;;
            with_session (
              comments <- collect_comments post_id replies ;;
              commit ;;;
              ret comments)
        | None => ret []
        end
  | None => ret []
  end.

End Collector.

(* ===================================================================== *)
(** ** [src/analysis/llm_service.py]                                      *)
(* ===================================================================== *)

Module LLMService.

(** [self.model]; [self.db] is the world's session. *)
Definition model : string := "gpt-4o".

(** The fixed text of the four prompts, around the embedded data. *)
Definition channel_prompt_head : string := "
        Проанализируй следующие данные из Telegram-канала:
        
        ".
Definition channel_prompt_tail : string := "
        
        Выполни следующие задачи:
        1. Определи основные темы и категории контента
        2. Выяви посты с наибольшим вовлечением (по просмотрам, комментариям и реакциям)
        3. Проанализируй тональность комментариев и общее настроение аудитории
        4. Выяви ключевые запросы и вопросы подписчиков
        5. Предложи 5 идей для новых постов на основе анализа
        6. Определи оптимальное время публикации контента
        7. Выдели сильные и слабые стороны существующего контента
        
        Результат представь в формате JSON со следующими ключами:
        - main_topics
        - top_posts
        - audience_sentiment
        - audience_questions
        - content_ideas
        - optimal_posting_time
        - content_strengths
        - content_weaknesses
        ".
Definition plan_prompt_head : string := "
        На основе следующего анализа Telegram-канала:
        
        ".
Definition plan_prompt_days : string := "
        
        Создай контент-план на ".
Definition plan_prompt_tail : string := " дней. Для каждого дня предложи:
        1. Тему поста
        2. Краткое описание содержания
        3. Тип контента (информационный, развлекательный, опрос, обучающий, интерактивный и т.д.)
        4. Оптимальное время публикации
        5. Ожидаемый отклик аудитории
        
        Результат представь в формате JSON, где ключи - дни (day_1, day_2, ...), а значения - объекты с полями:
        - title
        - description
        - content_type
        - posting_time
        - expected_engagement
        ".
Definition post_prompt_head : string := "
        Проанализируй эффективность этого поста из Telegram-канала:
        
        ".
Definition post_prompt_tail : string := "
        
        Выполни следующие задачи:
        1. Оцени вовлечение аудитории (высокое, среднее, низкое) с обоснованием
        2. Проанализируй тональность комментариев (позитивная, нейтральная, негативная)
        3. Выяви ключевые вопросы или запросы в комментариях
        4. Предложи, как можно улучшить пост или его подачу
        5. Определи, что в посте сработало хорошо, а что нет
        
        Результат представь в формате JSON со следующими ключами:
        - engagement_level
        - engagement_analysis
        - comments_sentiment
        - key_questions
        - improvement_suggestions
        - pros_and_cons
        ".
Definition survey_prompt_head : string := "
        На основе следующего анализа Telegram-канала:
        
        ".
Definition survey_prompt_tail : string := "
        
        Создай опрос для аудитории, который поможет лучше понять их потребности и улучшить контент.
        
        Опрос должен содержать:
        1. Краткое вступление с объяснением цели опроса
        2. 5-7 вопросов разных типов (выбор одного варианта, множественный выбор, открытый вопрос и т.д.)
        3. Благодарность за участие
        
        Вопросы должны касаться:
        - Предпочтений по темам контента
        - Удовлетворенности текущим контентом
        - Пожеланий по новым форматам
        - Демографических данных аудитории (возраст, интересы и т.д.)
        - Частоты взаимодействия с каналом
        
        Результат представь в формате JSON со следующими ключами:
        - title
        - description
        - questions (массив объектов с полями: question_text, question_type, options)
        - thank_you_message
        ".

Definition channel_system : string := "Ты аналитик социальных медиа, который анализирует Telegram-каналы и предоставляет инсайты и рекомендации.".
Definition plan_system : string := "Ты контент-менеджер для Telegram-канала, который создает эффективные контент-планы на основе аналитики.".
Definition post_system : string := "Ты аналитик социальных медиа, который оценивает эффективность постов в Telegram.".
Definition survey_system : string := "Ты специалист по маркетинговым исследованиям, который создает эффективные опросы для аудитории Telegram-канала.".

Definition channel_prompt (posts_data : json) : string :=
  channel_prompt_head +:+ json_dumps_indent 0 posts_data +:+ channel_prompt_tail.

Definition plan_prompt (analysis_data : json) (days : Z) : string :=
  plan_prompt_head +:+ json_dumps_indent 0 analysis_data +:+ plan_prompt_days
  +:+ pretty days +:+ plan_prompt_tail.

Definition post_prompt (post_data : json) : string :=
  post_prompt_head +:+ json_dumps_indent 0 post_data +:+ post_prompt_tail.

Definition survey_prompt (analysis_data : json) : string :=
  survey_prompt_head +:+ json_dumps_indent 0 analysis_data +:+ survey_prompt_tail.

(** [await openai.ChatCompletion.acreate(...)] followed by
    [response.choices[0].message.content]. *)
Definition acreate (system user temperature : string) (max_tokens : Z) : M string :=
  let request :=
    {| chat_model := model; chat_system := system; chat_user := user;
       chat_temperature := temperature; chat_max_tokens := max_tokens |} in
  n <- step ;;
  modify (fun w => set_chat_log (chat_log w ++ [request]) w) ;;;
  o <- asks (fun env => chat_completion env n request) ;;
  lift o.

Definition loads (text : string) : M loads_result :=
  asks (fun env => json_loads env text).

Definition now : M datetime :=
  n <- step ;; asks (fun env => utcnow env n).

Definition opt_int (o : option Z) : json :=
  match o with Some n => JInt n | None => JNull end.

(** The returned dictionary [{"error": message}]. *)
Definition error_dict (message : string) : json := JObj [("error", JStr message)].

Definition parse_failure (raw : string) : json :=
  JObj [("error", JStr "Failed to parse response as JSON"); ("raw_response", JStr raw)].

(** The queries of the service. *)
Definition select_posts (channel_id : Z) (d : Db) : list Post :=
  take 50 (sort_desc (fun p => timestamp (post_posted_at p))
             (List.filter (fun p => post_channel_id p =? channel_id) (posts d))).

Definition select_comments (post_id : option Z) (d : Db) : list Models.Comment :=
  List.filter (fun c => bool_decide (Some (comment_post_id c) = post_id)) (comments d).

Definition select_reactions (post_id : option Z) (d : Db) : list Reaction :=
  List.filter (fun r => bool_decide (reaction_post_id r = post_id)) (reactions d).

Definition select_post (post_id : Z) (d : Db) : option Post :=
  List.find (fun p => bool_decide (Models.post_id p = Some post_id)) (posts d).

Definition select_latest_analysis (channel_id : Z) (d : Db) : option Analysis :=
  head (sort_desc (fun a => opt_timestamp (analysis_created_at a))
          (List.filter (fun a => bool_decide (analysis_channel_id a = Some channel_id)
                                 && String.eqb (analysis_type a) "channel_content")
                       (analyses d))).

Definition reactions_json (rs : list Reaction) : json :=
  JArr (List.map (fun r => JObj [("type", JStr (reaction_type r));
                                 ("count", JInt (reaction_count r))]) rs).

(** One entry of [posts_data]. *)
Definition channel_post_data (post : Post) : M json :=
  comments <- query (select_comments (post_id post)) ;;
  reactions <- query (select_reactions (post_id post)) ;;
  ret (JObj [
    ("id", JInt (post_tg_id post));
    ("content", JStr (post_content post));
    ("posted_at", JStr (isoformat (post_posted_at post)));
    ("views", opt_int (post_views post));
    ("forwards", opt_int (post_forwards post));
    ("comments_count", JInt (Z.of_nat (length comments)));
    ("comments",
      JArr (List.map (fun c => JObj [("id", JInt (comment_tg_id c));
                                     ("content", JStr (comment_content c));
                                     ("user_id", opt_int (comment_user_id c))])
                     (take 10 comments)));
    ("reactions", reactions_json reactions)]).

Definition analyze_channel_content (channel_id : Z) : M json :=
  posts <- query (select_posts channel_id) ;;
  match posts with
  | [] => ret (error_dict "No posts found for analysis")
  | _ =>
      posts_data <- map_m channel_post_data posts ;;
      let prompt := channel_prompt (JArr posts_data) in
      try_except
        (result <- acreate channel_system prompt "0.3" 2000 ;;
         parsed <- loads result ;;
         analysis_data <-
           match parsed with
           | Loaded j => ret j
           | JSONDecodeError _ => ret (JObj [("analysis", JStr result)])
           | LoadsRaised e => raise e
           end ;;
         let analysis :=
           {| analysis_id := None;
              analysis_channel_id := Some channel_id;
              analysis_post_id := None;
              analysis_type := "channel_content";
              analysis_content := json_dumps analysis_data;
              analysis_created_at := None |} in
         add (RAnalysis analysis) ;;;
         commit ;;;
         ret analysis_data)
        (fun e => ret (error_dict (str_exn e)))
  end.

(** The latest channel analysis, made on the spot when there is none. *)
Definition channel_analysis_data (channel_id : Z) : M json :=
  analysis <- query (select_latest_analysis channel_id) ;;
  match analysis with
  | None => analyze_channel_content channel_id
  | Some analysis =>
      parsed <- loads (analysis_content analysis) ;;
      match parsed with
      | Loaded j => ret j
      | JSONDecodeError msg => raise (Exn "JSONDecodeError" msg)
      | LoadsRaised e => raise e
      end
  end.

(** [int(day_key.split("_")[1])] *)
Definition day_number (day_key : string) : outcome Z :=
  match index (split "_" day_key) 1 with
  | Returned part =>
      match int part with
      | Some n => Returned n
      | None => Raised (Exn "ValueError"
                          ("invalid literal for int() with base 10: '" +:+ part +:+ "'"))
      end
  | Raised e => Raised e
  end.

(** The body of the loop over [plan_data.items()]: the row of one day. *)
Definition plan_row (channel_id : Z) (today : datetime) (day_key : string) (day_plan : json)
  : outcome ContentPlan :=
  match day_number day_key with
  | Returned day_num =>
      match add_days today (day_num - 1) with
      | Returned planned_date =>
          match getitem day_plan "title" with
          | Returned title =>
              match getitem day_plan "description" with
              | Returned description =>
                  Returned {| plan_id := None;
                              plan_channel_id := channel_id;
                              plan_title := title;
                              plan_description := description;
                              plan_planned_date := planned_date;
                              plan_content := json_dumps day_plan;
                              plan_status := "draft";
                              plan_created_at := None;
                              plan_updated_at := None |}
              | Raised e => Raised e
              end
          | Raised e => Raised e
          end
      | Raised e => Raised e
      end
  | Raised e => Raised e
  end.

Definition generate_content_plan (channel_id : Z) (days : Z) : M json :=
  analysis_data <- channel_analysis_data channel_id ;;
  let prompt := plan_prompt analysis_data days in
  try_except
    (result <- acreate plan_system prompt "0.7" 2500 ;;
     parsed <- loads result ;;
     match parsed with
     | JSONDecodeError _ => ret (parse_failure result)
     | LoadsRaised e => raise e
     | Loaded plan_data =>
         today <- now ;;
         days_of_plan <- lift (items plan_data) ;;
         for_each days_of_plan (fun '(day_key, day_plan) =>
           content_plan <- lift (plan_row channel_id today day_key day_plan) ;;
           add (RContentPlan content_plan)) ;;;
         commit ;;;
         ret (JObj [("success", JBool true); ("content_plan", plan_data)])
     end)
    (fun e => ret (error_dict (str_exn e))).

Definition analyze_post_performance (post_id : Z) : M json :=
  post <- query (select_post post_id) ;;
  match post with
  | None => ret (error_dict "Post not found")
  | Some post =>
      comments <- query (select_comments (Some post_id)) ;;
      reactions <- query (select_reactions (Some post_id)) ;;
      let post_data :=
        JObj [
          ("id", JInt (post_tg_id post));
          ("content", JStr (post_content post));
          ("posted_at", JStr (isoformat (post_posted_at post)));
          ("views", opt_int (post_views post));
          ("forwards", opt_int (post_forwards post));
          ("comments",
            JArr (List.map (fun c => JObj [("id", opt_int (comment_id c));
                                           ("content", JStr (comment_content c));
                                           ("user_id", opt_int (comment_user_id c));
                                           ("commented_at",
                                             JStr (isoformat (comment_commented_at c)))])
                           comments));
          ("reactions", reactions_json reactions)] in
      let prompt := post_prompt post_data in
      try_except
        (result <- acreate post_system prompt "0.3" 1500 ;;
         parsed <- loads result ;;
         match parsed with
         | JSONDecodeError _ => ret (parse_failure result)
         | LoadsRaised e => raise e
         | Loaded analysis_data =>
             let analysis :=
               {| analysis_id := None;
                  analysis_channel_id := None;
                  analysis_post_id := Some post_id;
                  analysis_type := "post_performance";
                  analysis_content := json_dumps analysis_data;
                  analysis_created_at := None |} in
             add (RAnalysis analysis) ;;;
             commit ;;;
             ret analysis_data
         end)
        (fun e => ret (error_dict (str_exn e)))
  end.

Definition generate_survey (channel_id : Z) : M json :=
  analysis_data <- channel_analysis_data channel_id ;;
  let prompt := survey_prompt analysis_data in
  try_except
    (result <- acreate survey_system prompt "0.5" 2000 ;;
     parsed <- loads result ;;
     match parsed with
     | JSONDecodeError _ => ret (parse_failure result)
     | LoadsRaised e => raise e
     | Loaded survey_data =>
         title <- lift (getitem survey_data "title") ;;
         description <- lift (getitem survey_data "description") ;;
         questions <- lift (getitem survey_data "questions") ;;
         let survey :=
           {| survey_id := None;
              survey_channel_id := channel_id;
              survey_title := title;
              survey_description := description;
              survey_questions := json_dumps questions;
              survey_status := "draft";
              survey_created_at := None;
              survey_updated_at := None |} in
         add (RSurvey survey) ;;;
         commit ;;;
         ret (JObj [("success", JBool true); ("survey", survey_data)])
     end)
    (fun e => ret (error_dict (str_exn e))).

End LLMService.

(* ===================================================================== *)
(** ** A decoder for the examples                                         *)
(* ===================================================================== *)

(** [json.loads] is an oracle of the environment, and the theorems hold
    for every decoder.  The concrete environments below use this one: a
    recursive-descent decoder of JSON texts whose numbers are integers and
    whose strings use no [\u] escape; it answers [JSONDecodeError] on
    every other text. *)
Module Decoder.

Definition is_ws (c : ascii) : bool :=
  let n := N_of_ascii c in ((n =? 32) || (n =? 9) || (n =? 10) || (n =? 13))%N.

Fixpoint skip_ws (s : string) : string :=
  match s with
  | EmptyString => ""
  | String c s' => if is_ws c then skip_ws s' else s
  end.

Definition unescape (c : ascii) : option ascii :=
  let n := N_of_ascii c in
  if ((n =? 34) || (n =? 92) || (n =? 47))%N then Some c
  else if (n =? 110)%N then Some (ascii_of_N 10)
  else if (n =? 116)%N then Some (ascii_of_N 9)
  else if (n =? 114)%N then Some (ascii_of_N 13)
  else if (n =? 98)%N then Some (ascii_of_N 8)
  else if (n =? 102)%N then Some (ascii_of_N 12)
  else None.

(** After the opening quote: the decoded string and the rest. *)
Fixpoint string_body (s : string) : option (string * string) :=
  match s with
  | EmptyString => None
  | String c s' =>
      let n := N_of_ascii c in
      if (n =? 34)%N then Some ("", s')
      else if (n =? 92)%N then
        match s' with
        | String e s'' =>
            match unescape e, string_body s'' with
            | Some c', Some (body, rest) => Some (String c' body, rest)
            | _, _ => None
            end
        | EmptyString => None
        end
      else if (n <? 32)%N then None
      else match string_body s' with
           | Some (body, rest) => Some (String c body, rest)
           | None => None
           end
  end.

Fixpoint span_digits (s : string) : string * string :=
  match s with
  | String c s' =>
      if is_digit c then let '(ds, rest) := span_digits s' in (String c ds, rest)
      else ("", s)
  | EmptyString => ("", "")
  end.

(** An optional minus sign, then [0] or digits without a leading zero,
    not followed by a fraction or an exponent. *)
Definition integer (s : string) : option (json * string) :=
  let '(negative, s1) :=
    match s with String "-" s' => (true, s') | _ => (false, s) end in
  let '(ds, rest) := span_digits s1 in
  let well_formed :=
    match ds with
    | EmptyString => false
    | String "0" (String _ _) => false
    | _ => true
    end in
  let followed :=
    match rest with
    | String c _ => Ascii.eqb c "." || Ascii.eqb c "e" || Ascii.eqb c "E"
    | EmptyString => false
    end in
  if well_formed && negb followed then
    match digits 0 false ds with
    | Some n => Some (JInt (if negative then - n else n), rest)
    | None => None
    end
  else None.

Definition keyword (k : string) (v : json) (s : string) : option (json * string) :=
  if String.prefix k s then Some (v, String.substring (String.length k)
                                        (String.length s - String.length k) s)
  else None.

(** [d[k] = v]: a repeated key keeps its place and takes the new value. *)
Fixpoint dict_set (k : string) (v : json) (kvs : list (string * json))
  : list (string * json) :=
  match kvs with
  | [] => [(k, v)]
  | (k', v') :: rest =>
      if String.eqb k k' then (k', v) :: rest else (k', v') :: dict_set k v rest
  end.

Fixpoint value (fuel : nat) (s : string) : option (json * string) :=
  match fuel with
  | O => None
  | S fuel' =>
      match skip_ws s with
      | EmptyString => None
      | String c rest =>
          let n := N_of_ascii c in
          if (n =? 34)%N then
            match string_body rest with
            | Some (body, rest') => Some (JStr body, rest')
            | None => None
            end
          else if Ascii.eqb c "[" then
            match skip_ws rest with
            | String "]" rest' => Some (JArr [], rest')
            | _ => elements fuel' rest []
            end
          else if Ascii.eqb c "{" then
            match skip_ws rest with
            | String "}" rest' => Some (JObj [], rest')
            | _ => members fuel' rest []
            end
          else if Ascii.eqb c "n" then keyword "null" JNull (String c rest)
          else if Ascii.eqb c "t" then keyword "true" (JBool true) (String c rest)
          else if Ascii.eqb c "f" then keyword "false" (JBool false) (String c rest)
          else integer (String c rest)
      end
  end
with elements (fuel : nat) (s : string) (acc : list json) : option (json * string) :=
  match fuel with
  | O => None
  | S fuel' =>
      match value fuel' s with
      | Some (v, rest) =>
          match skip_ws rest with
          | String "," rest' => elements fuel' rest' (acc ++ [v])
          | String "]" rest' => Some (JArr (acc ++ [v]), rest')
          | _ => None
          end
      | None => None
      end
  end
with members (fuel : nat) (s : string) (acc : list (string * json))
  : option (json * string) :=
  match fuel with
  | O => None
  | S fuel' =>
      match skip_ws s with
      | String c rest =>
          if (N_of_ascii c =? 34)%N then
            match string_body rest with
            | Some (k, rest1) =>
                match skip_ws rest1 with
                | String ":" rest2 =>
                    match value fuel' rest2 with
                    | Some (v, rest3) =>
                        match skip_ws rest3 with
                        | String "," rest4 => members fuel' rest4 (dict_set k v acc)
                        | String "}" rest4 => Some (JObj (dict_set k v acc), rest4)
                        | _ => None
                        end
                    | None => None
                    end
                | _ => None
                end
            | None => None
            end
          else None
      | EmptyString => None
      end
  end.

Definition json_loads_basic (text : string) : loads_result :=
  match value (2 * String.length text + 2)%nat text with
  | Some (v, rest) =>
      match skip_ws rest with
      | EmptyString => Loaded v
      | _ => JSONDecodeError "Extra data"
      end
  | None => JSONDecodeError "Expecting value"
  end.

End Decoder.

(* ===================================================================== *)
(** ** [src/bot/bot.py]                                                   *)
(* ===================================================================== *)

Module Bot.

(** The states of the conversation, and [ConversationHandler.END]. *)
Definition MENU : Z := 0.
Definition ANALYZE_CHANNEL : Z := 1.
Definition GENERATE_CONTENT_PLAN : Z := 2.
Definition ANALYZE_POST : Z := 3.
Definition CREATE_SURVEY : Z := 4.
Definition WAITING_FOR_CONFIRMATION : Z := 5.
Definition END : Z := -1.

(** [await update.message.reply_text(text, ...)]: the text is recorded.
    A send is taken to go through: what the Bot API may refuse at a send
    is outside this model, and the statements about replies are about the
    texts the bot sends. *)
Definition reply_text (text : string) : M unit :=
  modify (fun w => set_sent (sent w ++ [text]) w).

(** [context.user_data[key] = value] for the three keys. *)
Definition store_channel_username (name : string) : M unit :=
  modify (fun w =>
    set_user_data (Build_UserData (Some name) (ud_post_id (user_data w))
                                  (ud_pending_action (user_data w))) w).

Definition store_post_id (id : Z) : M unit :=
  modify (fun w =>
    set_user_data (Build_UserData (ud_channel_username (user_data w)) (Some id)
                                  (ud_pending_action (user_data w))) w).

Definition store_pending_action (action : string) : M unit :=
  modify (fun w =>
    set_user_data (Build_UserData (ud_channel_username (user_data w))
                                  (ud_post_id (user_data w)) (Some action)) w).

(** What an f-string prints for a value; [str()] of a list or of a dict
    is left to the environment. *)
Definition format (j : json) : M string :=
  match j with
  | JStr s => ret s
  | JInt n => ret (pretty n)
  | JBool b => ret (if b then "True" else "False")
  | JNull => ret "None"
  | JFloat r => ret r
  | _ => asks (fun env => py_str env j)
  end.

Definition nl : string := newline.

Definition menu_command : M Z :=
  reply_text "Выберите действие:" ;;;
  ret MENU.

Definition analyze_channel : M Z :=
  reply_text "Пожалуйста, введите username канала для анализа (например, @channel_name):" ;;;
  ret ANALYZE_CHANNEL.

(** [text.strip()], without a leading ['@']. *)
Definition normalize_username (text : string) : string :=
  let channel_username := strip text in
  if startswith "@" channel_username then drop_first channel_username
  else channel_username.

Definition process_channel_analysis (text : string) : M Z :=
  let channel_username := normalize_username text in
  store_channel_username channel_username ;;;
  reply_text ("Вы хотите проанализировать канал @" +:+ channel_username +:+ "?") ;;;
  store_pending_action "analyze_channel" ;;;
  ret WAITING_FOR_CONFIRMATION.

Definition generate_content_plan : M Z :=
  reply_text "Пожалуйста, введите username канала для генерации контент-плана (например, @channel_name):" ;;;
  ret GENERATE_CONTENT_PLAN.

Definition process_content_plan (text : string) : M Z :=
  let channel_username := normalize_username text in
  store_channel_username channel_username ;;;
  reply_text ("Вы хотите сгенерировать контент-план для канала @" +:+ channel_username +:+ "?") ;;;
  store_pending_action "generate_content_plan" ;;;
  ret WAITING_FOR_CONFIRMATION.

Definition analyze_post : M Z :=
  reply_text "Пожалуйста, введите ID поста для анализа (например, 123):" ;;;
  ret ANALYZE_POST.

Definition process_post_analysis (text : string) : M Z :=
  match int (strip text) with
  | None =>
      reply_text "Неверный формат ID поста. Пожалуйста, введите число." ;;;
      ret ANALYZE_POST
  | Some post_id =>
      store_post_id post_id ;;;
      reply_text ("Вы хотите проанализировать пост с ID " +:+ pretty post_id +:+ "?") ;;;
      store_pending_action "analyze_post" ;;;
      ret WAITING_FOR_CONFIRMATION
  end.

Definition create_survey : M Z :=
  reply_text "Пожалуйста, введите username канала для создания опроса (например, @channel_name):" ;;;
  ret CREATE_SURVEY.

Definition process_survey_creation (text : string) : M Z :=
  let channel_username := normalize_username text in
  store_channel_username channel_username ;;;
  reply_text ("Вы хотите создать опрос для аудитории канала @" +:+ channel_username +:+ "?") ;;;
  store_pending_action "create_survey" ;;;
  ret WAITING_FOR_CONFIRMATION.

(** What a [_perform_*] method returns: [{"error": ...}] or
    [{"message": ...}]. *)
Inductive PerformResult :=
| PError (error : json)
| PMessage (message : string).

Definition missing_channel : PerformResult := PError (JStr "Не указано имя канала").

(** [if "error" in result: return {"error": result["error"]}], else the
    summary [build] makes of the result. *)
Definition report (result : json) (build : M string) : M PerformResult :=
  has_error <- lift (contains "error" result) ;;
  if has_error then
    error <- lift (getitem result "error") ;;
    ret (PError error)
  else
    message <- build ;;
    ret (PMessage message).

Definition handler (e : exn) : M PerformResult := ret (PError (JStr (str_exn e))).

Definition _perform_channel_analysis : M PerformResult :=
  try_except
    (ud <- gets user_data ;;
     match ud_channel_username ud with
     | None => ret missing_channel
     | Some channel_username =>
         if String.eqb channel_username "" then ret missing_channel
         else
           let channel_id := 1 in
           result <- with_session (LLMService.analyze_channel_content channel_id) ;;
           report result (
             topics <- lift (get result "main_topics" (JArr [])) ;;
             main_topics <- lift (join ", " topics) ;;
             top_posts <- lift (get result "top_posts" (JArr [])) ;;
             top_posts_count <- lift (len top_posts) ;;
             sentiment <- lift (get result "audience_sentiment" (JStr "")) ;;
             ideas <- lift (get result "content_ideas" (JArr [])) ;;
             ideas_count <- lift (len ideas) ;;
             sentiment_text <- format sentiment ;;
             ret ("Анализ канала @" +:+ channel_username +:+ " завершен!" +:+ nl +:+ nl
                  +:+ "Основные темы: " +:+ main_topics +:+ nl
                  +:+ "Выявлено " +:+ pretty top_posts_count
                  +:+ " постов с наибольшим вовлечением" +:+ nl
                  +:+ "Настроение аудитории: " +:+ sentiment_text +:+ nl
                  +:+ "Создано " +:+ pretty ideas_count
                  +:+ " идей для новых постов" +:+ nl +:+ nl
                  +:+ "Полные результаты доступны в веб-интерфейсе."))
     end)
    handler.

(** [message += f"• День {i+1}: {day_data.get('title')}\n"] over the
    enumerated days. *)
Fixpoint day_lines (i : Z) (days : list (string * json)) : M string :=
  match days with
  | [] => ret ""
  | (day_key, day_data) :: rest =>
      title <- lift (get day_data "title" JNull) ;;
      title_text <- format title ;;
      lines <- day_lines (i + 1) rest ;;
      ret ("• День " +:+ pretty (i + 1) +:+ ": " +:+ title_text +:+ nl +:+ lines)
  end.

Definition _perform_content_plan_generation : M PerformResult :=
  try_except
    (ud <- gets user_data ;;
     match ud_channel_username ud with
     | None => ret missing_channel
     | Some channel_username =>
         if String.eqb channel_username "" then ret missing_channel
         else
           let channel_id := 1 in
           result <- with_session (LLMService.generate_content_plan channel_id 7) ;;
           report result (
             plan_data <- lift (get result "content_plan" (JObj [])) ;;
             days_count <- lift (len plan_data) ;;
             days <- lift (items plan_data) ;;
             lines <- day_lines 0 (take 3 days) ;;
             ret ("Контент-план для канала @" +:+ channel_username +:+ " на "
                  +:+ pretty days_count +:+ " дней создан!" +:+ nl +:+ nl
                  +:+ "Примеры тем:" +:+ nl
                  +:+ lines
                  +:+ nl +:+ "Полный контент-план доступен в веб-интерфейсе."))
     end)
    handler.

(** [message += f"• {x}\n"] for the items of a list. *)
Fixpoint bullet_lines (xs : list json) : M string :=
  match xs with
  | [] => ret ""
  | x :: rest =>
      text <- format x ;;
      lines <- bullet_lines rest ;;
      ret ("• " +:+ text +:+ nl +:+ lines)
  end.

Definition _perform_post_analysis : M PerformResult :=
  try_except
    (ud <- gets user_data ;;
     match ud_post_id ud with
     | None => ret (PError (JStr "Не указан ID поста"))
     | Some post_id =>
         if post_id =? 0 then ret (PError (JStr "Не указан ID поста"))
         else
           result <- with_session (LLMService.analyze_post_performance post_id) ;;
           report result (
             engagement <- lift (get result "engagement_level" (JStr "")) ;;
             sentiment <- lift (get result "comments_sentiment" (JStr "")) ;;
             pros_and_cons <- lift (get result "pros_and_cons" (JObj [])) ;;
             pros <- lift (get pros_and_cons "pros" (JArr [])) ;;
             pros_and_cons <- lift (get result "pros_and_cons" (JObj [])) ;;
             cons <- lift (get pros_and_cons "cons" (JArr [])) ;;
             engagement_text <- format engagement ;;
             sentiment_text <- format sentiment ;;
             first_pros <- lift (first3 pros) ;;
             first_pros <- lift (iterate first_pros) ;;
             pro_lines <- bullet_lines first_pros ;;
             first_cons <- lift (first3 cons) ;;
             first_cons <- lift (iterate first_cons) ;;
             con_lines <- bullet_lines first_cons ;;
             ret ("Анализ поста ID " +:+ pretty post_id +:+ " завершен!" +:+ nl +:+ nl
                  +:+ "Уровень вовлечения: " +:+ engagement_text +:+ nl
                  +:+ "Тональность комментариев: " +:+ sentiment_text +:+ nl +:+ nl
                  +:+ "Сильные стороны:" +:+ nl
                  +:+ pro_lines
                  +:+ nl +:+ "Слабые стороны:" +:+ nl
                  +:+ con_lines
                  +:+ nl +:+ "Полные результаты анализа доступны в веб-интерфейсе."))
     end)
    handler.

(** [message += f"• {question.get('question_text')}\n"] *)
Fixpoint question_lines (questions : list json) : M string :=
  match questions with
  | [] => ret ""
  | question :: rest =>
      question_text <- lift (get question "question_text" JNull) ;;
      text <- format question_text ;;
      lines <- question_lines rest ;;
      ret ("• " +:+ text +:+ nl +:+ lines)
  end.

Definition _perform_survey_creation : M PerformResult :=
  try_except
    (ud <- gets user_data ;;
     match ud_channel_username ud with
     | None => ret missing_channel
     | Some channel_username =>
         if String.eqb channel_username "" then ret missing_channel
         else
           let channel_id := 1 in
           result <- with_session (LLMService.generate_survey channel_id) ;;
           report result (
             survey_data <- lift (get result "survey" (JObj [])) ;;
             questions <- lift (get survey_data "questions" (JArr [])) ;;
             questions_count <- lift (len questions) ;;
             title <- lift (get survey_data "title" JNull) ;;
             title_text <- format title ;;
             questions <- lift (get survey_data "questions" (JArr [])) ;;
             first_questions <- lift (first3 questions) ;;
             first_questions <- lift (iterate first_questions) ;;
             lines <- question_lines first_questions ;;
             ret ("Опрос для аудитории канала @" +:+ channel_username +:+ " создан!"
                  +:+ nl +:+ nl
                  +:+ "Название: " +:+ title_text +:+ nl
                  +:+ "Количество вопросов: " +:+ pretty questions_count +:+ nl +:+ nl
                  +:+ "Примеры вопросов:" +:+ nl
                  +:+ lines
                  +:+ nl +:+ "Опрос доступен в веб-интерфейсе и готов к публикации."))
     end)
    handler.

Definition confirm_action : M Z :=
  ud <- gets user_data ;;
  let action := default "" (ud_pending_action ud) in
  if String.eqb action "" then
    reply_text "Произошла ошибка. Пожалуйста, начните заново." ;;;
    ret END
  else
    reply_text "Выполняю запрос... Это может занять некоторое время." ;;;
    result <-
      (if String.eqb action "analyze_channel" then _perform_channel_analysis
       else if String.eqb action "generate_content_plan" then
         _perform_content_plan_generation
       else if String.eqb action "analyze_post" then _perform_post_analysis
       else if String.eqb action "create_survey" then _perform_survey_creation
       else ret (PError (JStr "Неизвестное действие"))) ;;
    match result with
    | PError error =>
        text <- format error ;;
        reply_text ("Произошла ошибка: " +:+ text +:+ nl +:+ nl
                    +:+ "Пожалуйста, попробуйте еще раз или свяжитесь с администратором.")
    | PMessage message =>
        reply_text ("Задача выполнена успешно!" +:+ nl +:+ nl +:+ message)
    end ;;;
    ret END.

Definition cancel_action : M Z :=
  reply_text "Действие отменено." ;;;
  ret END.

Definition cancel : M Z :=
  reply_text "Операция отменена." ;;;
  ret END.

(** *** The [ConversationHandler] of [_setup_handlers] *)

(** An incoming update that carries a text: a new message or an edited
    one; a bot command (its name, without the slash) or a text that is
    not one.  The handlers and their filters look at
    [update.effective_message], which is the message either way. *)
Inductive Update :=
| Command (name : string)
| Text (text : string)
| EditedCommand (name : string)
| EditedText (text : string).

Definition is_edited (u : Update) : bool :=
  match u with
  | EditedCommand _ | EditedText _ => true
  | Command _ | Text _ => false
  end.

(** The command of the effective message, as [CommandHandler] compares
    it: in lower case. *)
Definition command_of (u : Update) : option string :=
  match u with
  | Command name | EditedCommand name => Some (lower name)
  | Text _ | EditedText _ => None
  end.

(** The text of the effective message, when it is no command. *)
Definition text_of (u : Update) : option string :=
  match u with
  | Text text | EditedText text => Some text
  | Command _ | EditedCommand _ => None
  end.

(** The handlers above are the bodies of the callbacks for an update
    whose [update.message] is the message.  On an edited message
    [update.message] is [None], and every callback starts by reading an
    attribute of it, before it stores or sends anything:
    [update.message.text] in the four [process_*] callbacks,
    [update.message.reply_text] in the others. *)
Definition on_message {A} (u : Update) (attribute : string) (body : M A) : M A :=
  if is_edited u then
    raise (Exn "AttributeError"
               ("'NoneType' object has no attribute '" +:+ attribute +:+ "'"))
  else body.

(** [filters.Regex("^word$")]: [re.search] also lets [$] stand before a
    final newline. *)
Definition regex_exact (word text : string) : bool :=
  String.eqb text word || String.eqb text (word +:+ nl).

(** The handler a state runs on a text, if any. *)
Definition state_handler (state : Z) (text : string) : option (M Z) :=
  if state =? MENU then
    if regex_exact "Анализ канала" text then Some analyze_channel
    else if regex_exact "Генерация контент-плана" text then Some generate_content_plan
    else if regex_exact "Анализ поста" text then Some analyze_post
    else if regex_exact "Создать опрос" text then Some create_survey
    else None
  else if state =? ANALYZE_CHANNEL then Some (process_channel_analysis text)
  else if state =? GENERATE_CONTENT_PLAN then Some (process_content_plan text)
  else if state =? ANALYZE_POST then Some (process_post_analysis text)
  else if state =? CREATE_SURVEY then Some (process_survey_creation text)
  else if state =? WAITING_FOR_CONFIRMATION then
    if regex_exact "Да" text then Some confirm_action
    else if regex_exact "Нет" text then Some cancel_action
    else None
  else None.

(** What the handlers of a state read first of [update.message]. *)
Definition first_read (state : Z) : string :=
  if (ANALYZE_CHANNEL <=? state) && (state <=? CREATE_SURVEY) then "text"
  else "reply_text".

(** The conversation after a handler returned [state]: [None] once it
    has ended. *)
Definition next_state (state : Z) : option Z :=
  if state =? END then None else Some state.

(** One update through the conversation handler: the entry point
    [/menu] when no conversation is running; otherwise the handlers of
    the current state, then the fallback [/cancel]; an update nothing
    matches leaves the conversation where it is, and so does one whose
    handler raises. *)
Definition handle_update (conversation : option Z) (u : Update) : M (option Z) :=
  match conversation with
  | None =>
      match command_of u with
      | Some name =>
          if String.eqb name "menu" then
            state <- on_message u "reply_text" menu_command ;; ret (next_state state)
          else ret None
      | None => ret None
      end
  | Some state =>
      match text_of u, command_of u with
      | Some text, _ =>
          match state_handler state text with
          | Some h => state' <- on_message u (first_read state) h ;; ret (next_state state')
          | None => ret (Some state)
          end
      | None, Some name =>
          if String.eqb name "cancel" then
            state' <- on_message u "reply_text" cancel ;; ret (next_state state')
          else ret (Some state)
      | None, None => ret (Some state)
      end
  end.

(** A sequence of updates, from a given conversation state. *)
Fixpoint handle_updates (conversation : option Z) (us : list Update) : M (option Z) :=
  match us with
  | [] => ret conversation
  | u :: rest =>
      conversation' <- handle_update conversation u ;;
      handle_updates conversation' rest
  end.

(** *** The application of [_setup_handlers] *)

Definition start_text : string := "Привет! Я бот для аналитики Telegram-каналов.

Я могу помочь анализировать контент, генерировать идеи для постов и создавать опросы для вашей аудитории.

Введите /menu, чтобы увидеть доступные команды.".

Definition start_command : M Z :=
  reply_text start_text ;;;
  ret END.

Definition help_text : string := "Доступные команды:

/start - Начать работу с ботом
/menu - Открыть меню с функциями
/help - Показать это сообщение
/cancel - Отменить текущую операцию

Через меню вы можете:
- Анализировать контент канала
- Генерировать контент-план
- Анализировать отдельные посты
- Создавать опросы для аудитории
".

Definition help_command : M Z :=
  reply_text help_text ;;;
  ret END.

Definition unknown_command : M unit :=
  reply_text "Извините, я не знаю такой команды. Используйте /help, чтобы увидеть список доступных команд.".

(** [error_handler]: the error is logged, and an update that carries a
    message is answered. *)
Definition error_handler (update : option Update) : M unit :=
  match update with
  | Some _ =>
      reply_text "Произошла ошибка при обработке запроса. Пожалуйста, попробуйте позже."
  | None => ret tt
  end.

(** Whether the conversation handler takes the update: with no
    conversation running, its entry point; in a state, a handler of the
    state or the fallback. *)
Definition check_update (conversation : option Z) (u : Update) : bool :=
  match conversation, text_of u, command_of u with
  | None, _, Some name => String.eqb name "menu"
  | Some state, Some text, _ => bool_decide (is_Some (state_handler state text))
  | Some state, None, Some name => String.eqb name "cancel"
  | _, _, _ => false
  end.

(** The handlers are in one group, in the order they were added, and the
    first one that matches takes the update: [/start], [/help], the
    conversation handler, then [unknown_command] for every other command.
    What [start_command] and [help_command] return is dropped: they are
    not handlers of the conversation. *)
Definition dispatch (conversation : option Z) (u : Update) : M (option Z) :=
  match command_of u with
  | Some name =>
      if String.eqb name "start" then
        on_message u "reply_text" start_command ;;; ret conversation
      else if String.eqb name "help" then
        on_message u "reply_text" help_command ;;; ret conversation
      else if check_update conversation u then handle_update conversation u
      else on_message u "reply_text" unknown_command ;;; ret conversation
  | None =>
      if check_update conversation u then handle_update conversation u
      else ret conversation
  end.

(** One update through the application: an exception of its handler goes
    to [error_handler], and the conversation stays where it was. *)
Definition process_update (conversation : option Z) (u : Update) : M (option Z) :=
  try_except (dispatch conversation u)
             (fun e => error_handler (Some u) ;;; ret conversation).

Fixpoint process_updates (conversation : option Z) (us : list Update) : M (option Z) :=
  match us with
  | [] => ret conversation
  | u :: rest =>
      conversation' <- process_update conversation u ;;
      process_updates conversation' rest
  end.

End Bot.

(* ===================================================================== *)
(** ** [src/database/db.py]                                               *)
(* ===================================================================== *)

Module Db.

(** [get_db], the dependency of the routes: a session of its own for
    the request, closed when the request is over. *)
Definition get_db {A} (route : M A) : M A := with_session route.

End Db.

(* ===================================================================== *)
(** ** [src/api/routes.py]                                                *)
(* ===================================================================== *)

(** Routes that read the stored tables and routes that run an operation
    of the orchestrator.  A route returns a value, raises an
    [HTTPException], or lets another exception through; the first two are
    the two sides of the sum a route returns here, the third is an
    exception of [M].  The values are those the function returns, before
    the framework serialises them. *)
Module Routes.

(** [HTTPException(status_code, detail)]: the detail is a text, or
    whatever an operation returned under "error". *)
Record HTTPException := { status_code : Z; detail : json }.

Definition raise_http {A} (status_code : Z) (detail : json) : M (HTTPException + A) :=
  ret (inl (Build_HTTPException status_code detail)).

(** [f"{what} with ID {id} not found"], with status 404. *)
Definition not_found {A} (what : string) (id : Z) : M (HTTPException + A) :=
  raise_http 404 (JStr (what +:+ " with ID " +:+ pretty id +:+ " not found")).

(** [.offset(offset).limit(limit)], as SQLite (the default
    [DATABASE_URL]) reads them: a negative offset skips nothing, a
    negative limit is no limit. *)
Definition page {A} (offset limit : Z) (rows : list A) : list A :=
  let rest := drop (Z.to_nat offset) rows in
  if limit <? 0 then rest else take (Z.to_nat limit) rest.

Definition select_channel (channel_id : Z) (d : Db) : option Channel :=
  List.find (fun c => bool_decide (Models.channel_id c = Some channel_id)) (channels d).

Definition select_channel_posts (channel_id limit offset : Z) (d : Db) : list Post :=
  page offset limit
    (sort_desc (fun p => timestamp (post_posted_at p))
       (List.filter (fun p => post_channel_id p =? channel_id) (posts d))).

Definition get_channel (channel_id : Z) : M (HTTPException + Channel) :=
  channel <- query (select_channel channel_id) ;;
  match channel with
  | None => not_found "Channel" channel_id
  | Some channel => ret (inr channel)
  end.

(** The lists come with their length under "total". *)
Definition get_channel_posts (channel_id limit offset : Z)
  : M (HTTPException + (list Post * Z)) :=
  posts <- query (select_channel_posts channel_id limit offset) ;;
  ret (inr (posts, Z.of_nat (length posts))).

Definition get_post (post_id : Z)
  : M (HTTPException + (Post * list Models.Comment * list Reaction)) :=
  post <- query (LLMService.select_post post_id) ;;
  match post with
  | None => not_found "Post" post_id
  | Some post =>
      comments <- query (LLMService.select_comments (Some post_id)) ;;
      reactions <- query (LLMService.select_reactions (Some post_id)) ;;
      ret (inr (post, comments, reactions))
  end.

Section Guarded.

(** [str(e)] for an [HTTPException]: the web framework's. *)
Context (http_str : HTTPException -> string).

(** [try: body  except Exception as e: raise HTTPException(500, str(e))]:
    an [HTTPException] raised in [body] is an [Exception] too. *)
Definition guarded {A} (body : M (HTTPException + A)) : M (HTTPException + A) :=
  fun env w =>
    match body env w with
    | (Returned (inr a), w') => (Returned (inr a), w')
    | (Returned (inl e), w') =>
        (Returned (inl (Build_HTTPException 500 (JStr (http_str e)))), w')
    | (Raised e, w') =>
        (Returned (inl (Build_HTTPException 500 (JStr (str_exn e)))), w')
    end.

(** [if "error" in result: raise HTTPException(500, result["error"])],
    else the answer made of the result. *)
Definition or_error (result : json) (answer : M json) : M (HTTPException + json) :=
  has_error <- lift (contains "error" result) ;;
  if has_error then
    error <- lift (getitem result "error") ;;
    raise_http 500 error
  else
    value <- answer ;;
    ret (inr value).

Definition analyze_channel (channel_id : Z) : M (HTTPException + json) :=
  guarded (
    channel <- query (select_channel channel_id) ;;
    match channel with
    | None => not_found "Channel" channel_id
    | Some _ =>
        result <- LLMService.analyze_channel_content channel_id ;;
        or_error result (ret (JObj [("success", JBool true); ("analysis", result)]))
    end).

Definition analyze_post (post_id : Z) : M (HTTPException + json) :=
  guarded (
    post <- query (LLMService.select_post post_id) ;;
    match post with
    | None => not_found "Post" post_id
    | Some _ =>
        result <- LLMService.analyze_post_performance post_id ;;
        or_error result (ret (JObj [("success", JBool true); ("analysis", result)]))
    end).

Definition create_survey (channel_id : Z) : M (HTTPException + json) :=
  guarded (
    channel <- query (select_channel channel_id) ;;
    match channel with
    | None => not_found "Channel" channel_id
    | Some _ =>
        result <- LLMService.generate_survey channel_id ;;
        or_error result (
          survey <- lift (getitem result "survey") ;;
          ret (JObj [("success", JBool true); ("survey", survey)]))
    end).

End Guarded.

End Routes.

(* ===================================================================== *)
(** ** [src/api/server.py]                                                *)
(* ===================================================================== *)

Module Server.

(** What the client receives: the value a route returned, the detail of
    an [HTTPException], or the message of [global_exception_handler]. *)
Inductive Body (A : Type) : Type :=
| Content (value : A)
| Detail (detail : json)
| InternalServerError (message : string).
Arguments Content {A} value.
Arguments Detail {A} detail.
Arguments InternalServerError {A} message.

Record Response (A : Type) := { status : Z; body : Body A }.
Arguments Build_Response {A} status body.
Arguments status {A} r.
Arguments body {A} r.

(** A request through the application, [route] being the route with
    its dependencies: a returned value is answered with status 200, an
    [HTTPException] with its status and [{"detail": detail}], and any
    other exception, by [global_exception_handler], with status 500 and
    [{"detail": "Internal server error", "message": str(exc)}]. *)
Definition respond {A} (route : M (Routes.HTTPException + A)) : M (Response A) :=
  try_except
    (answer <- route ;;
     match answer with
     | inr value => ret (Build_Response 200 (Content value))
     | inl e => ret (Build_Response (Routes.status_code e) (Detail (Routes.detail e)))
     end)
    (fun exc => ret (Build_Response 500 (InternalServerError (str_exn exc)))).

End Server.

(* ===================================================================== *)
(** ** Vocabulary of the statements                                       *)
(* ===================================================================== *)

(** *** Runs *)

(** The run of [m] leaves the component [f] of the world as it was,
    whether it returns or raises. *)
Definition preserves {A B} (f : World -> B) (m : M A) : Prop :=
  forall env w, f (snd (m env w)) = f w.

(** If [I] holds before [m] it holds after, whether [m] returns or
    raises. *)
Definition maintains {A} (I : World -> Prop) (m : M A) : Prop :=
  forall env w, I w -> I (snd (m env w)).

(** In an environment that satisfies [P], [m] returns: it does not raise. *)
Definition returns {A} (P : Env -> Prop) (m : M A) : Prop :=
  forall env w, P env -> exists a w', m env w = (Returned a, w').

(** The component [f] does not see what the setter [set] writes; writing
    with [set] keeps [I]. *)
Class Ignores {B C} (f : World -> B) (set : C -> World -> World) : Prop :=
  ignores : forall c w, f (set c w) = f w.

Class Stable {C} (I : World -> Prop) (set : C -> World -> World) : Prop :=
  stable : forall c w, I w -> I (set c w).

(** What a run returned, if it did. *)
Definition fst_returned {A} (run : outcome A * World) : option A :=
  match fst run with Returned a => Some a | Raised _ => None end.

(** The world after a query that was answered: one step later. *)
Definition after_query (w : World) : World := set_tick (S (tick w)) w.

(** [m] raises [e]. *)
Definition raises {A} (e : exn) (m : M A) (env : Env) (w : World) : Prop :=
  exists w', m env w = (Raised e, w').

(** *** The environment *)

(** The storage engine answers every query; every commit goes through. *)
Definition queries_sound (env : Env) : Prop :=
  forall n, query_fault env n = None.

Definition commits_sound (env : Env) : Prop :=
  forall n, commit_fault env n = None.

(** The model answers [text] to the request made at step [n], or to
    every request; the provider fails every request with [e]. *)
Definition answers (env : Env) (n : nat) (request : ChatRequest) (text : string) : Prop :=
  chat_completion env n request = Returned text.

Definition model_answers (env : Env) (text : string) : Prop :=
  forall n request, chat_completion env n request = Returned text.

Definition provider_fails (env : Env) (e : exn) : Prop :=
  forall n request, chat_completion env n request = Raised e.

(** Every commit fails with [e]. *)
Definition commits_fail (env : Env) (e : exn) : Prop :=
  forall n, commit_fault env n = Some e.

(** The dictionary has the key "error". *)
Definition has_error (d : json) : Prop := contains "error" d = Returned true.


(** *** Texts *)

(** A text of blanks, and a text without blanks. *)
Definition blank (s : string) : Prop :=
  Forall (fun c => is_space c = true) (list_ascii_of_string s).

Definition no_space (s : string) : Prop :=
  Forall (fun c => is_space c = false) (list_ascii_of_string s).

(** The characters of a decimal numeral: digits, after a possible minus
    sign; and an ASCII character that no integer literal holds (beyond
    ASCII, [int] and [strip] also know the digits and the blanks of other
    scripts, which this development reads as ordinary characters). *)
Definition numeral_char (c : ascii) : Prop := is_digit c = true \/ c = "-"%char.

Definition foreign (c : ascii) : Prop :=
  (N_of_ascii c < 128)%N
  /\ is_digit c = false /\ is_space c = false
  /\ c <> "_"%char /\ c <> "-"%char /\ c <> "+"%char.

(** The name of a command of the Bot API: Latin letters, digits and
    underscores. *)
Definition command_char (c : ascii) : bool :=
  let n := N_of_ascii c in
  ((48 <=? n) && (n <=? 57) || (65 <=? n) && (n <=? 90)
   || (97 <=? n) && (n <=? 122) || (n =? 95))%N.

Definition command_name (name : string) : Prop :=
  Forall (fun c => command_char c = true) (list_ascii_of_string name).

(** *** The orchestrator *)

(** The channel has no stored post. *)
Definition no_posts (channel_id : Z) (d : Db) : Prop :=
  Forall (fun p => post_channel_id p <> channel_id) (posts d).

(** The latest stored channel analysis, if there is one, decodes. *)
Definition stored_analysis_decodes (env : Env) (channel_id : Z) (w : World) : Prop :=
  forall a, LLMService.select_latest_analysis channel_id (store w) = Some a ->
            exists j, json_loads env (analysis_content a) = Loaded j.

(** The requests the two dependent operations send for [analysis_data]. *)
Definition plan_request (analysis_data : json) (days : Z) : ChatRequest :=
  {| chat_model := LLMService.model;
     chat_system := LLMService.plan_system;
     chat_user := LLMService.plan_prompt analysis_data days;
     chat_temperature := "0.7";
     chat_max_tokens := 2500 |}.

Definition survey_request (analysis_data : json) : ChatRequest :=
  {| chat_model := LLMService.model;
     chat_system := LLMService.survey_system;
     chat_user := LLMService.survey_prompt analysis_data;
     chat_temperature := "0.5";
     chat_max_tokens := 2000 |}.

(** The row a commit stores for a pending analysis. *)
Definition stored_analysis (a : Analysis) (d : Db) (now : datetime) : Analysis :=
  Build_Analysis (Some (1 + max_id (List.map analysis_id (analyses d))))
                 (analysis_channel_id a) (analysis_post_id a) (analysis_type a)
                 (analysis_content a) (Some now).

(** A session that holds pending analyses only, over given stored plans. *)
Definition is_analysis (r : Row) : Prop :=
  match r with RAnalysis _ => True | _ => False end.

Definition keeps_plans (plans : list ContentPlan) (w : World) : Prop :=
  Forall is_analysis (session w) /\ content_plans (store w) = plans.

(** All the tables but [analyses]; a session that holds pending analyses
    only, over tables that are those of [d0] but for [analyses]. *)
Definition other_tables (d : Db) : Db := with_analyses [] d.

Definition keeps_tables (d0 : Db) (w : World) : Prop :=
  Forall is_analysis (session w) /\ other_tables (store w) = other_tables d0.


(** [delta] days from [today] is a date of the calendar, from the first
    day of the year 1 to the last day of the year 9999, and [delta] is a
    number of days a [timedelta] holds. *)
Definition representable (today : datetime) (delta : Z) : Prop :=
  Z.abs delta <= 999999999 /\ 1 <= toordinal today + delta <= 3652059.

(** An entry of a plan as the prompt asks for it, at the day [today]: its
    key is a text without underscore, an underscore and the decimal
    numeral of a day number [n], with [today + (n - 1)] days a date of the
    calendar; its value is an object whose title and description are
    texts. *)
Definition day_entry (today : datetime) (kv : string * json) : Prop :=
  exists prefix n fields title description,
    ("_"%char ∉ list_ascii_of_string prefix)
    /\ fst kv = prefix +:+ "_" +:+ pretty n
    /\ representable today (n - 1)
    /\ snd kv = JObj fields
    /\ assoc "title" fields = Some (JStr title)
    /\ assoc "description" fields = Some (JStr description).

(** The stored row [s] is the row of the entry [kv] of a plan made at
    [today] for [channel_id]: planned [n - 1] days after [today] when the
    key names the day [n], a draft, with the title and the description of
    the entry, and the entry encoded as its content. *)
Definition row_of_day (channel_id : Z) (today : datetime) (kv : string * json)
    (s : ContentPlan) : Prop :=
  exists prefix n fields title description,
    ("_"%char ∉ list_ascii_of_string prefix)
    /\ fst kv = prefix +:+ "_" +:+ pretty n
    /\ add_days today (n - 1) = Returned (plan_planned_date s)
    /\ snd kv = JObj fields
    /\ assoc "title" fields = Some (JStr title)
    /\ assoc "description" fields = Some (JStr description)
    /\ plan_title s = JStr title
    /\ plan_description s = JStr description
    /\ plan_content s = json_dumps (snd kv)
    /\ plan_channel_id s = channel_id
    /\ plan_status s = "draft".

(** *** The boundary of the operations *)

(** The dictionary [{"error": str(e)}]. *)
Definition error_of (e : exn) : json := JObj [("error", JStr (exn_msg e))].

(** Of the queries made from the step [t] on, the first one the storage
    engine fails is the one at [t + k], and it fails with [e]. *)
Definition first_fault (env : Env) (t k : nat) (e : exn) : Prop :=
  (forall i, (i < k)%nat -> query_fault env (t + i) = None)
  /\ query_fault env (t + k) = Some e.

(** The number of queries an operation makes to gather its input, before
    its guarded block: for a channel analysis, the posts, then the
    comments and the reactions of each; for a post analysis, the post,
    then its comments and its reactions; for a plan or a survey, the
    latest analysis, then those of a channel analysis when there is
    none. *)
Definition channel_queries (c : Z) (d : Db) : nat :=
  (1 + 2 * length (LLMService.select_posts c d))%nat.

Definition post_queries (p : Z) (d : Db) : nat :=
  match LLMService.select_post p d with Some _ => 3%nat | None => 1%nat end.

Definition dependent_queries (c : Z) (d : Db) : nat :=
  match LLMService.select_latest_analysis c d with
  | Some _ => 1%nat
  | None => (1 + channel_queries c d)%nat
  end.

(** Decoding [text] raises [e]: a [JSONDecodeError], or another
    exception of the decoder. *)
Definition undecoded (env : Env) (text : string) (e : exn) : Prop :=
  json_loads env text = LoadsRaised e
  \/ exists msg, json_loads env text = JSONDecodeError msg /\ e = Exn "JSONDecodeError" msg.

(** Reading the keys of [j] in turn, the first one that cannot be read
    raises [e]; and all the keys can be read. *)
Fixpoint first_missing (j : json) (keys : list string) (e : exn) : Prop :=
  match keys with
  | [] => False
  | k :: rest =>
      getitem j k = Raised e
      \/ (exists v, getitem j k = Returned v) /\ first_missing j rest e
  end.

Definition has_keys (j : json) (keys : list string) : Prop :=
  Forall (fun k => exists v, getitem j k = Returned v) keys.

(** An entry of a plan that cannot be read, and the exception it gives:
    its key has no second part, or its key is that of a day and its value
    lacks the title or the description. *)
Definition unreadable_day (today : datetime) (kv : string * json) (e : exn) : Prop :=
  index (split "_" (fst kv)) 1 = Raised e
  \/ exists prefix n,
       ("_"%char ∉ list_ascii_of_string prefix)
       /\ fst kv = prefix +:+ "_" +:+ pretty n
       /\ representable today (n - 1)
       /\ first_missing (snd kv) ["title"; "description"] e.

(** What can fail inside the guarded block of an operation, with the
    model answering [result] to every request: the decoder raises [e]; the
    answer decodes, is accepted, and every commit fails with [e]; the
    answer decodes to a plan, resp. a survey, that cannot be read. *)
Definition decoder_fails (env : Env) (e : exn) : Prop :=
  exists result, model_answers env result /\ json_loads env result = LoadsRaised e.

Definition commit_fails_after (env : Env) (e : exn) (accepted : json -> Prop) : Prop :=
  exists result j,
    model_answers env result /\ json_loads env result = Loaded j
    /\ accepted j /\ commits_fail env e.

Definition plan_of_days (env : Env) (j : json) : Prop :=
  exists kvs, j = JObj kvs /\ forall n, Forall (day_entry (utcnow env n)) kvs.

Definition plan_unreadable (env : Env) (e : exn) : Prop :=
  exists result j,
    model_answers env result /\ json_loads env result = Loaded j
    /\ (items j = Raised e
        \/ exists good bad rest,
             j = JObj (good ++ bad :: rest)
             /\ (forall n, Forall (day_entry (utcnow env n)) good)
             /\ (forall n, unreadable_day (utcnow env n) bad e)).

Definition survey_keys : list string := ["title"; "description"; "questions"].

Definition survey_unreadable (env : Env) (e : exn) : Prop :=
  exists result j,
    model_answers env result /\ json_loads env result = Loaded j
    /\ first_missing j survey_keys e.

(** A pending plan row that an INSERT accepts, and what is stored for it. *)
Definition insertable (r : ContentPlan) : Prop :=
  plan_id r = None /\ unbound (plan_title r) (plan_description r) = None
  /\ is_null (plan_title r) = false.

Definition stores (r s : ContentPlan) : Prop :=
  plan_channel_id s = plan_channel_id r
  /\ plan_title s = plan_title r
  /\ plan_description s = plan_description r
  /\ plan_planned_date s = plan_planned_date r
  /\ plan_content s = plan_content r
  /\ plan_status s = plan_status r.

(** Every stored analysis was made before any time the clock gives. *)
Definition analyses_in_the_past (env : Env) (d : Db) : Prop :=
  forall n, Forall (fun a => opt_timestamp (analysis_created_at a) < timestamp (utcnow env n))
                   (analyses d).

(** No stored post has the identifier. *)
Definition no_post (post_id : Z) (d : Db) : Prop :=
  Forall (fun p => Models.post_id p <> Some post_id) (posts d).

(** Some stored post has the identifier. *)
Definition has_post (post_id : Z) (d : Db) : Prop :=
  Exists (fun p => Models.post_id p = Some post_id) (posts d).

(** *** The routes *)

(** No stored channel has the identifier. *)
Definition no_channel (channel_id : Z) (d : Db) : Prop :=
  Forall (fun c => Models.channel_id c <> Some channel_id) (channels d).

(** A request to a route that depends on [get_db]. *)
Definition request {A} (route : M (Routes.HTTPException + A)) : M (Server.Response A) :=
  Server.respond (Db.get_db route).

(** The answer to a failed request. *)
Definition failure {A} (status : Z) (detail : json) : Server.Response A :=
  Server.Build_Response status (Server.Detail detail).

(** The exception of a route for a row that is not there. *)
Definition missing (what : string) (id : Z) : Routes.HTTPException :=
  Routes.Build_HTTPException 404 (JStr (what +:+ " with ID " +:+ pretty id +:+ " not found")).

(** *** The collector *)

(** A stored reaction points to exactly one of a post and a comment. *)
Definition one_target (r : Reaction) : bool :=
  xorb (bool_decide (is_Some (reaction_post_id r)))
       (bool_decide (is_Some (reaction_comment_id r))).

(** A reaction that points to nothing; a pending row that is not a
    reaction with a target. *)
Definition untargeted (r : Reaction) : Prop :=
  reaction_post_id r = None /\ reaction_comment_id r = None.

Definition untargeted_row (r : Row) : Prop :=
  match r with RReaction x => untargeted x | _ => True end.

(** The reactions stored since [base] have no target; and neither have
    the pending ones. *)
Definition stored_since (base : list Reaction) (w : World) : Prop :=
  exists new, reactions (store w) = base ++ new /\ Forall untargeted new.

Definition reactions_since (base : list Reaction) (w : World) : Prop :=
  Forall untargeted_row (session w) /\ stored_since base w.

(** External identifiers of the stored users, and merge keys of the
    stored posts and of the pending ones. *)
Definition user_keys (d : Db) : list Z := List.map user_tg_id (users d).

Definition post_keys (d : Db) : list (Z * Z) :=
  List.map (fun p => (post_tg_id p, post_channel_id p)) (posts d).

Definition pending_post_keys (pending : list Row) : list (Z * Z) :=
  flat_map (fun r => match r with
                     | RPost p => [(post_tg_id p, post_channel_id p)]
                     | _ => []
                     end) pending.

(** A pending instance as the collector builds it: a user without
    primary key, or any other row. *)
Definition fresh_row (r : Row) : Prop :=
  match r with RUser u => user_id u = None | _ => True end.

(** The stored users have distinct external identifiers; and the
    pending ones are fresh. *)
Definition distinct_users (w : World) : Prop := NoDup (user_keys (store w)).

Definition users_unique (w : World) : Prop :=
  Forall fresh_row (session w) /\ distinct_users w.

(** A message that has a text: [message.message] is neither [None] nor
    the empty text. *)
Definition has_text (m : Message) : bool :=
  match msg_message m with
  | Some text => negb (String.eqb text "")
  | None => false
  end.

(** The keys of the posts a history makes in a channel: the message
    identifier of each message that has a text, with the identifier of
    the channel. *)
Definition history_keys (channel : Z) (history : list Message) : list (Z * Z) :=
  List.map (fun m => (msg_id m, channel)) (List.filter has_text history).

(** The dictionary [get_posts] makes of a message, if the message has
    a text; the pending post [p] is the instance built with the fields of
    the dictionary [d]; the stored post [s] is the post of the dictionary
    [d] in the channel: views and forwards that the message does not give
    are stored as 0. *)
Definition post_data_of (m : Message) : option Collector.PostData :=
  match Collector.text_of m with
  | Some text =>
      Some (Collector.Build_PostData (msg_id m) (msg_date m) text (msg_views m)
                                     (msg_forwards m))
  | None => None
  end.

Definition post_for (channel : Z) (d : Collector.PostData) (p : Post) : Prop :=
  post_tg_id p = Collector.pd_id d
  /\ post_channel_id p = channel
  /\ post_content p = Collector.pd_text d
  /\ post_posted_at p = Collector.pd_date d
  /\ post_views p = Collector.pd_views d
  /\ post_forwards p = Collector.pd_forwards d.


(** The stored comment [s] is the comment of the dictionary [d]: its
    user is the external identifier of the author, when there is one. *)
Definition comment_of (d : Collector.CommentData) (s : Models.Comment) : Prop :=
  comment_tg_id s = Collector.cd_id d
  /\ comment_post_id s = Collector.cd_post_id d
  /\ comment_user_id s = Collector.ui_id <$> Collector.cd_user d
  /\ comment_content s = Collector.cd_text d
  /\ comment_commented_at s = Collector.cd_date d.

(** The pending posts and the pending comments of a session. *)
Definition pending_posts (pending : list Row) : list Post :=
  flat_map (fun r => match r with RPost p => [p] | _ => [] end) pending.

Definition pending_comments (pending : list Row) : list Models.Comment :=
  flat_map (fun r => match r with RComment c => [c] | _ => [] end) pending.


(** The fields an INSERT keeps of a pending comment. *)
Definition same_comment (c s : Models.Comment) : Prop :=
  comment_tg_id s = comment_tg_id c /\ comment_post_id s = comment_post_id c
  /\ comment_user_id s = comment_user_id c /\ comment_content s = comment_content c
  /\ comment_commented_at s = comment_commented_at c.

(** A pending instance that has no primary key and is no user, channel,
    plan or survey: its INSERT goes through. *)
Definition plain_row (r : Row) : Prop :=
  match r with
  | RPost p => post_id p = None
  | RComment c => comment_id c = None
  | RReaction x => reaction_id x = None
  | _ => False
  end.

(** *** The conversation *)

(** A program that returns in every environment. *)
Definition total {A} (m : M A) : Prop := returns (fun _ => True) m.

(** The pending task, when there is one, is one of the four the bot
    knows, and what it works on was captured. *)
Definition known_action (ud : UserData) : Prop :=
  match ud_pending_action ud with
  | None => True
  | Some action =>
      (action = "analyze_channel" \/ action = "generate_content_plan"
       \/ action = "create_survey") /\ is_Some (ud_channel_username ud)
      \/ action = "analyze_post" /\ is_Some (ud_post_id ud)
  end.

(** The conversation is in one of its six states, and when it waits for
    the confirmation a known task is pending. *)
Definition coherent (conversation : option Z) (ud : UserData) : Prop :=
  known_action ud
  /\ (conversation = Some Bot.WAITING_FOR_CONFIRMATION -> is_Some (ud_pending_action ud))
  /\ match conversation with
     | Some state => Bot.MENU <= state <= Bot.WAITING_FOR_CONFIRMATION
     | None => True
     end.

(** A handler that returns nothing but [state]. *)
Definition ends_in (state : Z) (h : M Z) : Prop :=
  forall env w s w', h env w = (Returned s, w') -> s = state.

(** A program that neither reads nor writes the context of the chat:
    run over another context, it does the same and leaves that context. *)
Definition context_blind {A} (m : M A) : Prop :=
  forall env w ud,
    m env (set_user_data ud w)
    = (fst (m env w), set_user_data ud (snd (m env w))).

(** The chat after the channel [name] was captured. *)
Definition naming (name : string) (w : World) : World :=
  set_user_data (Build_UserData (Some name) (ud_post_id (user_data w))
                                (ud_pending_action (user_data w))) w.

(** What a task leaves in the stored tables and in the log of requests. *)
Definition effect {A} (run : outcome A * World) : Db * list ChatRequest :=
  (store (snd run), chat_log (snd run)).

(** The reply of [confirm_action] to a failed task. *)
Definition error_reply (text : string) : string :=
  "Произошла ошибка: " +:+ text +:+ Bot.nl +:+ Bot.nl
  +:+ "Пожалуйста, попробуйте еще раз или свяжитесь с администратором.".

(** A handler that does not end the conversation. *)
Definition non_final (h : M Z) : Prop :=
  forall env w s w', h env w = (Returned s, w') -> s <> Bot.END.

(* ===================================================================== *)
(** ** Concrete environments and worlds                                   *)
(* ===================================================================== *)

Module Examples.

Definition t0 : datetime := Datetime 2024 2 28 9 30 0 0.

Definition unreachable : exn := Exn "ConnectionError" "unreachable".

Definition locked : exn := Exn "OperationalError" "database is locked".

Definition out_of_quota : exn :=
  Exn "RateLimitError" "You exceeded your current quota".

(** *** Environments *)

(** No fault, no messaging peer, the model answers [reply]. *)
Definition quiet_env (reply : string) : Env := {|
  json_loads := Decoder.json_loads_basic;
  py_str := fun _ => "...";
  utcnow := fun _ => t0;
  query_fault := fun _ => None;
  commit_fault := fun _ => None;
  chat_completion := fun _ _ => Returned reply;
  get_entity := fun _ _ => Raised unreachable;
  get_history := fun _ _ _ _ => Raised unreachable;
  get_message := fun _ _ _ => Raised unreachable;
  get_replies := fun _ _ _ _ => Raised unreachable |}.

(** A storage engine that fails the first query. *)
Definition locked_env : Env := {|
  json_loads := Decoder.json_loads_basic;
  py_str := fun _ => "...";
  utcnow := fun _ => t0;
  query_fault := fun n => match n with O => Some locked | _ => None end;
  commit_fault := fun _ => None;
  chat_completion := fun _ _ => Returned "{}";
  get_entity := fun _ _ => Raised unreachable;
  get_history := fun _ _ _ _ => Raised unreachable;
  get_message := fun _ _ _ => Raised unreachable;
  get_replies := fun _ _ _ _ => Raised unreachable |}.

(** A provider that refuses every request. *)
Definition failing_provider_env : Env := {|
  json_loads := Decoder.json_loads_basic;
  py_str := fun _ => "...";
  utcnow := fun _ => t0;
  query_fault := fun _ => None;
  commit_fault := fun _ => None;
  chat_completion := fun _ _ => Raised out_of_quota;
  get_entity := fun _ _ => Raised unreachable;
  get_history := fun _ _ _ _ => Raised unreachable;
  get_message := fun _ _ _ => Raised unreachable;
  get_replies := fun _ _ _ _ => Raised unreachable |}.

(** *** Worlds *)

Definition initial_world : World :=
  Build_World 0 empty_db [] [] empty_user_data [].

(** A stored post of channel 1, and a stored analysis of that channel. *)
Definition a_post : Post :=
  {| post_id := Some 1; post_tg_id := 10; post_channel_id := 1;
     post_content := "hello"; post_posted_at := t0;
     post_views := Some 5; post_forwards := Some 0;
     post_created_at := Some t0; post_updated_at := Some t0 |}.

Definition an_analysis : Analysis :=
  {| analysis_id := Some 1; analysis_channel_id := Some 1;
     analysis_post_id := None; analysis_type := "channel_content";
     analysis_content := json_dumps (JObj [("main_topics", JArr [JStr "news"])]);
     analysis_created_at := Some t0 |}.

Definition world_with_post : World :=
  Build_World 0 (with_posts [a_post] empty_db) [] [] empty_user_data [].

Definition world_with_analysis : World :=
  Build_World 0 (with_analyses [an_analysis] (with_posts [a_post] empty_db))
              [] [] empty_user_data [].

(** The same post, with an analysis of the channel made the day before. *)
Definition an_old_analysis : Analysis :=
  {| analysis_id := Some 1; analysis_channel_id := Some 1;
     analysis_post_id := None; analysis_type := "channel_content";
     analysis_content := json_dumps (JObj [("main_topics", JArr [JStr "weather"])]);
     analysis_created_at := Some (Datetime 2024 2 27 9 30 0 0) |}.

Definition world_with_old_analysis : World :=
  Build_World 0 (with_analyses [an_old_analysis] (with_posts [a_post] empty_db))
              [] [] empty_user_data [].

(** Three stored posts of channel 1, one a day from the 27th of
    February 2024 on. *)
Definition post_of_day (id : Z) : Post :=
  {| post_id := Some id; post_tg_id := 100 + id; post_channel_id := 1;
     post_content := "post"; post_posted_at := Datetime 2024 2 (26 + id) 9 30 0 0;
     post_views := Some 0; post_forwards := Some 0;
     post_created_at := Some t0; post_updated_at := Some t0 |}.

Definition world_with_three_posts : World :=
  Build_World 0 (with_posts [post_of_day 1; post_of_day 2; post_of_day 3] empty_db)
              [] [] empty_user_data [].

(** The chat after "Анализ канала" and "@testchan": the confirmation is
    awaited. *)
Definition world_awaiting_confirmation : World :=
  Build_World 0 empty_db [] []
    (Build_UserData (Some "testchan") None (Some "analyze_channel")) [].

(** *** Answers of the model *)

Definition a_day (title description : string) : json :=
  JObj [("title", JStr title); ("description", JStr description)].

(** A plan of three days, a plan of one day, a day without description,
    and a text that is not JSON. *)
Definition three_days : list (string * json) :=
  [("day_1", a_day "A" "a"); ("day_2", a_day "B" "b"); ("day_3", a_day "C" "c")].

Definition plan_of_three : string := json_dumps (JObj three_days).

Definition plan_of_one : string := json_dumps (JObj [("day_1", a_day "A" "a")]).

Definition plan_without_description : string :=
  json_dumps (JObj [("day_1", JObj [("title", JStr "A")])]).


Definition apology : string := "Sorry, I cannot help with that.".

(** A survey of one question. *)
Definition a_survey : json :=
  JObj [("title", JStr "Readers"); ("description", JStr "About you");
        ("questions", JArr [JObj [("question_text", JStr "How often do you read us?")]]);
        ("thank_you_message", JStr "Thank you")].

Definition survey_text : string := json_dumps a_survey.

(** *** A channel *)

(** Channel 100: its history holds one text message with one reaction;
    user 7 resolves, no other peer does. *)
Definition the_channel : Entity := EntityChannel 100.

Definition the_author : TgUser :=
  {| tg_user_id := 7; tg_username := Some "ann";
     tg_first_name := Some "Ann"; tg_last_name := None |}.

Definition a_message : Message :=
  {| msg_id := 1; msg_date := t0; msg_message := Some "hello";
     msg_views := Some 5; msg_forwards := Some 0;
     msg_reactions := Some [Build_ReactionCount (ReactionEmoji "👍") 2];
     msg_from_id := None |}.

(** A reply of user 7; a reply without sender that carries a reaction;
    a reply of user 8, who does not resolve. *)
Definition a_reply (id : Z) (text : string) : Message :=
  {| msg_id := id; msg_date := t0; msg_message := Some text;
     msg_views := None; msg_forwards := None; msg_reactions := None;
     msg_from_id := Some (PeerUser 7) |}.

Definition a_reply_with_reaction : Message :=
  {| msg_id := 11; msg_date := t0; msg_message := Some "nice";
     msg_views := None; msg_forwards := None;
     msg_reactions := Some [Build_ReactionCount (ReactionCustomEmoji 42) 1];
     msg_from_id := None |}.

Definition a_stranger_reply : Message :=
  {| msg_id := 13; msg_date := t0; msg_message := Some "anonymous";
     msg_views := None; msg_forwards := None; msg_reactions := None;
     msg_from_id := Some (PeerUser 8) |}.

(** The messaging API of that channel, with [replies] under message 1. *)
Definition channel_env (replies : list Message) : Env := {|
  json_loads := Decoder.json_loads_basic;
  py_str := fun _ => "...";
  utcnow := fun _ => t0;
  query_fault := fun _ => None;
  commit_fault := fun _ => None;
  chat_completion := fun _ _ => Raised unreachable;
  get_entity := fun _ r =>
    match r with
    | ByUsername _ => Returned the_channel
    | ByPeer (PeerUser 7) => Returned (EntityUser the_author)
    | ByPeer _ => Raised (Exn "ValueError" "Could not find the input entity")
    end;
  get_history := fun _ _ _ _ => Returned [a_message];
  get_message := fun _ _ _ => Returned (Some a_message);
  get_replies := fun _ _ _ _ => Returned replies |}.

Definition collector : Collector.TelegramDataCollector :=
  {| Collector.self_channel_username := "testchan" |}.

(** A message that gives neither views nor forwards, a service message,
    and the channel with a given history. *)
Definition a_bare_message : Message :=
  {| msg_id := 2; msg_date := t0; msg_message := Some "welcome";
     msg_views := None; msg_forwards := None; msg_reactions := None;
     msg_from_id := None |}.

Definition a_service_message : Message :=
  {| msg_id := 3; msg_date := t0; msg_message := None;
     msg_views := None; msg_forwards := None; msg_reactions := None;
     msg_from_id := None |}.

Definition history_env (history : list Message) : Env := {|
  json_loads := Decoder.json_loads_basic;
  py_str := fun _ => "...";
  utcnow := fun _ => t0;
  query_fault := fun _ => None;
  commit_fault := fun _ => None;
  chat_completion := fun _ _ => Raised unreachable;
  get_entity := fun _ _ => Returned the_channel;
  get_history := fun _ _ _ _ => Returned history;
  get_message := fun _ _ _ => Returned None;
  get_replies := fun _ _ _ _ => Returned [] |}.

(** *** The web framework *)

(** [str()] of an [HTTPException] whose detail is a text, as recent
    versions of the framework print it: the status, a colon, the detail. *)
Definition status_and_detail (e : Routes.HTTPException) : string :=
  pretty (Routes.status_code e) +:+ ": "
  +:+ match Routes.detail e with JStr text => text | _ => "" end.

End Examples.

(* ===================================================================== *)
(** ** Invariants of the world along a run                                *)
(* ===================================================================== *)

(** The rules of [maintains], one per construct of the monad. *)
Section Maintains.

Context (I : World -> Prop).

Lemma maintains_ret {A} (a : A) : maintains I (ret a).
Proof. intros env w H. exact H. Qed.

Lemma maintains_raise {A} (e : exn) : maintains I (@raise A e).
Proof. intros env w H. exact H. Qed.

Lemma maintains_lift {A} (o : outcome A) : maintains I (lift o).
Proof. intros env w H. exact H. Qed.

Lemma maintains_gets {A} (g : World -> A) : maintains I (gets g).
Proof. intros env w H. exact H. Qed.

Lemma maintains_asks {A} (g : Env -> A) : maintains I (asks g).
Proof. intros env w H. exact H. Qed.

Lemma maintains_bind {A C} (m : M A) (k : A -> M C) :
  maintains I m -> (forall a, maintains I (k a)) -> maintains I (bind m k).
Proof.
  intros Hm Hk env w H. unfold bind.
  specialize (Hm env w H). destruct (m env w) as [[a|e] w1]; simpl in *.
  - apply Hk, Hm.
  - exact Hm.
Qed.

Lemma maintains_try_except {A} (m : M A) (h : exn -> M A) :
  maintains I m -> (forall e, maintains I (h e)) -> maintains I (try_except m h).
Proof.
  intros Hm Hh env w H. unfold try_except.
  specialize (Hm env w H). destruct (m env w) as [[a|e] w1]; simpl in *.
  - exact Hm.
  - apply Hh, Hm.
Qed.

Lemma maintains_modify (g : World -> World) :
  (forall w, I w -> I (g w)) -> maintains I (modify g).
Proof. intros Hg env w H. apply Hg, H. Qed.

Lemma maintains_step `{!Stable I set_tick} : maintains I step.
Proof. intros env w H. cbn. by apply (stable (set:=set_tick)). Qed.

Lemma maintains_for_each {A} (body : A -> M unit) (l : list A) :
  (forall x, maintains I (body x)) -> maintains I (for_each l body).
Proof.
  intros Hbody. induction l as [|x l IH]; simpl.
  - apply maintains_ret.
  - apply maintains_bind; [apply Hbody | intros _; exact IH].
Qed.

Lemma maintains_map_m {A C} (g : A -> M C) (l : list A) :
  (forall x, maintains I (g x)) -> maintains I (map_m g l).
Proof.
  intros Hg. induction l as [|x l IH]; simpl.
  - apply maintains_ret.
  - apply maintains_bind; [apply Hg | intros y].
    apply maintains_bind; [exact IH | intros ys; apply maintains_ret].
Qed.

Lemma maintains_query `{!Stable I set_tick} {A} (select : Db -> A) :
  maintains I (query select).
Proof.
  unfold query. apply maintains_bind; [apply maintains_step | intros n].
  apply maintains_bind; [apply maintains_asks | intros [e|]].
  - apply maintains_raise.
  - apply maintains_gets.
Qed.

End Maintains.

(** The special case of a component that keeps its value. *)
Lemma preserves_maintains {A B} (f : World -> B) (m : M A) :
  preserves f m <-> forall b, maintains (fun w => f w = b) m.
Proof.
  split.
  - intros H b env w Hw. by rewrite H.
  - intros H env w. exact (H (f w) env w eq_refl).
Qed.

#[local] Instance ignores_stable {B C} (f : World -> B) (set : C -> World -> World) b :
  Ignores f set -> Stable (fun w => f w = b) set.
Proof. intros H c w Hw. by rewrite H. Qed.

Section Frame.

Context {B : Type} (f : World -> B).

Lemma preserves_add `{!Ignores f set_session} (r : Row) : preserves f (add r).
Proof. intros env w. apply (ignores (set:=set_session)). Qed.

Lemma preserves_merge `{!Ignores f set_tick} `{!Ignores f set_session} (u : User) :
  preserves f (merge u).
Proof.
  apply preserves_maintains. intros b. unfold merge. destruct (user_id u).
  - apply maintains_bind; [apply maintains_query; tc_solve | intros _].
    by apply preserves_maintains, preserves_add.
  - by apply preserves_maintains, preserves_add.
Qed.

Lemma preserves_commit
  `{!Ignores f set_tick} `{!Ignores f set_session} `{!Ignores f set_store} :
  preserves f commit.
Proof.
  intros env w. unfold commit.
  destruct (commit_fault env (tick w)); simpl.
  - by rewrite !ignores.
  - destruct (flush _ _ _ _) as [[e|d] n']; simpl; by rewrite !ignores.
Qed.

Lemma preserves_with_session `{!Ignores f set_session} {A} (body : M A) :
  preserves f body -> preserves f (with_session body).
Proof.
  intros Hbody env w. unfold with_session.
  specialize (Hbody env (set_session [] w)).
  destruct (body env (set_session [] w)) as [o w1]; simpl in *.
  by rewrite !ignores in *.
Qed.

End Frame.

(** *** The components of the world and the setters they do not see *)

#[local] Instance user_data_tick : Ignores user_data set_tick.
Proof. intros c w. reflexivity. Qed.
#[local] Instance user_data_store : Ignores user_data set_store.
Proof. intros c w. reflexivity. Qed.
#[local] Instance user_data_session : Ignores user_data set_session.
Proof. intros c w. reflexivity. Qed.
#[local] Instance user_data_chat_log : Ignores user_data set_chat_log.
Proof. intros c w. reflexivity. Qed.
#[local] Instance user_data_sent : Ignores user_data set_sent.
Proof. intros c w. reflexivity. Qed.

#[local] Instance chat_log_tick : Ignores chat_log set_tick.
Proof. intros c w. reflexivity. Qed.
#[local] Instance chat_log_store : Ignores chat_log set_store.
Proof. intros c w. reflexivity. Qed.
#[local] Instance chat_log_session : Ignores chat_log set_session.
Proof. intros c w. reflexivity. Qed.

Create HintDb frame discriminated.

Ltac head_of t :=
  lazymatch t with
  | ?g _ => head_of g
  | _ => t
  end.

(** One rule of the calculus, chosen by the shape of the program. *)
Ltac frame_step :=
  lazymatch goal with
  | |- preserves _ _ => apply preserves_maintains; intros ?
  | |- maintains _ (bind _ _) => apply maintains_bind; [| intros ?]
  | |- maintains _ (try_except _ _) => apply maintains_try_except; [| intros ?]
  | |- maintains _ (ret _) => apply maintains_ret
  | |- maintains _ (raise _) => apply maintains_raise
  | |- maintains _ (lift _) => apply maintains_lift
  | |- maintains _ (gets _) => apply maintains_gets
  | |- maintains _ (asks _) => apply maintains_asks
  | |- maintains _ step => apply maintains_step; tc_solve
  | |- maintains _ (query _) => apply maintains_query; tc_solve
  | |- maintains _ (for_each _ _) => apply maintains_for_each; intros ?
  | |- maintains _ (map_m _ _) => apply maintains_map_m; intros ?
  | |- maintains _ (match ?x with _ => _ end) => destruct x
  | |- maintains (fun w => _ w = _) ?m =>
      first [ solve [auto with frame nocore]
            | solve [apply preserves_maintains; auto with frame nocore]
            | solve [apply preserves_maintains;
                     first [ apply preserves_add | apply preserves_merge
                           | apply preserves_commit
                           | apply preserves_with_session; auto with frame nocore ];
                     tc_solve]
            | apply maintains_modify; intros ? <-; reflexivity
            | progress cbv beta zeta
            | let h := head_of m in unfold h ]
  | |- maintains ?I (modify (fun w => set_chat_log _ w)) =>
      apply maintains_modify; intros ? ?;
      apply (stable (I:=I) (set:=set_chat_log)); assumption
  | |- maintains _ ?m =>
      first [ solve [auto with frame nocore]
            | progress cbv beta zeta
            | let h := head_of m in unfold h ]
  end.

Ltac frame := repeat frame_step.

(* ===================================================================== *)
(** ** The session context across the end of a conversation              *)
(* ===================================================================== *)

Lemma analyze_channel_content_keeps_user_data c :
  preserves user_data (LLMService.analyze_channel_content c).
Proof. frame. Qed.

Lemma generate_content_plan_keeps_user_data c d :
  preserves user_data (LLMService.generate_content_plan c d).
Proof. frame. Qed.

Lemma analyze_post_performance_keeps_user_data p :
  preserves user_data (LLMService.analyze_post_performance p).
Proof. frame. Qed.

Lemma generate_survey_keeps_user_data c :
  preserves user_data (LLMService.generate_survey c).
Proof. frame. Qed.

#[local] Hint Resolve analyze_channel_content_keeps_user_data
  generate_content_plan_keeps_user_data analyze_post_performance_keeps_user_data
  generate_survey_keeps_user_data : frame.

Lemma format_keeps_user_data j : preserves user_data (Bot.format j).
Proof. frame. Qed.

#[local] Hint Resolve format_keeps_user_data : frame.

Lemma day_lines_keeps_user_data days i : preserves user_data (Bot.day_lines i days).
Proof.
  revert i. induction days as [|[k v] days IH]; intros i; simpl; frame.
Qed.

Lemma bullet_lines_keeps_user_data xs : preserves user_data (Bot.bullet_lines xs).
Proof. induction xs as [|x xs IH]; simpl; frame. Qed.

Lemma question_lines_keeps_user_data qs : preserves user_data (Bot.question_lines qs).
Proof. induction qs as [|x qs IH]; simpl; frame. Qed.

#[local] Hint Resolve day_lines_keeps_user_data bullet_lines_keeps_user_data
  question_lines_keeps_user_data : frame.

Lemma reply_text_keeps_user_data t : preserves user_data (Bot.reply_text t).
Proof. frame. Qed.

#[local] Hint Resolve reply_text_keeps_user_data : frame.

Lemma report_keeps_user_data result build :
  preserves user_data build -> preserves user_data (Bot.report result build).
Proof. intros H. unfold Bot.report. frame. Qed.

Lemma perform_channel_analysis_keeps_user_data :
  preserves user_data Bot._perform_channel_analysis.
Proof.
  unfold Bot._perform_channel_analysis.
  frame.
Qed.

Lemma perform_content_plan_generation_keeps_user_data :
  preserves user_data Bot._perform_content_plan_generation.
Proof.
  unfold Bot._perform_content_plan_generation.
  frame.
Qed.

Lemma perform_post_analysis_keeps_user_data :
  preserves user_data Bot._perform_post_analysis.
Proof.
  unfold Bot._perform_post_analysis.
  frame.
Qed.

Lemma perform_survey_creation_keeps_user_data :
  preserves user_data Bot._perform_survey_creation.
Proof.
  unfold Bot._perform_survey_creation.
  frame.
Qed.

#[local] Hint Resolve perform_channel_analysis_keeps_user_data
  perform_content_plan_generation_keeps_user_data
  perform_post_analysis_keeps_user_data
  perform_survey_creation_keeps_user_data : frame.

Lemma confirm_action_keeps_user_data : preserves user_data Bot.confirm_action.
Proof. unfold Bot.confirm_action. frame. Qed.

Lemma cancel_action_keeps_user_data : preserves user_data Bot.cancel_action.
Proof. frame. Qed.

Lemma cancel_keeps_user_data : preserves user_data Bot.cancel.
Proof. frame. Qed.

Ltac non_final_by_run :=
  intros env w s w' Hrun; injection Hrun as <- _; unfold Bot.END; intros [=].

Lemma analyze_channel_non_final : non_final Bot.analyze_channel.
Proof. non_final_by_run. Qed.

Lemma generate_content_plan_non_final : non_final Bot.generate_content_plan.
Proof. non_final_by_run. Qed.

Lemma analyze_post_non_final : non_final Bot.analyze_post.
Proof. non_final_by_run. Qed.

Lemma create_survey_non_final : non_final Bot.create_survey.
Proof. non_final_by_run. Qed.

Lemma process_channel_analysis_non_final text :
  non_final (Bot.process_channel_analysis text).
Proof. non_final_by_run. Qed.

Lemma process_content_plan_non_final text :
  non_final (Bot.process_content_plan text).
Proof. non_final_by_run. Qed.

Lemma process_survey_creation_non_final text :
  non_final (Bot.process_survey_creation text).
Proof. non_final_by_run. Qed.

Lemma process_post_analysis_non_final text :
  non_final (Bot.process_post_analysis text).
Proof.
  unfold Bot.process_post_analysis. destruct (int (strip text)); non_final_by_run.
Qed.

(** In a state, only the two confirmation handlers can end the
    conversation. *)
Lemma state_handler_end state text h :
  Bot.state_handler state text = Some h ->
  non_final h \/ h = Bot.confirm_action \/ h = Bot.cancel_action.
Proof.
  unfold Bot.state_handler. intros Hh.
  repeat match type of Hh with
         | (if ?b then _ else _) = _ => destruct b
         end;
    try discriminate; injection Hh as <-; auto.
  - left. apply analyze_channel_non_final.
  - left. apply generate_content_plan_non_final.
  - left. apply analyze_post_non_final.
  - left. apply create_survey_non_final.
  - left. apply process_channel_analysis_non_final.
  - left. apply process_content_plan_non_final.
  - left. apply process_post_analysis_non_final.
  - left. apply process_survey_creation_non_final.
Qed.

Lemma next_state_none s : Bot.next_state s = None -> s = Bot.END.
Proof.
  unfold Bot.next_state. destruct (s =? Bot.END) eqn:E; [|discriminate].
  intros _. lia.
Qed.

(** C9, as the code has it.  When an update ends the conversation (a
    confirmation, a refusal, or the cancel command), the session context
    is exactly what it was before that update: the captured channel, the
    captured post and the pending task stay in [user_data], and the next
    conversation of the chat starts with them. *)
Theorem end_of_conversation_keeps_context env w state u w' :
  Bot.handle_update (Some state) u env w = (Returned None, w') ->
  user_data w' = user_data w.
Proof.
  unfold Bot.handle_update, Bot.on_message.
  destruct u as [name|text|name|text]; cbn [Bot.text_of Bot.command_of Bot.is_edited].
  - destruct (String.eqb (lower name) "cancel").
    + intros Hrun. pose proof (cancel_keeps_user_data env w) as Hk.
      unfold bind in Hrun. destruct (Bot.cancel env w) as [[s|e] w1]; simpl in *.
      * injection Hrun as _ <-. exact Hk.
      * discriminate.
    + intros [=].
  - destruct (Bot.state_handler state text) as [h|] eqn:Hh; [|intros [=]].
    intros Hrun. unfold bind in Hrun.
    destruct (h env w) as [[s|e] w1] eqn:Hh_run; [|discriminate].
    injection Hrun as Hnext <-. apply next_state_none in Hnext. subst s.
    destruct (state_handler_end _ _ _ Hh) as [Hnf | [-> | ->]].
    + exfalso. exact (Hnf _ _ _ _ Hh_run eq_refl).
    + pose proof (confirm_action_keeps_user_data env w) as Hk.
      rewrite Hh_run in Hk. exact Hk.
    + pose proof (cancel_action_keeps_user_data env w) as Hk.
      rewrite Hh_run in Hk. exact Hk.
  - destruct (String.eqb (lower name) "cancel"); intros [=].
  - destruct (Bot.state_handler state text); intros [=].
Qed.

Lemma end_of_conversation_keeps_context_witness :
  exists w',
    Bot.handle_update (Some Bot.WAITING_FOR_CONFIRMATION) (Bot.Text "Нет")
      (Examples.quiet_env Examples.apology) Examples.world_awaiting_confirmation
    = (Returned None, w')
    /\ user_data w' = user_data Examples.world_awaiting_confirmation.
Proof.
  eexists. split; [reflexivity|].
  exact (end_of_conversation_keeps_context
           (Examples.quiet_env Examples.apology) Examples.world_awaiting_confirmation
           Bot.WAITING_FOR_CONFIRMATION (Bot.Text "Нет") _ eq_refl).
Defined.

(** C9, as stated, fails: after "Анализ канала", "@testchan", "Нет" the
    conversation has ended and the context still holds the channel and
    the pending task. *)
Lemma context_survives_the_end :
  exists w,
    Bot.handle_updates None
      [Bot.Command "menu"; Bot.Text "Анализ канала"; Bot.Text "@testchan"; Bot.Text "Нет"]
      (Examples.quiet_env Examples.apology) Examples.initial_world = (Returned None, w)
    /\ user_data w = Build_UserData (Some "testchan") None (Some "analyze_channel")
    /\ user_data w <> empty_user_data.
Proof.
  eexists. split; [vm_compute; reflexivity|]. split; [reflexivity|]. discriminate.
Qed.

(* ===================================================================== *)
(** ** Running a program: the equations of the monad                      *)
(* ===================================================================== *)

Lemma bind_returned {A B} (m : M A) (k : A -> M B) env w a w1 :
  m env w = (Returned a, w1) -> bind m k env w = k a env w1.
Proof. intros H. unfold bind. rewrite H. reflexivity. Qed.

Lemma bind_raised {A B} (m : M A) (k : A -> M B) env w e w1 :
  m env w = (Raised e, w1) -> bind m k env w = (Raised e, w1).
Proof. intros H. unfold bind. rewrite H. reflexivity. Qed.

Lemma try_returned {A} (m : M A) (h : exn -> M A) env w a w1 :
  m env w = (Returned a, w1) -> try_except m h env w = (Returned a, w1).
Proof. intros H. unfold try_except. rewrite H. reflexivity. Qed.

Lemma try_raised {A} (m : M A) (h : exn -> M A) env w e w1 :
  m env w = (Raised e, w1) -> try_except m h env w = h e env w1.
Proof. intros H. unfold try_except. rewrite H. reflexivity. Qed.

Lemma query_sound {A} (select : Db -> A) env w :
  query_fault env (tick w) = None ->
  query select env w = (Returned (select (store w)), set_tick (S (tick w)) w).
Proof. intros H. unfold query, bind, step, asks, gets. cbn. rewrite H. reflexivity. Qed.

Lemma query_faulty {A} (select : Db -> A) env w e :
  query_fault env (tick w) = Some e ->
  query select env w = (Raised e, set_tick (S (tick w)) w).
Proof. intros H. unfold query, bind, step, asks, raise. cbn. rewrite H. reflexivity. Qed.

(* ===================================================================== *)
(** ** Programs that do not raise                                         *)
(* ===================================================================== *)

Section Returns.

Context (P : Env -> Prop).

Lemma returns_ret {A} (a : A) : returns P (ret a).
Proof. intros env w _. by eexists _, _. Qed.

Lemma returns_gets {A} (g : World -> A) : returns P (gets g).
Proof. intros env w _. by eexists _, _. Qed.

Lemma returns_asks {A} (g : Env -> A) : returns P (asks g).
Proof. intros env w _. by eexists _, _. Qed.

Lemma returns_modify (g : World -> World) : returns P (modify g).
Proof. intros env w _. by eexists _, _. Qed.

Lemma returns_bind {A B} (m : M A) (k : A -> M B) :
  returns P m -> (forall a, returns P (k a)) -> returns P (bind m k).
Proof.
  intros Hm Hk env w HP. destruct (Hm env w HP) as (a & w1 & E).
  rewrite (bind_returned _ _ _ _ _ _ E). apply Hk, HP.
Qed.

(** A [try] whose handler returns does not raise, whatever its body does. *)
Lemma returns_try_except {A} (m : M A) (h : exn -> M A) :
  (forall e, returns P (h e)) -> returns P (try_except m h).
Proof.
  intros Hh env w HP. destruct (m env w) as [[a|e] w1] eqn:E.
  - rewrite (try_returned _ _ _ _ _ _ E). by eexists _, _.
  - rewrite (try_raised _ _ _ _ _ _ E). apply Hh, HP.
Qed.

Lemma returns_map_m {A B} (g : A -> M B) (l : list A) :
  (forall x, returns P (g x)) -> returns P (map_m g l).
Proof.
  intros Hg. induction l as [|x l IH]; simpl.
  - apply returns_ret.
  - apply returns_bind; [apply Hg | intros y].
    apply returns_bind; [exact IH | intros ys; apply returns_ret].
Qed.

End Returns.

Lemma returns_query {A} (select : Db -> A) : returns queries_sound (query select).
Proof. intros env w Hq. rewrite query_sound by apply Hq. by eexists _, _. Qed.

Lemma channel_post_data_returns post :
  returns queries_sound (LLMService.channel_post_data post).
Proof.
  unfold LLMService.channel_post_data.
  apply returns_bind; [apply returns_query | intros comments].
  apply returns_bind; [apply returns_query | intros reactions].
  apply returns_ret.
Qed.

Lemma analyze_channel_content_returns c :
  returns queries_sound (LLMService.analyze_channel_content c).
Proof.
  unfold LLMService.analyze_channel_content.
  apply returns_bind; [apply returns_query | intros [|post posts]].
  - apply returns_ret.
  - apply returns_bind.
    + apply returns_map_m, channel_post_data_returns.
    + intros posts_data. apply returns_try_except. intros e. apply returns_ret.
Qed.

Lemma analyze_post_performance_returns p :
  returns queries_sound (LLMService.analyze_post_performance p).
Proof.
  unfold LLMService.analyze_post_performance.
  apply returns_bind; [apply returns_query | intros [post|]].
  - apply returns_bind; [apply returns_query | intros comments].
    apply returns_bind; [apply returns_query | intros reactions].
    apply returns_try_except. intros e. apply returns_ret.
  - apply returns_ret.
Qed.

(** The gathering step of the two dependent operations returns when the
    queries are answered and the stored analysis decodes. *)
Lemma channel_analysis_data_returns env w c :
  queries_sound env -> stored_analysis_decodes env c w ->
  exists d w', LLMService.channel_analysis_data c env w = (Returned d, w').
Proof.
  intros Hq Hdec. unfold LLMService.channel_analysis_data.
  rewrite (bind_returned _ _ _ _ _ _ (query_sound _ env w (Hq _))).
  destruct (LLMService.select_latest_analysis c (store w)) as [a|] eqn:E.
  - destruct (Hdec a E) as [j Hj].
    unfold bind, LLMService.loads, asks. rewrite Hj. by eexists _, _.
  - apply analyze_channel_content_returns, Hq.
Qed.

Lemma generate_content_plan_returns env w c days :
  queries_sound env -> stored_analysis_decodes env c w ->
  exists d w', LLMService.generate_content_plan c days env w = (Returned d, w').
Proof.
  intros Hq Hdec. destruct (channel_analysis_data_returns env w c Hq Hdec) as (d & w1 & E).
  unfold LLMService.generate_content_plan. rewrite (bind_returned _ _ _ _ _ _ E).
  apply (returns_try_except queries_sound); [|exact Hq].
  intros e. apply returns_ret.
Qed.

Lemma generate_survey_returns env w c :
  queries_sound env -> stored_analysis_decodes env c w ->
  exists d w', LLMService.generate_survey c env w = (Returned d, w').
Proof.
  intros Hq Hdec. destruct (channel_analysis_data_returns env w c Hq Hdec) as (d & w1 & E).
  unfold LLMService.generate_survey. rewrite (bind_returned _ _ _ _ _ _ E).
  apply (returns_try_except queries_sound); [|exact Hq].
  intros e. apply returns_ret.
Qed.

Lemma acreate_run env w system user temperature max_tokens :
  let request := Build_ChatRequest LLMService.model system user temperature max_tokens in
  LLMService.acreate system user temperature max_tokens env w
  = (chat_completion env (tick w) request,
     set_chat_log (chat_log w ++ [request]) (set_tick (S (tick w)) w)).
Proof. reflexivity. Qed.

(* ===================================================================== *)
(** ** Channel analysis                                                   *)
(* ===================================================================== *)

Lemma no_posts_select c d : no_posts c d -> LLMService.select_posts c d = [].
Proof.
  unfold no_posts, LLMService.select_posts. intros H.
  assert (List.filter (fun p => post_channel_id p =? c) (posts d) = []) as ->.
  { induction H as [|p l Hp _ IH]; simpl; [reflexivity|].
    destruct (Z.eqb_spec (post_channel_id p) c); [contradiction | exact IH]. }
  reflexivity.
Qed.

(** C4.  On a channel without stored posts, [analyze_channel_content]
    returns [{"error": "No posts found for analysis"}] as a value; the
    stored tables, the session and the list of requests sent to the model
    are what they were. *)
Theorem no_posts_is_a_result env w c :
  query_fault env (tick w) = None ->
  no_posts c (store w) ->
  exists w',
    LLMService.analyze_channel_content c env w
    = (Returned (JObj [("error", JStr "No posts found for analysis")]), w')
    /\ store w' = store w
    /\ session w' = session w
    /\ chat_log w' = chat_log w.
Proof.
  intros Hq Hno. exists (after_query w).
  unfold LLMService.analyze_channel_content.
  rewrite (bind_returned _ _ _ _ _ _ (query_sound _ env w Hq)).
  rewrite (no_posts_select _ _ Hno). repeat split.
Qed.

Lemma no_posts_is_a_result_witness :
  exists w',
    LLMService.analyze_channel_content 1 (Examples.quiet_env Examples.apology)
                                       Examples.initial_world
    = (Returned (JObj [("error", JStr "No posts found for analysis")]), w')
    /\ store w' = empty_db
    /\ session w' = []
    /\ chat_log w' = [].
Proof.
  apply (no_posts_is_a_result (Examples.quiet_env Examples.apology) Examples.initial_world 1).
  - reflexivity.
  - constructor.
Defined.

#[local] Instance store_tick : Ignores store set_tick.
Proof. intros c w. reflexivity. Qed.
#[local] Instance store_chat_log : Ignores store set_chat_log.
Proof. intros c w. reflexivity. Qed.
#[local] Instance session_tick : Ignores session set_tick.
Proof. intros c w. reflexivity. Qed.
#[local] Instance session_chat_log : Ignores session set_chat_log.
Proof. intros c w. reflexivity. Qed.

Lemma channel_post_data_keeps_store post :
  preserves store (LLMService.channel_post_data post).
Proof. frame. Qed.

Lemma channel_post_data_keeps_session post :
  preserves session (LLMService.channel_post_data post).
Proof. frame. Qed.

(** Gathering the posts of a channel: it returns, and only the step
    counter moves. *)
Lemma gather_posts env w posts :
  queries_sound env ->
  exists posts_data w1,
    map_m LLMService.channel_post_data posts env w = (Returned posts_data, w1)
    /\ store w1 = store w /\ session w1 = session w /\ chat_log w1 = chat_log w.
Proof.
  intros Hq.
  destruct (returns_map_m queries_sound LLMService.channel_post_data posts
              channel_post_data_returns env w Hq) as (posts_data & w1 & E).
  exists posts_data, w1. split; [exact E|].
  assert (Hs : preserves store (map_m LLMService.channel_post_data posts)) by frame.
  assert (Hp : preserves session (map_m LLMService.channel_post_data posts)) by frame.
  assert (Hl : preserves chat_log (map_m LLMService.channel_post_data posts)) by frame.
  specialize (Hs env w). specialize (Hp env w). specialize (Hl env w).
  rewrite E in Hs, Hp, Hl. auto.
Qed.

Lemma commit_one_analysis env w a :
  commit_fault env (tick w) = None ->
  session w = [RAnalysis a] ->
  analysis_id a = None ->
  commit env w
  = (Returned tt,
     set_session []
       (set_store (with_analyses
                     (analyses (store w)
                      ++ [stored_analysis a (store w) (utcnow env (S (tick w)))])
                     (store w))
          (set_tick (S (S (tick w))) w))).
Proof.
  intros Hc Hs Hid. unfold commit. rewrite Hc, Hs. simpl. rewrite Hid. reflexivity.
Qed.



(* ===================================================================== *)
(** ** The dependent operations                                           *)
(* ===================================================================== *)

(** The tests of [flush_row] in a hypothesis that it succeeded. *)
Ltac flush_row_cases H :=
  repeat match type of H with
         | (if ?b then _ else _) = _ => destruct b
         | match ?o with Some _ => _ | None => _ end = _ => destruct o
         end;
  try discriminate.

Lemma flush_analyses clock pending :
  Forall is_analysis pending ->
  forall n d d' n', flush clock n pending d = (inr d', n') ->
                    content_plans d' = content_plans d.
Proof.
  induction 1 as [|r pending Hr _ IH]; intros n d d' n' Hf; simpl in Hf.
  - by injection Hf as <- _.
  - destruct r; try contradiction. simpl in Hf.
    destruct (insert_id _ _); [|discriminate].
    apply IH in Hf. exact Hf.
Qed.

#[local] Instance keeps_plans_tick plans : Stable (keeps_plans plans) set_tick.
Proof. intros c w H. exact H. Qed.

#[local] Instance keeps_plans_chat_log plans : Stable (keeps_plans plans) set_chat_log.
Proof. intros c w H. exact H. Qed.

Lemma add_analysis_keeps_plans plans a : maintains (keeps_plans plans) (add (RAnalysis a)).
Proof.
  intros env w [Hs Hp]. split; [|exact Hp].
  cbn. apply Forall_app. split; [exact Hs | by constructor].
Qed.

Lemma commit_keeps_plans plans : maintains (keeps_plans plans) commit.
Proof.
  intros env w [Hs Hp]. unfold commit.
  destruct (commit_fault env (tick w)); [by split|].
  destruct (flush _ _ _ _) as [[e|d] n'] eqn:Hf; [by split|].
  split; [constructor|]. cbn. rewrite <- Hp. by eapply flush_analyses.
Qed.

#[local] Hint Resolve add_analysis_keeps_plans commit_keeps_plans : frame.

Lemma analyze_channel_content_keeps_plans plans c :
  maintains (keeps_plans plans) (LLMService.analyze_channel_content c).
Proof. frame. Qed.

#[local] Hint Resolve analyze_channel_content_keeps_plans : frame.

Lemma channel_analysis_data_keeps_plans plans c :
  maintains (keeps_plans plans) (LLMService.channel_analysis_data c).
Proof. frame. Qed.

(** After a guarded model call the request is the last one of the log. *)
Lemma guarded_call_log env w system user temperature max_tokens
    (k : string -> M json) (h : exn -> M json) :
  (forall r, preserves chat_log (k r)) ->
  (forall e, preserves chat_log (h e)) ->
  chat_log (snd (try_except
                   (bind (LLMService.acreate system user temperature max_tokens) k)
                   h env w))
  = chat_log w
    ++ [Build_ChatRequest LLMService.model system user temperature max_tokens].
Proof.
  intros Hk Hh. unfold try_except, bind. rewrite acreate_run.
  destruct (chat_completion _ _ _) as [r|e].
  - specialize (Hk r env
      (set_chat_log
         (chat_log w ++ [Build_ChatRequest LLMService.model system user temperature max_tokens])
         (set_tick (S (tick w)) w))).
    destruct (k r env _) as [[a|e] w3]; cbn in *.
    + exact Hk.
    + rewrite Hh. exact Hk.
  - rewrite Hh. reflexivity.
Qed.

Lemma plan_block_keeps_log c result :
  preserves chat_log
    (parsed <- LLMService.loads result ;;
     match parsed with
     | JSONDecodeError _ => ret (LLMService.parse_failure result)
     | LoadsRaised e => raise e
     | Loaded plan_data =>
         today <- LLMService.now ;;
         days_of_plan <- lift (items plan_data) ;;
         for_each days_of_plan (fun '(day_key, day_plan) =>
           content_plan <- lift (LLMService.plan_row c today day_key day_plan) ;;
           add (RContentPlan content_plan)) ;;;
         commit ;;;
         ret (JObj [("success", JBool true); ("content_plan", plan_data)])
     end).
Proof. frame. Qed.

Lemma survey_block_keeps_log c result :
  preserves chat_log
    (parsed <- LLMService.loads result ;;
     match parsed with
     | JSONDecodeError _ => ret (LLMService.parse_failure result)
     | LoadsRaised e => raise e
     | Loaded survey_data =>
         title <- lift (getitem survey_data "title") ;;
         description <- lift (getitem survey_data "description") ;;
         questions <- lift (getitem survey_data "questions") ;;
         add (RSurvey
                {| survey_id := None;
                   survey_channel_id := c;
                   survey_title := title;
                   survey_description := description;
                   survey_questions := json_dumps questions;
                   survey_status := "draft";
                   survey_created_at := None;
                   survey_updated_at := None |}) ;;;
         commit ;;;
         ret (JObj [("success", JBool true); ("survey", survey_data)])
     end).
Proof. frame. Qed.

(** The gathering step when there is no stored analysis. *)
Lemma channel_analysis_data_inline env w c :
  query_fault env (tick w) = None ->
  LLMService.select_latest_analysis c (store w) = None ->
  LLMService.channel_analysis_data c env w
  = LLMService.analyze_channel_content c env (after_query w).
Proof.
  intros Hq Hnone. unfold LLMService.channel_analysis_data.
  rewrite (bind_returned _ _ _ _ _ _ (query_sound _ env w Hq)), Hnone. reflexivity.
Qed.

(** A text is found in what is built around it. *)
Lemma prefix_append p s : String.prefix p (p +:+ s) = true.
Proof.
  induction p as [|a p IH]; [by destruct s|].
  change (String a p +:+ s) with (String a (p +:+ s)).
  cbn [String.prefix]. destruct (Ascii.ascii_dec a a); [exact IH | contradiction].
Qed.

Lemma is_infix_append before p after : is_infix p (before +:+ p +:+ after) = true.
Proof.
  induction before as [|a before IH].
  - change ("" +:+ p +:+ after) with (p +:+ after).
    destruct (p +:+ after) eqn:E; cbn [is_infix].
    + rewrite <- E, prefix_append. reflexivity.
    + rewrite <- E, prefix_append. reflexivity.
  - change (String a before +:+ p +:+ after) with (String a (before +:+ p +:+ after)).
    cbn [is_infix]. rewrite IH. apply orb_true_r.
Qed.

Lemma plan_prompt_embeds analysis_data days :
  is_infix (json_dumps_indent 0 analysis_data) (LLMService.plan_prompt analysis_data days)
  = true.
Proof. apply is_infix_append. Qed.

Lemma survey_prompt_embeds analysis_data :
  is_infix (json_dumps_indent 0 analysis_data) (LLMService.survey_prompt analysis_data)
  = true.
Proof. apply is_infix_append. Qed.

(** C10.  With no stored channel analysis, when the inline
    [analyze_channel_content] returns the error payload
    [{"error": message}], both dependent operations go on: each sends one
    more request to the model, and the text of that request holds the
    payload, encoded as [json.dumps(..., indent=2)] encodes it. *)
Theorem upstream_error_goes_into_the_prompt env w c days message w1 :
  query_fault env (tick w) = None ->
  LLMService.select_latest_analysis c (store w) = None ->
  LLMService.analyze_channel_content c env (after_query w)
  = (Returned (JObj [("error", JStr message)]), w1) ->
  let payload := JObj [("error", JStr message)] in
  (exists request,
     chat_log (snd (LLMService.generate_content_plan c days env w))
     = chat_log w1 ++ [request]
     /\ request = plan_request payload days
     /\ is_infix (json_dumps_indent 0 payload) (chat_user request) = true)
  /\ (exists request,
        chat_log (snd (LLMService.generate_survey c env w))
        = chat_log w1 ++ [request]
        /\ request = survey_request payload
        /\ is_infix (json_dumps_indent 0 payload) (chat_user request) = true).
Proof.
  intros Hq Hnone Hinline payload.
  pose proof (channel_analysis_data_inline env w c Hq Hnone) as Hdata.
  rewrite Hinline in Hdata. split.
  - exists (plan_request payload days). split; [|split; [reflexivity|]].
    + unfold LLMService.generate_content_plan.
      rewrite (bind_returned _ _ _ _ _ _ Hdata).
      apply guarded_call_log.
      * intros r. apply plan_block_keeps_log.
      * intros e. frame.
    + apply plan_prompt_embeds.
  - exists (survey_request payload). split; [|split; [reflexivity|]].
    + unfold LLMService.generate_survey.
      rewrite (bind_returned _ _ _ _ _ _ Hdata).
      apply guarded_call_log.
      * intros r. apply survey_block_keeps_log.
      * intros e. frame.
    + apply survey_prompt_embeds.
Qed.

Lemma upstream_error_goes_into_the_prompt_witness :
  let env := Examples.quiet_env Examples.apology in
  let payload := JObj [("error", JStr "No posts found for analysis")] in
  (exists request,
     chat_log (snd (LLMService.generate_content_plan 1 3 env Examples.initial_world))
     = [] ++ [request]
     /\ request = plan_request payload 3
     /\ is_infix (json_dumps_indent 0 payload) (chat_user request) = true)
  /\ (exists request,
        chat_log (snd (LLMService.generate_survey 1 env Examples.initial_world))
        = [] ++ [request]
        /\ request = survey_request payload
        /\ is_infix (json_dumps_indent 0 payload) (chat_user request) = true).
Proof.
  exact (upstream_error_goes_into_the_prompt
           (Examples.quiet_env Examples.apology) Examples.initial_world 1 3
           "No posts found for analysis" (after_query (after_query Examples.initial_world))
           eq_refl eq_refl eq_refl).
Defined.



(* ===================================================================== *)
(** ** Integers in texts                                                  *)
(* ===================================================================== *)

(** *** Decimal numerals *)

Lemma pretty_N_char_digit d :
  (d < 10)%N ->
  is_digit (pretty_N_char d) = true /\ digit_val (pretty_N_char d) = Z.of_N d.
Proof.
  intros H.
  assert (d = 0 \/ d = 1 \/ d = 2 \/ d = 3 \/ d = 4 \/ d = 5 \/ d = 6 \/ d = 7
          \/ d = 8 \/ d = 9)%N as Hd by lia.
  repeat destruct Hd as [->|Hd]; try subst d; by compute.
Qed.

Lemma digits_pretty_N_go x : forall s b,
  (0 < x)%N -> digits 0 b (pretty_N_go x s) = digits (Z.of_N x) true s.
Proof.
  induction (N.lt_wf_0 x) as [x _ IH]. intros s b Hx.
  rewrite pretty_N_go_step by exact Hx.
  destruct (pretty_N_char_digit (x `mod` 10)%N) as [Hd Hv]; [by apply N.mod_lt|].
  assert (Hx10 : Z.of_N x = 10 * Z.of_N (x `div` 10) + Z.of_N (x `mod` 10)).
  { pose proof (N.div_mod x 10 ltac:(lia)) as Hdm. lia. }
  destruct (decide (x `div` 10 = 0)%N) as [H0|H0].
  - rewrite H0, pretty_N_go_0. simpl. rewrite Hd, Hv, Hx10, H0. reflexivity.
  - rewrite IH; [| apply N.div_lt; lia | by apply N.neq_0_lt_0].
    simpl. rewrite Hd, Hv, Hx10. reflexivity.
Qed.

Lemma digits_pretty_N x : digits 0 false (pretty x) = Some (Z.of_N x).
Proof.
  unfold pretty, pretty_N. destruct (decide (x = 0)%N) as [->|Hx]; [reflexivity|].
  rewrite digits_pretty_N_go by lia. reflexivity.
Qed.

(** *** Strings and their characters *)

Lemma append_cons c s t : String c s +:+ t = String c (s +:+ t).
Proof. reflexivity. Qed.

Lemma append_nil_l s : "" +:+ s = s.
Proof. reflexivity. Qed.

Lemma append_nil_r s : s +:+ "" = s.
Proof.
  induction s as [|c s IH]; [reflexivity|]. by rewrite append_cons, IH.
Qed.

Lemma list_ascii_app s1 s2 :
  list_ascii_of_string (s1 +:+ s2) = list_ascii_of_string s1 ++ list_ascii_of_string s2.
Proof.
  induction s1 as [|c s1 IH]; [reflexivity|]. rewrite append_cons. simpl. by rewrite IH.
Qed.

Lemma string_of_list_app l1 l2 :
  string_of_list_ascii (l1 ++ l2) = string_of_list_ascii l1 +:+ string_of_list_ascii l2.
Proof.
  induction l1 as [|c l1 IH]; [reflexivity|]. simpl. by rewrite append_cons, IH.
Qed.

Lemma reverse_app s1 s2 : reverse (s1 +:+ s2) = reverse s2 +:+ reverse s1.
Proof. unfold reverse. by rewrite list_ascii_app, rev_app_distr, string_of_list_app. Qed.

Lemma reverse_involutive s : reverse (reverse s) = s.
Proof.
  unfold reverse.
  by rewrite list_ascii_of_string_of_list_ascii, rev_involutive,
    string_of_list_ascii_of_string.
Qed.

Lemma blank_reverse s : blank s -> blank (reverse s).
Proof.
  unfold blank, reverse. rewrite list_ascii_of_string_of_list_ascii.
  intros H. apply Forall_forall. intros c Hc.
  apply list_elem_of_In, in_rev, list_elem_of_In in Hc.
  by eapply Forall_forall in H.
Qed.

Lemma no_space_reverse s : no_space s -> no_space (reverse s).
Proof.
  unfold no_space, reverse. rewrite list_ascii_of_string_of_list_ascii.
  intros H. apply Forall_forall. intros c Hc.
  apply list_elem_of_In, in_rev, list_elem_of_In in Hc.
  by eapply Forall_forall in H.
Qed.

Lemma lstrip_blank ws s : blank ws -> lstrip (ws +:+ s) = lstrip s.
Proof.
  unfold blank. induction ws as [|c ws IH]; [reflexivity|].
  intros H. inversion H as [|? ? Hc Hws]; subst.
  rewrite append_cons. simpl. rewrite Hc. by apply IH.
Qed.

Lemma lstrip_all_blank ws : blank ws -> lstrip ws = "".
Proof.
  unfold blank. induction ws as [|c ws IH]; simpl; [reflexivity|].
  intros H. inversion H as [|? ? Hc Hws]; subst. rewrite Hc. by apply IH.
Qed.

Lemma lstrip_no_space s t : no_space s -> s <> "" -> lstrip (s +:+ t) = s +:+ t.
Proof.
  unfold no_space. destruct s as [|c s]; [done|].
  intros H _. inversion H as [|? ? Hc _]; subst.
  rewrite append_cons. simpl. by rewrite Hc.
Qed.

(** [strip] takes the blanks around a text without blanks away. *)
Lemma strip_around before body after :
  blank before -> blank after -> no_space body ->
  strip (before +:+ body +:+ after) = body.
Proof.
  intros Hb Ha Hn. unfold strip. rewrite lstrip_blank by exact Hb.
  destruct (decide (body = "")) as [->|Hne].
  - rewrite append_nil_l, (lstrip_all_blank after Ha). reflexivity.
  - rewrite lstrip_no_space by assumption.
    rewrite reverse_app, lstrip_blank by by apply blank_reverse.
    rewrite <- (append_nil_r (reverse body)) at 1.
    rewrite lstrip_no_space.
    + by rewrite append_nil_r, reverse_involutive.
    + by apply no_space_reverse.
    + intros H. apply Hne. rewrite <- (reverse_involutive body), H. reflexivity.
Qed.

Lemma strip_no_space body : no_space body -> strip body = body.
Proof.
  intros H. rewrite <- (strip_around "" body "") at 2; [| constructor | constructor | exact H].
  by rewrite append_nil_l, append_nil_r.
Qed.

Lemma pretty_N_go_chars x : forall s,
  Forall numeral_char (list_ascii_of_string s) ->
  Forall numeral_char (list_ascii_of_string (pretty_N_go x s)).
Proof.
  induction (N.lt_wf_0 x) as [x _ IH]. intros s Hs.
  destruct (decide (x = 0)%N) as [->|Hx]; [by rewrite pretty_N_go_0|].
  rewrite pretty_N_go_step by lia. apply IH; [apply N.div_lt; lia|].
  simpl. constructor; [|exact Hs]. left.
  apply pretty_N_char_digit. by apply N.mod_lt.
Qed.

Lemma pretty_N_chars (x : N) : Forall numeral_char (list_ascii_of_string (pretty x)).
Proof.
  unfold pretty, pretty_N. destruct (decide (x = 0)%N).
  - repeat constructor.
  - apply pretty_N_go_chars. constructor.
Qed.

Lemma pretty_Z_chars (n : Z) : Forall numeral_char (list_ascii_of_string (pretty n)).
Proof.
  destruct n as [|p|p]; unfold pretty, pretty_Z.
  - repeat constructor.
  - apply pretty_N_chars.
  - rewrite list_ascii_app. apply Forall_app. split.
    + constructor; [by right | constructor].
    + apply pretty_N_chars.
Qed.

Lemma numeral_no_space s :
  Forall numeral_char (list_ascii_of_string s) -> no_space s.
Proof.
  intros H. eapply Forall_impl; [exact H|]. clear H. intros c [Hc| ->]; [|reflexivity].
  unfold is_digit, is_space in *. cbv zeta in *.
  apply andb_true_iff in Hc as [H1 H2]. apply N.leb_le in H1, H2.
  rewrite orb_false_iff, !andb_false_iff, !N.leb_gt. lia.
Qed.

Lemma pretty_N_head (x : N) :
  exists c s, pretty x = String c s /\ is_digit c = true.
Proof.
  pose proof (pretty_N_chars x) as H.
  assert (Hd : digits 0 false (pretty x) = Some (Z.of_N x)) by apply digits_pretty_N.
  destruct (pretty x) as [|c s]; [discriminate|].
  exists c, s. split; [reflexivity|].
  simpl in Hd. destruct (is_digit c); [reflexivity|].
  destruct (Ascii.eqb c "_" && false) eqn:E; [|discriminate].
  by rewrite andb_false_r in E.
Qed.

(** [int] reads back the decimal numeral of an integer. *)
Lemma int_pretty (n : Z) : int (pretty n) = Some n.
Proof.
  unfold int. rewrite strip_no_space by apply numeral_no_space, pretty_Z_chars.
  destruct n as [|p|p]; [reflexivity | |].
  - change (pretty (Z.pos p)) with (pretty (N.pos p)).
    destruct (pretty_N_head (N.pos p)) as (c & s & E & Hc).
    pose proof (digits_pretty_N (N.pos p)) as Hd. rewrite E in Hd |- *.
    assert (c <> "-"%char /\ c <> "+"%char) as [Hm Hp].
    { split; intros ->; discriminate. }
    destruct c as [[] [] [] [] [] [] [] []]; try exact Hd; congruence.
  - change (pretty (Z.neg p)) with ("-" +:+ pretty (N.pos p)).
    rewrite append_cons, append_nil_l.
    rewrite digits_pretty_N. reflexivity.
Qed.

Lemma int_around before after (n : Z) :
  blank before -> blank after ->
  int (strip (before +:+ pretty n +:+ after)) = Some n.
Proof.
  intros Hb Ha. rewrite strip_around; [apply int_pretty | assumption..|].
  apply numeral_no_space, pretty_Z_chars.
Qed.

Lemma digits_foreign c s : forall acc b,
  c ∈ list_ascii_of_string s -> is_digit c = false -> c <> "_"%char ->
  digits acc b s = None.
Proof.
  induction s as [|c0 s IH]; intros acc b Hin Hd Hu; simpl in *.
  - inversion Hin.
  - apply elem_of_cons in Hin as [<-|Hin].
    + rewrite Hd. destruct (Ascii.eqb_spec c "_"); [contradiction | reflexivity].
    + destruct (is_digit c0); [by apply IH|].
      destruct (Ascii.eqb c0 "_" && b); [|reflexivity].
      destruct s as [|d s']; [reflexivity|].
      destruct (is_digit d); [by apply IH | reflexivity].
Qed.

Lemma lstrip_keeps c s :
  c ∈ list_ascii_of_string s -> is_space c = false -> c ∈ list_ascii_of_string (lstrip s).
Proof.
  induction s as [|c0 s IH]; simpl; intros Hin Hc; [exact Hin|].
  destruct (is_space c0) eqn:E; [|exact Hin].
  apply elem_of_cons in Hin as [->|Hin]; [congruence | by apply IH].
Qed.

Lemma reverse_keeps c s :
  c ∈ list_ascii_of_string s <-> c ∈ list_ascii_of_string (reverse s).
Proof.
  unfold reverse. rewrite list_ascii_of_string_of_list_ascii.
  rewrite !list_elem_of_In. apply in_rev.
Qed.

Lemma strip_keeps c s :
  c ∈ list_ascii_of_string s -> is_space c = false -> c ∈ list_ascii_of_string (strip s).
Proof.
  intros Hin Hc. unfold strip.
  apply (proj1 (reverse_keeps c _)). apply lstrip_keeps; [|exact Hc].
  apply (proj1 (reverse_keeps c _)). apply lstrip_keeps; assumption.
Qed.

(** A text that holds a foreign character is no integer literal. *)
Lemma int_foreign c s :
  c ∈ list_ascii_of_string s -> foreign c -> int s = None.
Proof.
  intros Hin (_ & Hd & Hs & Hu & Hm & Hp). unfold int.
  pose proof (strip_keeps c s Hin Hs) as Hin'.
  destruct (strip s) as [|c0 s0]; [inversion Hin'|].
  assert (Hrest : c0 = "-"%char \/ c0 = "+"%char -> c ∈ list_ascii_of_string s0).
  { intros Hc0. simpl in Hin'. apply elem_of_cons in Hin' as [->|H]; [|exact H].
    destruct Hc0; contradiction. }
  assert (Hall : digits 0 false (String c0 s0) = None) by by eapply digits_foreign.
  destruct c0 as [[] [] [] [] [] [] [] []]; try exact Hall.
  - rewrite (digits_foreign c s0); [reflexivity | apply Hrest; by right | done..].
  - rewrite (digits_foreign c s0); [reflexivity | apply Hrest; by left | done..].
Qed.

(** *** [split] *)

Lemma split_no_sep sep s :
  sep ∉ list_ascii_of_string s -> split sep s = [s].
Proof.
  induction s as [|c s IH]; simpl; intros H; [reflexivity|].
  apply not_elem_of_cons in H as [Hc Hs].
  destruct (Ascii.eqb_spec c sep); [congruence|].
  by rewrite IH.
Qed.

Lemma split_at_sep sep a b :
  sep ∉ list_ascii_of_string a ->
  split sep (a +:+ String sep b) = a :: split sep b.
Proof.
  induction a as [|c a IH]; intros H.
  - rewrite append_nil_l. simpl. by rewrite Ascii.eqb_refl.
  - simpl in H. apply not_elem_of_cons in H as [Hc Ha].
    rewrite append_cons. simpl.
    destruct (Ascii.eqb_spec c sep); [congruence|].
    by rewrite IH.
Qed.

Lemma numeral_no_underscore (n : Z) : "_"%char ∉ list_ascii_of_string (pretty n).
Proof.
  intros Hin. pose proof (pretty_Z_chars n) as H.
  eapply Forall_forall in H; [|exact Hin]. destruct H as [H|H]; discriminate.
Qed.

Lemma day_number_numeral prefix (n : Z) :
  "_"%char ∉ list_ascii_of_string prefix ->
  LLMService.day_number (prefix +:+ "_" +:+ pretty n) = Returned n.
Proof.
  intros H. unfold LLMService.day_number.
  change ("_" +:+ pretty n) with (String "_" (pretty n)).
  rewrite split_at_sep by exact H.
  rewrite split_no_sep by apply numeral_no_underscore.
  cbn [index nth_error]. by rewrite int_pretty.
Qed.

Lemma day_number_no_underscore key :
  "_"%char ∉ list_ascii_of_string key ->
  LLMService.day_number key = Raised (Exn "IndexError" "list index out of range").
Proof.
  intros H. unfold LLMService.day_number. by rewrite split_no_sep.
Qed.

(* ===================================================================== *)
(** ** The rows of a content plan                                         *)
(* ===================================================================== *)

(** A commit leaves the session empty. *)
Lemma commit_closes env w : session (snd (commit env w)) = [].
Proof.
  unfold commit. destruct (commit_fault env (tick w)); [reflexivity|].
  destruct (flush _ _ _ _) as [[e|d] n']; reflexivity.
Qed.

Lemma add_commit_closes {A} (r : Row) (x : A) :
  maintains (fun w => session w = []) (add r ;;; commit ;;; ret x).
Proof.
  intros env w _. unfold bind at 1. cbn [add modify].
  unfold bind. pose proof (commit_closes env (set_session (session w ++ [r]) w)) as H.
  destruct (commit env _) as [[[]|e] w1]; exact H.
Qed.

Lemma analyze_channel_content_closes c :
  maintains (fun w => session w = []) (LLMService.analyze_channel_content c).
Proof.
  unfold LLMService.analyze_channel_content.
  apply maintains_bind; [frame | intros [|post posts]]; [frame|].
  apply maintains_bind; [frame | intros posts_data].
  apply maintains_try_except; [| intros e; frame].
  apply maintains_bind; [frame | intros result].
  apply maintains_bind; [frame | intros parsed].
  apply maintains_bind; [frame | intros analysis_data].
  apply add_commit_closes.
Qed.

#[local] Hint Resolve analyze_channel_content_closes : frame.

Lemma channel_analysis_data_closes c :
  maintains (fun w => session w = []) (LLMService.channel_analysis_data c).
Proof. frame. Qed.

Lemma flush_plans clock rows :
  Forall insertable rows ->
  forall n d, exists stored,
    flush clock n (List.map RContentPlan rows) d
    = (inr (with_content_plans (content_plans d ++ stored) d), (n + length rows)%nat)
    /\ Forall2 stores rows stored.
Proof.
  induction 1 as [|r rows (Hid & Hbound & Hnull) _ IH]; intros n d.
  - exists []. simpl. rewrite app_nil_r, Nat.add_0_r. destruct d. split; [reflexivity | constructor].
  - simpl. rewrite Hbound, Hnull, Hid. simpl.
    edestruct IH as (stored & -> & Hstored).
    eexists (_ :: stored). split.
    + cbn. rewrite <- app_assoc, Nat.add_succ_r. reflexivity.
    + constructor; [|exact Hstored]. repeat split.
Qed.

(** The loop over the days adds one pending row per day. *)
Lemma for_each_plan_rows c today kvs rows env w :
  Forall2 (fun kv row => LLMService.plan_row c today (fst kv) (snd kv) = Returned row)
          kvs rows ->
  for_each kvs (fun '(day_key, day_plan) =>
      content_plan <- lift (LLMService.plan_row c today day_key day_plan) ;;
      add (RContentPlan content_plan)) env w
  = (Returned tt, set_session (session w ++ List.map RContentPlan rows) w).
Proof.
  intros H. revert w. induction H as [|[k v] row kvs rows Hrow _ IH]; intros w.
  - simpl. rewrite app_nil_r. destruct w. reflexivity.
  - simpl in *. unfold bind at 1. unfold bind at 1, lift at 1. rewrite Hrow.
    cbn [add modify]. rewrite IH. cbn. rewrite <- app_assoc. reflexivity.
Qed.

Lemma plan_row_insertable c today k v row :
  LLMService.plan_row c today k v = Returned row -> plan_id row = None.
Proof.
  unfold LLMService.plan_row. intros H.
  destruct (LLMService.day_number k); [|discriminate].
  destruct (add_days _ _); [|discriminate].
  destruct (getitem v "title"); [|discriminate].
  destruct (getitem v "description"); [|discriminate].
  by injection H as <-.
Qed.


(** A number of days that is representable gives a date. *)
Lemma representable_date today delta :
  representable today delta -> exists date, add_days today delta = Returned date.
Proof.
  intros [Hdelta Hord]. unfold add_days, MAX_DELTA_DAYS, MAXORDINAL.
  destruct (Z.ltb_spec 999999999 (Z.abs delta)) as [?|_]; [lia|].
  destruct (Z.ltb_spec 0 (toordinal today + delta)) as [_|?]; [|lia].
  destruct (Z.leb_spec (toordinal today + delta) 3652059) as [_|?]; [|lia].
  cbn [andb]. destruct (ord2ymd _) as [[y m] d]. by eexists.
Qed.

(** The entry of a day makes a row that an INSERT accepts, and what is
    stored for it is the row of that day. *)
Lemma day_entry_row c today kv :
  day_entry today kv ->
  exists row,
    LLMService.plan_row c today (fst kv) (snd kv) = Returned row
    /\ insertable row
    /\ forall s, stores row s -> row_of_day c today kv s.
Proof.
  intros (prefix & n & fields & title & description
          & Hprefix & Hkey & Hdate & Hvalue & Htitle & Hdescription).
  destruct (representable_date _ _ Hdate) as [date Hadd].
  unfold LLMService.plan_row.
  rewrite Hkey, (day_number_numeral prefix n Hprefix), Hadd, Hvalue.
  cbn [getitem]. rewrite Htitle, Hdescription.
  eexists. split; [reflexivity|]. split; [by repeat split|].
  intros s (Hc & Ht & Hd & Hp & Hcontent & Hstatus). cbn in *.
  exists prefix, n, fields, title, description.
  rewrite Hp, Ht, Hd, Hcontent, Hc, Hstatus, Hvalue. by repeat split.
Qed.

Lemma day_entries_rows c today kvs :
  Forall (day_entry today) kvs ->
  exists rows,
    Forall2 (fun kv row => LLMService.plan_row c today (fst kv) (snd kv) = Returned row)
            kvs rows
    /\ Forall insertable rows
    /\ forall stored, Forall2 stores rows stored ->
                      Forall2 (row_of_day c today) kvs stored.
Proof.
  induction 1 as [|kv kvs Hkv _ (rows & Hrows & Hins & Hstored)].
  - exists []. split; [constructor|]. split; [constructor|].
    intros stored H. inversion H. constructor.
  - destruct (day_entry_row c today kv Hkv) as (row & Hrow & Hrow_ins & Hrow_stored).
    exists (row :: rows). split; [by constructor|]. split; [by constructor|].
    intros stored H. inversion H as [|? s ? stored' Hs Hrest]; subst.
    constructor; [by apply Hrow_stored | by apply Hstored].
Qed.

(** C6, as the code has it.  From a fresh session, when the model's
    answer decodes to an object every entry of which is the entry of a
    day (its key is a text without underscore, an underscore and the
    numeral of a day number [n] with [today + (n - 1)] days a date of the
    calendar; its value is an object with a text title and a text
    description), and the commit goes through, [generate_content_plan]
    returns the plan and stores one row per key of the answer, in one
    commit: the row of the day [n] is planned at [today + (n - 1)] days
    with status "draft".  The number of rows is the number of keys of the
    answer; [days] only goes into the prompt. *)
Theorem plan_rows_follow_the_answer env w c days data w1 result kvs :
  session w = [] ->
  LLMService.channel_analysis_data c env w = (Returned data, w1) ->
  answers env (tick w1) (plan_request data days) result ->
  json_loads env result = Loaded (JObj kvs) ->
  Forall (day_entry (utcnow env (S (tick w1)))) kvs ->
  commit_fault env (S (S (tick w1))) = None ->
  exists w' stored,
    LLMService.generate_content_plan c days env w
    = (Returned (JObj [("success", JBool true); ("content_plan", JObj kvs)]), w')
    /\ content_plans (store w') = content_plans (store w) ++ stored
    /\ length stored = length kvs
    /\ Forall2 (row_of_day c (utcnow env (S (tick w1)))) kvs stored.
Proof.
  intros Hs Hdata Hanswer Hj Hwf Hc.
  destruct (day_entries_rows c _ _ Hwf) as (rows & Hrows & Hins & Hrows_stored).
  assert (Hs1 : session w1 = []).
  { pose proof (channel_analysis_data_closes c env w Hs) as H. by rewrite Hdata in H. }
  assert (Hp1 : content_plans (store w1) = content_plans (store w)).
  { assert (Hk : keeps_plans (content_plans (store w)) w).
    { split; [rewrite Hs; constructor | reflexivity]. }
    apply (channel_analysis_data_keeps_plans _ c env) in Hk.
    rewrite Hdata in Hk. apply Hk. }
  destruct (flush_plans (utcnow env) rows Hins (S (S (S (tick w1)))) (store w1))
    as (stored & Hflush & Hstored).
  eexists _, stored. split; [|split; [|split]].
  - unfold LLMService.generate_content_plan.
    rewrite (bind_returned _ _ _ _ _ _ Hdata).
    apply try_returned.
    erewrite bind_returned; [| rewrite acreate_run; rewrite Hanswer; reflexivity].
    unfold LLMService.loads at 1, asks at 1, bind at 1. rewrite Hj.
    unfold bind at 1, LLMService.now at 1, bind at 1, step at 1, asks at 1.
    unfold bind at 1, lift at 1, items at 1.
    erewrite bind_returned; [| apply for_each_plan_rows; exact Hrows].
    erewrite bind_returned; [reflexivity|].
    unfold commit. cbn [tick set_tick set_session set_chat_log session store].
    rewrite Hc, Hs1. cbn [app]. rewrite Hflush. reflexivity.
  - cbn. rewrite Hp1. reflexivity.
  - apply Hrows_stored in Hstored. symmetry. by eapply Forall2_length.
  - by apply Hrows_stored.
Qed.

Lemma plan_rows_follow_the_answer_witness :
  let env := Examples.quiet_env Examples.plan_of_three in
  exists w' stored,
    LLMService.generate_content_plan 1 3 env Examples.world_with_analysis
    = (Returned (JObj [("success", JBool true);
                       ("content_plan", JObj Examples.three_days)]), w')
    /\ content_plans (store w') = [] ++ stored
    /\ length stored = 3%nat
    /\ Forall2 (row_of_day 1 Examples.t0) Examples.three_days stored.
Proof.
  eapply (plan_rows_follow_the_answer (Examples.quiet_env Examples.plan_of_three)
            Examples.world_with_analysis 1 3).
  - reflexivity.
  - vm_compute. reflexivity.
  - reflexivity.
  - vm_compute. reflexivity.
  - assert (Hday : "_"%char ∉ list_ascii_of_string "day").
    { intros H. repeat (apply elem_of_cons in H as [H|H]; [discriminate|]). inversion H. }
    assert (Hdate : forall n, 1 <= n <= 3 -> representable Examples.t0 (n - 1)).
    { intros n Hn. unfold representable.
      change (toordinal Examples.t0) with 738944. lia. }
    repeat constructor.
    + exists "day", 1, [("title", JStr "A"); ("description", JStr "a")], "A", "a".
      split; [exact Hday|]. split; [reflexivity|]. split; [apply Hdate; lia|].
      repeat split.
    + exists "day", 2, [("title", JStr "B"); ("description", JStr "b")], "B", "b".
      split; [exact Hday|]. split; [reflexivity|]. split; [apply Hdate; lia|].
      repeat split.
    + exists "day", 3, [("title", JStr "C"); ("description", JStr "c")], "C", "c".
      split; [exact Hday|]. split; [reflexivity|]. split; [apply Hdate; lia|].
      repeat split.
  - reflexivity.
Defined.

(** The three rows of that run: today, the day after, and the first of
    March, since 2024 is a leap year. *)
Example three_days_of_plan :
  List.map (fun p => (plan_planned_date p, plan_status p, plan_id p))
    (content_plans (store (snd (LLMService.generate_content_plan 1 3
                                  (Examples.quiet_env Examples.plan_of_three)
                                  Examples.world_with_analysis))))
  = [(Datetime 2024 2 28 9 30 0 0, "draft", Some 1);
     (Datetime 2024 2 29 9 30 0 0, "draft", Some 2);
     (Datetime 2024 3 1 9 30 0 0, "draft", Some 3)].
Proof. vm_compute. reflexivity. Qed.

(** C6, as stated, fails.  With [days = 3] and a stored analysis, an
    answer that decodes to a plan of one day makes one row, not three;
    and an answer that decodes to a day without description makes no row
    and comes back as an error. *)
Lemma rows_do_not_follow_days :
  (exists w',
     LLMService.generate_content_plan 1 3 (Examples.quiet_env Examples.plan_of_one)
                                      Examples.world_with_analysis
     = (Returned (JObj [("success", JBool true);
                        ("content_plan", JObj [("day_1", Examples.a_day "A" "a")])]), w')
     /\ length (content_plans (store w')) = 1%nat)
  /\ (exists w',
        LLMService.generate_content_plan 1 3
          (Examples.quiet_env Examples.plan_without_description)
          Examples.world_with_analysis
        = (Returned (JObj [("error", JStr "'description'")]), w')
        /\ json_loads (Examples.quiet_env Examples.plan_without_description)
                      Examples.plan_without_description
           = Loaded (JObj [("day_1", JObj [("title", JStr "A")])])
        /\ content_plans (store w') = []).
Proof.
  split; eexists; (split; [vm_compute; reflexivity|]); [|split]; reflexivity.
Qed.

(* ===================================================================== *)
(** ** The boundary of the operations                                     *)
(* ===================================================================== *)

Lemma has_post_select p d :
  has_post p d -> exists post, LLMService.select_post p d = Some post.
Proof.
  unfold has_post, LLMService.select_post. intros H.
  induction H as [q l Hq|q l _ IH]; simpl.
  - rewrite bool_decide_eq_true_2 by exact Hq. by eexists.
  - destruct (bool_decide _); [by eexists | exact IH].
Qed.

Lemma world_with_analysis_decodes :
  stored_analysis_decodes Examples.failing_provider_env 1 Examples.world_with_analysis.
Proof.
  intros a Ha.
  assert (a = Examples.an_analysis) as ->.
  { change (Some Examples.an_analysis = Some a) in Ha. congruence. }
  eexists. vm_compute. reflexivity.
Qed.

(** *** The first query that fails *)

Lemma first_fault_zero env t e :
  first_fault env t 0 e -> query_fault env t = Some e.
Proof. intros [_ H]. by rewrite Nat.add_0_r in H. Qed.

Lemma first_fault_succ env t k e :
  first_fault env t (S k) e ->
  query_fault env t = None /\ first_fault env (S t) k e.
Proof.
  intros [Hnone Hsome]. split.
  - specialize (Hnone 0%nat ltac:(lia)). by rewrite Nat.add_0_r in Hnone.
  - split.
    + intros i Hi. specialize (Hnone (S i) ltac:(lia)).
      by rewrite Nat.add_succ_r in Hnone.
    + by rewrite Nat.add_succ_r in Hsome.
Qed.

(** One entry of the posts: two queries. *)
Lemma channel_post_data_fails env post w k e :
  (k < 2)%nat -> first_fault env (tick w) k e ->
  LLMService.channel_post_data post env w = (Raised e, set_tick (S (tick w + k)) w).
Proof.
  intros Hk Hf. unfold LLMService.channel_post_data.
  destruct k as [|k].
  - apply first_fault_zero in Hf.
    rewrite (bind_raised _ _ _ _ _ _ (query_faulty _ env w e Hf)).
    by rewrite Nat.add_0_r.
  - apply first_fault_succ in Hf as [Hnone Hf].
    assert (k = 0)%nat as -> by lia. apply first_fault_zero in Hf.
    rewrite (bind_returned _ _ _ _ _ _ (query_sound _ env w Hnone)).
    rewrite (bind_raised _ _ _ _ _ _ (query_faulty _ env (set_tick (S (tick w)) w) e Hf)).
    cbn. by rewrite Nat.add_1_r.
Qed.

Lemma channel_post_data_run env post w :
  query_fault env (tick w) = None -> query_fault env (S (tick w)) = None ->
  exists d, LLMService.channel_post_data post env w
            = (Returned d, set_tick (S (S (tick w))) w).
Proof.
  intros H0 H1. unfold LLMService.channel_post_data.
  rewrite (bind_returned _ _ _ _ _ _ (query_sound _ env w H0)).
  rewrite (bind_returned _ _ _ _ _ _ (query_sound _ env (set_tick (S (tick w)) w) H1)).
  by eexists.
Qed.

Lemma gather_posts_fails env posts : forall w k e,
  (k < 2 * length posts)%nat -> first_fault env (tick w) k e ->
  map_m LLMService.channel_post_data posts env w
  = (Raised e, set_tick (S (tick w + k)) w).
Proof.
  induction posts as [|post posts IH]; intros w k e Hk Hf; [simpl in Hk; lia|].
  cbn [map_m].
  destruct (decide (k < 2)%nat) as [Hlt|Hge].
  - by rewrite (bind_raised _ _ _ _ _ _ (channel_post_data_fails env post w k e Hlt Hf)).
  - destruct k as [|[|k]]; [lia | lia |].
    apply first_fault_succ in Hf as [H0 Hf].
    apply first_fault_succ in Hf as [H1 Hf].
    destruct (channel_post_data_run env post w H0 H1) as [d Hd].
    rewrite (bind_returned _ _ _ _ _ _ Hd).
    erewrite bind_raised; [| apply (IH _ k e); [simpl in Hk; lia | exact Hf]].
    cbn. replace (S (tick w + S (S k))) with (S (S (S (tick w + k)))) by lia. reflexivity.
Qed.

(** *** Gathering *)

Lemma analyze_channel_content_gathering env w c k e :
  first_fault env (tick w) k e ->
  (k < channel_queries c (store w))%nat ->
  LLMService.analyze_channel_content c env w = (Raised e, set_tick (S (tick w + k)) w).
Proof.
  intros Hf Hk. unfold LLMService.analyze_channel_content, channel_queries in *.
  destruct k as [|k].
  - apply first_fault_zero in Hf.
    rewrite (bind_raised _ _ _ _ _ _ (query_faulty _ env w e Hf)).
    by rewrite Nat.add_0_r.
  - apply first_fault_succ in Hf as [H0 Hf].
    rewrite (bind_returned _ _ _ _ _ _ (query_sound _ env w H0)).
    destruct (LLMService.select_posts c (store w)) as [|post posts] eqn:Hposts;
      [simpl in Hk; lia|].
    erewrite bind_raised;
      [| apply (gather_posts_fails env (post :: posts) (set_tick (S (tick w)) w) k e);
         [lia | exact Hf]].
    cbn. by rewrite Nat.add_succ_r.
Qed.

Lemma analyze_post_performance_gathering env w p k e :
  first_fault env (tick w) k e ->
  (k < post_queries p (store w))%nat ->
  LLMService.analyze_post_performance p env w = (Raised e, set_tick (S (tick w + k)) w).
Proof.
  intros Hf Hk. unfold LLMService.analyze_post_performance, post_queries in *.
  destruct k as [|k].
  - apply first_fault_zero in Hf.
    rewrite (bind_raised _ _ _ _ _ _ (query_faulty _ env w e Hf)).
    by rewrite Nat.add_0_r.
  - apply first_fault_succ in Hf as [H0 Hf].
    rewrite (bind_returned _ _ _ _ _ _ (query_sound _ env w H0)).
    destruct (LLMService.select_post p (store w)) as [post|]; [|lia].
    destruct k as [|k].
    + apply first_fault_zero in Hf.
      rewrite (bind_raised _ _ _ _ _ _ (query_faulty _ env (set_tick (S (tick w)) w) e Hf)).
      cbn. by rewrite Nat.add_1_r.
    + apply first_fault_succ in Hf as [H1 Hf]. assert (k = 0)%nat as -> by lia.
      apply first_fault_zero in Hf.
      rewrite (bind_returned _ _ _ _ _ _ (query_sound _ env (set_tick (S (tick w)) w) H1)).
      rewrite (bind_raised _ _ _ _ _ _
                 (query_faulty _ env (set_tick (S (S (tick w))) (set_tick (S (tick w)) w)) e Hf)).
      cbn. replace (tick w + 2)%nat with (S (S (tick w))) by lia. reflexivity.
Qed.

Lemma channel_analysis_data_gathering env w c k e :
  first_fault env (tick w) k e ->
  (k < dependent_queries c (store w))%nat ->
  LLMService.channel_analysis_data c env w = (Raised e, set_tick (S (tick w + k)) w).
Proof.
  intros Hf Hk. unfold LLMService.channel_analysis_data, dependent_queries in *.
  destruct k as [|k].
  - apply first_fault_zero in Hf.
    rewrite (bind_raised _ _ _ _ _ _ (query_faulty _ env w e Hf)).
    by rewrite Nat.add_0_r.
  - apply first_fault_succ in Hf as [H0 Hf].
    rewrite (bind_returned _ _ _ _ _ _ (query_sound _ env w H0)).
    destruct (LLMService.select_latest_analysis c (store w)) as [a|]; [cbn in Hk; lia|].
    rewrite (analyze_channel_content_gathering env (set_tick (S (tick w)) w) c k e Hf)
      by (change (store (set_tick (S (tick w)) w)) with (store w); lia).
    cbn. by rewrite Nat.add_succ_r.
Qed.

Lemma channel_analysis_data_undecoded env w c a e :
  query_fault env (tick w) = None ->
  LLMService.select_latest_analysis c (store w) = Some a ->
  undecoded env (analysis_content a) e ->
  LLMService.channel_analysis_data c env w = (Raised e, after_query w).
Proof.
  intros Hq Ha Hu. unfold LLMService.channel_analysis_data.
  rewrite (bind_returned _ _ _ _ _ _ (query_sound _ env w Hq)), Ha.
  unfold LLMService.loads, asks, bind.
  destruct Hu as [-> | (msg & -> & ->)]; reflexivity.
Qed.

(** *** Inside the guarded block *)

Lemma raises_bind {A B} (m : M A) (k : A -> M B) env w a w1 e :
  m env w = (Returned a, w1) -> raises e (k a) env w1 -> raises e (bind m k) env w.
Proof. intros Hm [w' Hk]. exists w'. by rewrite (bind_returned _ _ _ _ _ _ Hm). Qed.

Lemma raises_here {A B} (m : M A) (k : A -> M B) env w e :
  raises e m env w -> raises e (bind m k) env w.
Proof. intros [w' Hm]. exists w'. by apply bind_raised. Qed.

Lemma raises_raise {A} e env w : raises e (@raise A e) env w.
Proof. by exists w. Qed.

Lemma raises_lift {A} e env w : raises e (@lift A (Raised e)) env w.
Proof. by exists w. Qed.

(** The exception of a guarded block comes back as [{"error": str(e)}]. *)
Lemma guarded_reports env w e (body : M json) :
  raises e body env w ->
  exists w',
    try_except body (fun e => ret (LLMService.error_dict (str_exn e))) env w
    = (Returned (error_of e), w').
Proof. intros [w' H]. exists w'. by rewrite (try_raised _ _ _ _ _ _ H). Qed.

Lemma raises_commit env w e : commits_fail env e -> raises e commit env w.
Proof. intros He. eexists. unfold commit. by rewrite He. Qed.

Lemma raises_provider env w e system user temperature max_tokens :
  provider_fails env e ->
  raises e (LLMService.acreate system user temperature max_tokens) env w.
Proof. intros Hp. eexists. rewrite acreate_run, Hp. reflexivity. Qed.

Lemma acreate_answered env w system user temperature max_tokens result :
  model_answers env result ->
  LLMService.acreate system user temperature max_tokens env w
  = (Returned result,
     set_chat_log
       (chat_log w ++ [Build_ChatRequest LLMService.model system user temperature max_tokens])
       (set_tick (S (tick w)) w)).
Proof. intros Hm. rewrite acreate_run, Hm. reflexivity. Qed.

Lemma loads_run env w text :
  LLMService.loads text env w = (Returned (json_loads env text), w).
Proof. reflexivity. Qed.

(** The run of each operation up to its guarded block. *)
Lemma channel_gathered env w c :
  queries_sound env -> LLMService.select_posts c (store w) <> [] ->
  exists posts_data w1,
    LLMService.analyze_channel_content c env w
    = try_except
        (result <- LLMService.acreate LLMService.channel_system
                     (LLMService.channel_prompt (JArr posts_data)) "0.3" 2000 ;;
         parsed <- LLMService.loads result ;;
         analysis_data <-
           match parsed with
           | Loaded j => ret j
           | JSONDecodeError _ => ret (JObj [("analysis", JStr result)])
           | LoadsRaised e => raise e
           end ;;
         add (RAnalysis {| analysis_id := None;
                           analysis_channel_id := Some c;
                           analysis_post_id := None;
                           analysis_type := "channel_content";
                           analysis_content := json_dumps analysis_data;
                           analysis_created_at := None |}) ;;;
         commit ;;;
         ret analysis_data)
        (fun e => ret (LLMService.error_dict (str_exn e))) env w1.
Proof.
  intros Hq Hposts. unfold LLMService.analyze_channel_content.
  rewrite (bind_returned _ _ _ _ _ _ (query_sound _ env w (Hq _))).
  destruct (LLMService.select_posts c (store w)) as [|post posts]; [contradiction|].
  destruct (gather_posts env (set_tick (S (tick w)) w) (post :: posts) Hq)
    as (posts_data & w1 & E & _).
  rewrite (bind_returned _ _ _ _ _ _ E). by exists posts_data, w1.
Qed.

Lemma analyze_channel_content_reports env w c e :
  queries_sound env -> LLMService.select_posts c (store w) <> [] ->
  (provider_fails env e
   \/ (exists result, model_answers env result /\ json_loads env result = LoadsRaised e)
   \/ (exists result j, model_answers env result /\ json_loads env result = Loaded j
                        /\ commits_fail env e)) ->
  exists w', LLMService.analyze_channel_content c env w = (Returned (error_of e), w').
Proof.
  intros Hq Hposts Hcause.
  destruct (channel_gathered env w c Hq Hposts) as (posts_data & w1 & ->).
  apply guarded_reports.
  destruct Hcause as [Hp | [(result & Hm & Hj) | (result & j & Hm & Hj & He)]].
  - apply raises_here. by apply raises_provider.
  - eapply raises_bind; [by apply acreate_answered|].
    eapply raises_bind; [apply loads_run|]. rewrite Hj.
    apply raises_here, raises_raise.
  - eapply raises_bind; [by apply acreate_answered|].
    eapply raises_bind; [apply loads_run|]. rewrite Hj.
    eapply raises_bind; [reflexivity|].
    eapply raises_bind; [reflexivity|].
    apply raises_here. by apply raises_commit.
Qed.

Lemma analyze_post_performance_reports env w p e :
  queries_sound env -> has_post p (store w) ->
  (provider_fails env e
   \/ (exists result, model_answers env result /\ json_loads env result = LoadsRaised e)
   \/ (exists result j, model_answers env result /\ json_loads env result = Loaded j
                        /\ commits_fail env e)) ->
  exists w', LLMService.analyze_post_performance p env w = (Returned (error_of e), w').
Proof.
  intros Hq Hpost Hcause. unfold LLMService.analyze_post_performance.
  rewrite (bind_returned _ _ _ _ _ _ (query_sound _ env w (Hq _))).
  destruct (has_post_select _ _ Hpost) as [post ->].
  rewrite (bind_returned _ _ _ _ _ _ (query_sound _ env _ (Hq _))).
  rewrite (bind_returned _ _ _ _ _ _ (query_sound _ env _ (Hq _))).
  apply guarded_reports.
  destruct Hcause as [Hp | [(result & Hm & Hj) | (result & j & Hm & Hj & He)]].
  - apply raises_here. by apply raises_provider.
  - eapply raises_bind; [by apply acreate_answered|].
    eapply raises_bind; [apply loads_run|]. rewrite Hj. apply raises_raise.
  - eapply raises_bind; [by apply acreate_answered|].
    eapply raises_bind; [apply loads_run|]. rewrite Hj.
    eapply raises_bind; [reflexivity|].
    apply raises_here. by apply raises_commit.
Qed.

Lemma for_each_app {A} (l1 l2 : list A) (body : A -> M unit) env w :
  for_each (l1 ++ l2) body env w = (for_each l1 body ;;; for_each l2 body) env w.
Proof.
  revert w. induction l1 as [|x l1 IH]; intros w; [reflexivity|].
  cbn [app for_each]. unfold bind.
  destruct (body x env w) as [[[]|e] w1]; [|reflexivity].
  rewrite IH. reflexivity.
Qed.

Lemma unreadable_day_row c today k v e :
  unreadable_day today (k, v) e -> LLMService.plan_row c today k v = Raised e.
Proof.
  unfold LLMService.plan_row, LLMService.day_number, unreadable_day. cbn [fst snd].
  intros [Hkey | (prefix & n & Hprefix & Hkey & Hdate & Hmissing)].
  - by rewrite Hkey.
  - pose proof (day_number_numeral prefix n Hprefix) as Hday.
    unfold LLMService.day_number in Hday. rewrite Hkey, Hday.
    destruct (representable_date _ _ Hdate) as [date ->].
    destruct Hmissing as [-> | [[title ->] [-> | [_ []]]]]; reflexivity.
Qed.

Lemma for_each_plan_rows_raises c today good bad rest e env w :
  Forall (day_entry today) good -> unreadable_day today bad e ->
  raises e (for_each (good ++ bad :: rest) (fun '(day_key, day_plan) =>
              content_plan <- lift (LLMService.plan_row c today day_key day_plan) ;;
              add (RContentPlan content_plan))) env w.
Proof.
  intros Hgood Hbad.
  destruct (day_entries_rows c today good Hgood) as (rows & Hrows & _).
  unfold raises. rewrite for_each_app.
  rewrite (bind_returned _ _ _ _ _ _ (for_each_plan_rows c today good rows env w Hrows)).
  destruct bad as [k v]. cbn [for_each].
  eexists. apply bind_raised. apply bind_raised.
  unfold lift. by rewrite (unreadable_day_row c today k v e Hbad).
Qed.

Lemma now_run env w :
  LLMService.now env w = (Returned (utcnow env (tick w)), set_tick (S (tick w)) w).
Proof. reflexivity. Qed.

Lemma generate_content_plan_reports env w c days e :
  queries_sound env -> stored_analysis_decodes env c w ->
  (provider_fails env e
   \/ (exists result, model_answers env result /\ json_loads env result = LoadsRaised e)
   \/ (exists result j, model_answers env result /\ json_loads env result = Loaded j
                        /\ items j = Raised e)
   \/ (exists result good bad rest,
         model_answers env result
         /\ json_loads env result = Loaded (JObj (good ++ bad :: rest))
         /\ (forall n, Forall (day_entry (utcnow env n)) good)
         /\ (forall n, unreadable_day (utcnow env n) bad e))
   \/ (exists result kvs,
         model_answers env result /\ json_loads env result = Loaded (JObj kvs)
         /\ (forall n, Forall (day_entry (utcnow env n)) kvs)
         /\ commits_fail env e)) ->
  exists w', LLMService.generate_content_plan c days env w = (Returned (error_of e), w').
Proof.
  intros Hq Hdec Hcause.
  destruct (channel_analysis_data_returns env w c Hq Hdec) as (d & w1 & E).
  unfold LLMService.generate_content_plan. rewrite (bind_returned _ _ _ _ _ _ E).
  apply guarded_reports.
  destruct Hcause as [Hp | [(result & Hm & Hj) | [(result & j & Hm & Hj & Hitems)
    | [(result & good & bad & rest & Hm & Hj & Hgood & Hbad)
      | (result & kvs & Hm & Hj & Hkvs & He)]]]].
  - apply raises_here. by apply raises_provider.
  - eapply raises_bind; [by apply acreate_answered|].
    eapply raises_bind; [apply loads_run|]. rewrite Hj. apply raises_raise.
  - eapply raises_bind; [by apply acreate_answered|].
    eapply raises_bind; [apply loads_run|]. rewrite Hj.
    eapply raises_bind; [apply now_run|].
    apply raises_here. rewrite Hitems. apply raises_lift.
  - eapply raises_bind; [by apply acreate_answered|].
    eapply raises_bind; [apply loads_run|]. rewrite Hj.
    eapply raises_bind; [apply now_run|].
    eapply raises_bind; [reflexivity|].
    apply raises_here. by apply for_each_plan_rows_raises.
  - eapply raises_bind; [by apply acreate_answered|].
    eapply raises_bind; [apply loads_run|]. rewrite Hj.
    eapply raises_bind; [apply now_run|].
    eapply raises_bind; [reflexivity|].
    match goal with
    | |- context [LLMService.plan_row c ?today] =>
        destruct (day_entries_rows c today kvs (Hkvs _)) as (rows & Hrows & _)
    end.
    eapply raises_bind; [by apply for_each_plan_rows|].
    apply raises_here. by apply raises_commit.
Qed.

Lemma generate_survey_reports env w c e :
  queries_sound env -> stored_analysis_decodes env c w ->
  (provider_fails env e
   \/ (exists result, model_answers env result /\ json_loads env result = LoadsRaised e)
   \/ (exists result j, model_answers env result /\ json_loads env result = Loaded j
                        /\ first_missing j ["title"; "description"; "questions"] e)
   \/ (exists result j, model_answers env result /\ json_loads env result = Loaded j
                        /\ has_keys j ["title"; "description"; "questions"]
                        /\ commits_fail env e)) ->
  exists w', LLMService.generate_survey c env w = (Returned (error_of e), w').
Proof.
  intros Hq Hdec Hcause.
  destruct (channel_analysis_data_returns env w c Hq Hdec) as (d & w1 & E).
  unfold LLMService.generate_survey. rewrite (bind_returned _ _ _ _ _ _ E).
  apply guarded_reports.
  destruct Hcause as [Hp | [(result & Hm & Hj) | [(result & j & Hm & Hj & Hmissing)
    | (result & j & Hm & Hj & Hkeys & He)]]].
  - apply raises_here. by apply raises_provider.
  - eapply raises_bind; [by apply acreate_answered|].
    eapply raises_bind; [apply loads_run|]. rewrite Hj. apply raises_raise.
  - eapply raises_bind; [by apply acreate_answered|].
    eapply raises_bind; [apply loads_run|]. rewrite Hj.
    destruct Hmissing as [H1 | [[title H1] [H2 | [[description H2] [H3 | [_ []]]]]]].
    + apply raises_here. rewrite H1. apply raises_lift.
    + eapply raises_bind; [unfold lift; by rewrite H1|].
      apply raises_here. rewrite H2. apply raises_lift.
    + eapply raises_bind; [unfold lift; by rewrite H1|].
      eapply raises_bind; [unfold lift; by rewrite H2|].
      apply raises_here. rewrite H3. apply raises_lift.
  - eapply raises_bind; [by apply acreate_answered|].
    eapply raises_bind; [apply loads_run|]. rewrite Hj.
    apply Forall_cons in Hkeys as [[title H1] Hkeys].
    apply Forall_cons in Hkeys as [[description H2] Hkeys].
    apply Forall_cons in Hkeys as [[questions H3] _].
    eapply raises_bind; [unfold lift; by rewrite H1|].
    eapply raises_bind; [unfold lift; by rewrite H2|].
    eapply raises_bind; [unfold lift; by rewrite H3|].
    eapply raises_bind; [reflexivity|].
    apply raises_here. by apply raises_commit.
Qed.

(** C1, as the code has it.  An exception raised while an operation
    gathers its input is not caught: the first query the storage engine
    fails, among the queries made before the guarded block, leaves the
    operation as that exception, and so does a stored analysis that does
    not decode.  When the storage engine answers the queries (and, for
    the two dependent operations, the stored analysis decodes), no
    exception leaves the operation; and an exception raised inside the
    guarded block comes back as the value [{"error": str(e)}]: a failure
    of the provider, an exception of the decoder, an answer that cannot
    be read (not an object, an entry that is not that of a day, a missing
    key), a commit that fails. *)
Theorem orchestrator_boundary env w :
  (forall k e, first_fault env (tick w) k e ->
     (forall c, (k < channel_queries c (store w))%nat ->
        LLMService.analyze_channel_content c env w
        = (Raised e, set_tick (S (tick w + k)) w))
     /\ (forall p, (k < post_queries p (store w))%nat ->
           LLMService.analyze_post_performance p env w
           = (Raised e, set_tick (S (tick w + k)) w))
     /\ (forall c days, (k < dependent_queries c (store w))%nat ->
           LLMService.generate_content_plan c days env w
           = (Raised e, set_tick (S (tick w + k)) w))
     /\ (forall c, (k < dependent_queries c (store w))%nat ->
           LLMService.generate_survey c env w
           = (Raised e, set_tick (S (tick w + k)) w)))
  /\ (forall c a e,
        query_fault env (tick w) = None ->
        LLMService.select_latest_analysis c (store w) = Some a ->
        undecoded env (analysis_content a) e ->
        (forall days, LLMService.generate_content_plan c days env w
                      = (Raised e, after_query w))
        /\ LLMService.generate_survey c env w = (Raised e, after_query w))
  /\ (queries_sound env ->
      (forall c, exists d w', LLMService.analyze_channel_content c env w = (Returned d, w'))
      /\ (forall p, exists d w', LLMService.analyze_post_performance p env w = (Returned d, w'))
      /\ (forall c days, stored_analysis_decodes env c w ->
            exists d w', LLMService.generate_content_plan c days env w = (Returned d, w'))
      /\ (forall c, stored_analysis_decodes env c w ->
            exists d w', LLMService.generate_survey c env w = (Returned d, w'))
      /\ (forall e c,
            LLMService.select_posts c (store w) <> [] ->
            provider_fails env e \/ decoder_fails env e
            \/ commit_fails_after env e (fun _ => True) ->
            exists w', LLMService.analyze_channel_content c env w
                       = (Returned (error_of e), w'))
      /\ (forall e p,
            has_post p (store w) ->
            provider_fails env e \/ decoder_fails env e
            \/ commit_fails_after env e (fun _ => True) ->
            exists w', LLMService.analyze_post_performance p env w
                       = (Returned (error_of e), w'))
      /\ (forall e c days,
            stored_analysis_decodes env c w ->
            provider_fails env e \/ decoder_fails env e \/ plan_unreadable env e
            \/ commit_fails_after env e (plan_of_days env) ->
            exists w', LLMService.generate_content_plan c days env w
                       = (Returned (error_of e), w'))
      /\ (forall e c,
            stored_analysis_decodes env c w ->
            provider_fails env e \/ decoder_fails env e \/ survey_unreadable env e
            \/ commit_fails_after env e (fun j => has_keys j survey_keys) ->
            exists w', LLMService.generate_survey c env w
                       = (Returned (error_of e), w'))).
Proof.
  split; [|split].
  - intros k e Hf. split; [|split; [|split]].
    + intros c Hk. by apply analyze_channel_content_gathering.
    + intros p Hk. by apply analyze_post_performance_gathering.
    + intros c days Hk. unfold LLMService.generate_content_plan.
      by rewrite (bind_raised _ _ _ _ _ _ (channel_analysis_data_gathering env w c k e Hf Hk)).
    + intros c Hk. unfold LLMService.generate_survey.
      by rewrite (bind_raised _ _ _ _ _ _ (channel_analysis_data_gathering env w c k e Hf Hk)).
  - intros c a e Hq Ha Hu.
    pose proof (channel_analysis_data_undecoded env w c a e Hq Ha Hu) as E.
    split; [intros days|].
    + unfold LLMService.generate_content_plan. by rewrite (bind_raised _ _ _ _ _ _ E).
    + unfold LLMService.generate_survey. by rewrite (bind_raised _ _ _ _ _ _ E).
  - intros Hq. split; [|split; [|split; [|split; [|split; [|split; [|split]]]]]].
    + intros c. apply analyze_channel_content_returns, Hq.
    + intros p. apply analyze_post_performance_returns, Hq.
    + intros c days Hdec. by apply generate_content_plan_returns.
    + intros c Hdec. by apply generate_survey_returns.
    + intros e c Hposts Hcause. apply analyze_channel_content_reports; [done | done |].
      destruct Hcause as [H | [H | (result & j & Hm & Hj & _ & He)]];
        [by left | by right; left | right; right; by exists result, j].
    + intros e p Hpost Hcause. apply analyze_post_performance_reports; [done | done |].
      destruct Hcause as [H | [H | (result & j & Hm & Hj & _ & He)]];
        [by left | by right; left | right; right; by exists result, j].
    + intros e c days Hdec Hcause. apply generate_content_plan_reports; [done | done |].
      destruct Hcause as [H | [H | [(result & j & Hm & Hj & Hbad)
        | (result & j & Hm & Hj & (kvs & -> & Hkvs) & He)]]].
      * by left.
      * by right; left.
      * destruct Hbad as [Hitems | (good & bad & rest & -> & Hgood & Hbad)].
        -- right; right; left. by exists result, j.
        -- right; right; right; left. by exists result, good, bad, rest.
      * right; right; right; right. by exists result, kvs.
    + intros e c Hdec Hcause. apply generate_survey_reports; [done | done |].
      destruct Hcause as [H | [H | [(result & j & Hm & Hj & Hbad)
        | (result & j & Hm & Hj & Hkeys & He)]]].
      * by left.
      * by right; left.
      * right; right; left. by exists result, j.
      * right; right; right. by exists result, j.
Qed.

Lemma orchestrator_boundary_witness :
  let quota := JObj [("error", JStr "You exceeded your current quota")] in
  first_fault Examples.locked_env 0 0 Examples.locked
  /\ LLMService.generate_survey 1 Examples.locked_env Examples.initial_world
     = (Raised Examples.locked, after_query Examples.initial_world)
  /\ queries_sound Examples.failing_provider_env
  /\ provider_fails Examples.failing_provider_env Examples.out_of_quota
  /\ (exists w',
        LLMService.analyze_channel_content 1 Examples.failing_provider_env
                                           Examples.world_with_analysis
        = (Returned quota, w'))
  /\ (exists w',
        LLMService.generate_content_plan 1 3 Examples.failing_provider_env
                                         Examples.world_with_analysis
        = (Returned quota, w')).
Proof.
  assert (Hf : first_fault Examples.locked_env 0 0 Examples.locked).
  { split; [intros i Hi; lia | reflexivity]. }
  assert (Hq : queries_sound Examples.failing_provider_env) by (intros n; reflexivity).
  assert (Hp : provider_fails Examples.failing_provider_env Examples.out_of_quota)
    by (intros n request; reflexivity).
  split; [exact Hf|]. split.
  { destruct (orchestrator_boundary Examples.locked_env Examples.initial_world)
      as (Hgather & _).
    destruct (Hgather 0%nat Examples.locked Hf) as (_ & _ & _ & Hsurvey).
    apply (Hsurvey 1). unfold dependent_queries. cbn. lia. }
  split; [exact Hq|]. split; [exact Hp|].
  destruct (orchestrator_boundary Examples.failing_provider_env
              Examples.world_with_analysis) as (_ & _ & Hinside).
  destruct (Hinside Hq) as (_ & _ & _ & _ & Hchannel & _ & Hplan & _).
  split.
  - apply (Hchannel Examples.out_of_quota 1); [discriminate | by left].
  - apply (Hplan Examples.out_of_quota 1 3); [apply world_with_analysis_decodes | by left].
Defined.

(** C1, as stated, fails: a query that gathers the input is outside the
    guarded block, and its failure leaves the operation as an exception. *)
Lemma gathering_failure_escapes :
  fst (LLMService.analyze_channel_content 1 Examples.locked_env Examples.initial_world)
  = Raised Examples.locked
  /\ fst (LLMService.generate_content_plan 1 7 Examples.locked_env Examples.initial_world)
     = Raised Examples.locked
  /\ fst (LLMService.analyze_post_performance 1 Examples.locked_env Examples.initial_world)
     = Raised Examples.locked
  /\ fst (LLMService.generate_survey 1 Examples.locked_env Examples.initial_world)
     = Raised Examples.locked.
Proof. repeat split; vm_compute; reflexivity. Qed.

(* ===================================================================== *)
(** ** The collector                                                      *)
(* ===================================================================== *)

(** *** What a collection run adds *)

Lemma pending_post_keys_app l1 l2 :
  pending_post_keys (l1 ++ l2) = pending_post_keys l1 ++ pending_post_keys l2.
Proof. unfold pending_post_keys. apply flat_map_app. Qed.

Lemma flush_row_post_keys now r d d' :
  flush_row now r d = inr d' ->
  post_keys d' = post_keys d ++ pending_post_keys [r].
Proof.
  unfold post_keys, pending_post_keys.
  destruct r; simpl; intros H; flush_row_cases H; injection H as <-; cbn;
    rewrite ?map_app, ?app_nil_r; reflexivity.
Qed.

Lemma flush_post_keys clock pending :
  forall n d d' n', flush clock n pending d = (inr d', n') ->
                    post_keys d' = post_keys d ++ pending_post_keys pending.
Proof.
  induction pending as [|r pending IH]; intros n d d' n' H; simpl in H.
  - injection H as <- _. by rewrite app_nil_r.
  - destruct (flush_row (clock n) r d) as [e|d1] eqn:Hrow; [discriminate|].
    apply IH in H. rewrite H, (flush_row_post_keys _ _ _ _ Hrow).
    change (r :: pending) with ([r] ++ pending).
    rewrite pending_post_keys_app, <- app_assoc. reflexivity.
Qed.

Lemma for_each_add {A} (row : A -> Row) (l : list A) env w :
  for_each l (fun x => add (row x)) env w
  = (Returned tt, set_session (session w ++ List.map row l) w).
Proof.
  revert w. induction l as [|x l IH]; intros w; simpl.
  - rewrite app_nil_r. by destruct w.
  - unfold bind. cbn [add modify]. rewrite IH. cbn. by rewrite <- app_assoc.
Qed.

(** The reactions of a message become pending reactions, with the
    identifier the instance has at that time. *)
Lemma save_reactions_run message entity env w :
  exists rs,
    Collector._save_reactions message entity env w
    = (Returned tt, set_session (session w ++ List.map RReaction rs) w)
    /\ Forall (fun r => reaction_post_id r = Collector.id_if_post entity
                        /\ reaction_comment_id r = Collector.id_if_comment entity) rs.
Proof.
  unfold Collector._save_reactions. destruct (msg_reactions message) as [results|].
  - exists (List.map (fun reaction =>
              {| reaction_id := None;
                 reaction_post_id := Collector.id_if_post entity;
                 reaction_comment_id := Collector.id_if_comment entity;
                 reaction_type := Collector.reaction_label (rc_reaction reaction);
                 reaction_count := rc_count reaction;
                 reaction_created_at := None;
                 reaction_updated_at := None |}) results).
    split.
    + rewrite List.map_map. apply (for_each_add (fun reaction => RReaction _)).
    + induction results; constructor; auto.
  - exists []. simpl. rewrite app_nil_r. split; [by destruct w | constructor].
Qed.

Lemma pending_post_keys_reactions rs : pending_post_keys (List.map RReaction rs) = [].
Proof. induction rs; simpl; auto. Qed.

(** The loop of [get_posts] returns, and adds to the session one pending
    post per message of the history that has a text, under the channel's
    identifier. *)
Lemma collect_posts_run entity messages env w :
  exists posts_data rows,
    Collector.collect_posts entity messages env w
    = (Returned posts_data, set_session (session w ++ rows) w)
    /\ pending_post_keys rows = history_keys (entity_id entity) messages.
Proof.
  revert w. induction messages as [|message messages IH]; intros w;
    cbn [Collector.collect_posts].
  - exists [], []. rewrite app_nil_r. split; [by destruct w | reflexivity].
  - unfold history_keys. cbn [List.filter]. unfold has_text at 1, Collector.text_of.
    destruct (msg_message message) as [text|]; [|apply IH].
    destruct (String.eqb text ""); [apply IH|]. cbn [negb].
    unfold bind at 1. cbn [add modify].
    match goal with
    | |- context [bind (Collector._save_reactions message ?e) _ env ?w0] =>
        destruct (save_reactions_run message e env w0) as (rs & Hrs & _)
    end.
    rewrite (bind_returned _ _ _ _ _ _ Hrs).
    edestruct IH as (posts_data & rows & Hrun & Hkeys).
    rewrite (bind_returned _ _ _ _ _ _ Hrun).
    eexists (_ :: posts_data), (_ :: List.map RReaction rs ++ rows). split.
    + cbn. rewrite <- !app_assoc. reflexivity.
    + cbn. rewrite pending_post_keys_app, pending_post_keys_reactions, Hkeys. reflexivity.
Qed.

(** A run of [get_posts] that returns has appended one post per message
    of the history that has a text, whatever was stored before. *)
Lemma get_posts_appends self channel_username limit offset_date env w posts_data w' :
  Collector.get_posts self channel_username limit offset_date env w
  = (Returned posts_data, w') ->
  exists entity history,
    get_entity env (tick w)
      (ByUsername (Collector.default_channel self channel_username)) = Returned entity
    /\ get_history env (S (tick w)) entity limit offset_date = Returned history
    /\ post_keys (store w')
       = post_keys (store w) ++ history_keys (entity_id entity) history.
Proof.
  unfold Collector.get_posts. intros H.
  unfold bind at 1, Collector.client_get_entity in H.
  unfold bind at 1, step at 1 in H. unfold bind at 1, asks at 1, lift at 1 in H.
  destruct (get_entity env (tick w) _) as [entity|e] eqn:He; [|discriminate].
  unfold bind at 1, Collector.client_get_history in H.
  unfold bind at 1, step at 1 in H. unfold bind at 1, asks at 1, lift at 1 in H.
  cbn [tick set_tick] in H.
  destruct (get_history env _ _ _ _) as [history|e] eqn:Hh; [|discriminate].
  exists entity, history.
  split; [first [reflexivity | assumption]|]. split; [first [reflexivity | assumption]|].
  unfold with_session in H. unfold bind at 1 in H.
  match type of H with
  | context [Collector.collect_posts entity history env ?w0] =>
      destruct (collect_posts_run entity history env w0) as (pd & rows & Hrun & Hkeys)
  end.
  rewrite Hrun in H.
  unfold bind, commit in H. cbn [tick session store set_session set_tick app] in H.
  destruct (commit_fault env _); [discriminate|].
  destruct (flush _ _ _ _) as [[e|d] n'] eqn:Hflush; [discriminate|].
  injection H as <- <-. cbn.
  rewrite (flush_post_keys _ _ _ _ _ _ Hflush), Hkeys. reflexivity.
Qed.

(** *** Stored users keep distinct external identifiers *)

Lemma filter_all {A} (p : A -> bool) (l : list A) :
  (forall x, p x = true) -> List.filter p l = l.
Proof.
  intros Hp. induction l as [|x l IH]; simpl; [reflexivity|].
  by rewrite Hp, IH.
Qed.

Lemma existsb_tg_id tg l :
  existsb (fun u' => user_tg_id u' =? tg) l = false -> tg ∉ List.map user_tg_id l.
Proof.
  induction l as [|u l IH]; simpl; intros H Hin.
  - inversion Hin.
  - apply orb_false_elim in H as [Hu Hl].
    apply elem_of_cons in Hin as [->|Hin].
    + by rewrite Z.eqb_refl in Hu.
    + by apply IH.
Qed.

Lemma flush_row_users now r d d' :
  fresh_row r -> NoDup (user_keys d) ->
  flush_row now r d = inr d' -> NoDup (user_keys d').
Proof.
  intros Hfresh Hnodup H. destruct r as [u| | | | | | |]; simpl in *.
  - rewrite Hfresh in H. cbn [insert_id] in H.
    rewrite filter_all in H.
    2:{ intros u'. apply negb_true_iff, bool_decide_eq_false.
        intros [[x Hx] _]. discriminate. }
    destruct (existsb _ _) eqn:Hex; [discriminate|].
    injection H as <-. unfold user_keys. cbn. rewrite map_app. cbn.
    apply NoDup_app. split; [exact Hnodup|]. split; [|apply NoDup_singleton].
    intros x Hx Hin. apply list_elem_of_singleton in Hin as ->.
    by apply existsb_tg_id in Hex.
  - flush_row_cases H; by injection H as <-.
  - flush_row_cases H; by injection H as <-.
  - flush_row_cases H; by injection H as <-.
  - flush_row_cases H; by injection H as <-.
  - flush_row_cases H; by injection H as <-.
  - flush_row_cases H; by injection H as <-.
  - flush_row_cases H; by injection H as <-.
Qed.

Lemma flush_users clock pending :
  Forall fresh_row pending ->
  forall n d d' n', NoDup (user_keys d) ->
                    flush clock n pending d = (inr d', n') -> NoDup (user_keys d').
Proof.
  induction 1 as [|r pending Hr _ IH]; intros n d d' n' Hd H; simpl in H.
  - by injection H as <- _.
  - destruct (flush_row (clock n) r d) as [e|d1] eqn:Hrow; [discriminate|].
    eapply IH; [|exact H]. by eapply flush_row_users.
Qed.

#[local] Instance users_unique_tick : Stable users_unique set_tick.
Proof. intros c w H. exact H. Qed.

Lemma add_fresh r : fresh_row r -> maintains users_unique (add r).
Proof.
  intros Hr env w [Hs Hd]. split; [|exact Hd].
  cbn. apply Forall_app. split; [exact Hs | by constructor].
Qed.

Lemma commit_users : maintains users_unique commit.
Proof.
  intros env w [Hs Hd]. unfold commit.
  destruct (commit_fault env (tick w)); [split; [constructor | exact Hd]|].
  destruct (flush _ _ _ _) as [[e|d] n'] eqn:Hf; (split; [constructor|]).
  - exact Hd.
  - cbn. by eapply flush_users.
Qed.

(** A block with a session of its own starts from an empty one, and what
    it leaves pending is dropped. *)
Lemma with_session_users {A} (body : M A) :
  maintains users_unique body -> maintains distinct_users (with_session body).
Proof.
  intros Hbody env w Hd. unfold with_session.
  assert (H0 : users_unique (set_session [] w)) by (split; [constructor | exact Hd]).
  specialize (Hbody env _ H0).
  destruct (body env (set_session [] w)) as [o w1]. destruct Hbody as [_ Hd1].
  exact Hd1.
Qed.

#[local] Instance distinct_users_tick : Stable distinct_users set_tick.
Proof. intros c w H. exact H. Qed.

Lemma save_reactions_users message entity :
  maintains users_unique (Collector._save_reactions message entity).
Proof.
  unfold Collector._save_reactions. destruct (msg_reactions message); [|apply maintains_ret].
  apply maintains_for_each. intros reaction. by apply add_fresh.
Qed.

#[local] Hint Resolve commit_users save_reactions_users : frame.

Lemma collect_posts_users entity messages :
  maintains users_unique (Collector.collect_posts entity messages).
Proof.
  induction messages as [|message messages IH]; simpl; [apply maintains_ret|].
  destruct (Collector.text_of message); [|exact IH].
  apply maintains_bind; [by apply add_fresh | intros _].
  frame.
Qed.

Lemma resolve_author_users reply :
  maintains users_unique (Collector.resolve_author reply).
Proof.
  unfold Collector.resolve_author. destruct (msg_from_id reply); [|apply maintains_ret].
  apply maintains_try_except; [| intros e; apply maintains_ret].
  apply maintains_bind; [frame | intros [user| |]]; try apply maintains_ret.
  apply maintains_bind; [| intros _; apply maintains_ret].
  unfold merge. cbn [user_id]. by apply add_fresh.
Qed.

#[local] Hint Resolve resolve_author_users : frame.

Lemma collect_comments_users post_id replies :
  maintains users_unique (Collector.collect_comments post_id replies).
Proof.
  induction replies as [|reply replies IH]; simpl; [apply maintains_ret|].
  destruct (Collector.text_of reply); [|exact IH].
  apply maintains_bind; [frame | intros user_info].
  apply maintains_bind; [by apply add_fresh | intros _].
  frame.
Qed.

#[local] Hint Resolve collect_posts_users collect_comments_users : frame.

Lemma get_posts_users self channel_username limit offset_date :
  maintains distinct_users (Collector.get_posts self channel_username limit offset_date).
Proof.
  unfold Collector.get_posts.
  apply maintains_bind; [frame | intros entity].
  apply maintains_bind; [frame | intros history].
  apply with_session_users. frame.
Qed.

Lemma get_comments_users self channel_username post_id limit :
  maintains distinct_users (Collector.get_comments self channel_username post_id limit).
Proof.
  unfold Collector.get_comments.
  apply maintains_bind; [frame | intros entity].
  destruct post_id as [post_id|]; [|apply maintains_ret].
  destruct (post_id =? 0); [apply maintains_ret|].
  apply maintains_bind; [frame | intros [message|]]; [|apply maintains_ret].
  apply maintains_bind; [frame | intros replies].
  apply with_session_users. frame.
Qed.

(** C2, as the code has it.  Over stored users with distinct external
    identifiers, a run of [get_posts] or of [get_comments] leaves them
    distinct, whether it returns or raises: the unique [users.tg_id]
    refuses the commit that would store a second one.  Posts have no such
    key: a run of [get_posts] that returns has read a history and appended
    one stored post per message of it that has a text, next to what was
    stored; so a second run over the same history stores every such
    message a second time. *)
Theorem collection_keeps_users_not_posts self channel_username post_id limit offset_date env w :
  NoDup (user_keys (store w)) ->
  NoDup (user_keys (store (snd (Collector.get_posts self channel_username limit
                                  offset_date env w))))
  /\ NoDup (user_keys (store (snd (Collector.get_comments self channel_username post_id
                                     limit env w))))
  /\ (forall posts_data w',
        Collector.get_posts self channel_username limit offset_date env w
        = (Returned posts_data, w') ->
        exists entity history,
          get_entity env (tick w)
            (ByUsername (Collector.default_channel self channel_username))
          = Returned entity
          /\ get_history env (S (tick w)) entity limit offset_date = Returned history
          /\ post_keys (store w')
             = post_keys (store w) ++ history_keys (entity_id entity) history)
  /\ (forall entity history posts_data w1 posts_data' w2,
        (forall n, get_entity env n
                     (ByUsername (Collector.default_channel self channel_username))
                   = Returned entity) ->
        (forall n, get_history env n entity limit offset_date = Returned history) ->
        Collector.get_posts self channel_username limit offset_date env w
        = (Returned posts_data, w1) ->
        Collector.get_posts self channel_username limit offset_date env w1
        = (Returned posts_data', w2) ->
        post_keys (store w2)
        = post_keys (store w) ++ history_keys (entity_id entity) history
                              ++ history_keys (entity_id entity) history).
Proof.
  intros Hd. split; [|split; [|split]].
  - apply (get_posts_users self channel_username limit offset_date env w Hd).
  - apply (get_comments_users self channel_username post_id limit env w Hd).
  - intros posts_data w'. apply get_posts_appends.
  - intros entity history posts_data w1 posts_data' w2 He Hh Hfirst Hsecond.
    apply get_posts_appends in Hfirst as (entity1 & history1 & He1 & Hh1 & Hkeys1).
    apply get_posts_appends in Hsecond as (entity2 & history2 & He2 & Hh2 & Hkeys2).
    rewrite He in He1, He2. injection He1 as <-. injection He2 as <-.
    rewrite Hh in Hh1, Hh2. injection Hh1 as <-. injection Hh2 as <-.
    rewrite Hkeys2, Hkeys1, <- app_assoc. reflexivity.
Qed.

Lemma collection_keeps_users_not_posts_witness :
  let env := Examples.channel_env [Examples.a_reply 11 "first"] in
  let w1 := snd (Collector.get_comments Examples.collector None (Some 1) 100 env
                   Examples.initial_world) in
  user_keys (store w1) = [7]
  /\ NoDup (user_keys (store (snd (Collector.get_comments Examples.collector None (Some 1)
                                     100 env w1))))
  /\ (forall posts_data w',
        Collector.get_posts Examples.collector None 100 None env w1
        = (Returned posts_data, w') ->
        exists entity history,
          get_entity env (tick w1) (ByUsername "testchan") = Returned entity
          /\ get_history env (S (tick w1)) entity 100 None = Returned history
          /\ post_keys (store w')
             = post_keys (store w1) ++ history_keys (entity_id entity) history).
Proof.
  split; [reflexivity|].
  pose proof (collection_keeps_users_not_posts Examples.collector None (Some 1)
                100 None (Examples.channel_env [Examples.a_reply 11 "first"])
                (snd (Collector.get_comments Examples.collector None (Some 1) 100
                        (Examples.channel_env [Examples.a_reply 11 "first"])
                        Examples.initial_world))
                (NoDup_singleton _)) as (_ & Hcomments & Hposts & _).
  split; [exact Hcomments | exact Hposts].
Defined.

(** C2, as stated, fails: collecting the same history twice stores the
    same message twice. *)
Lemma second_collection_duplicates_posts :
  let run :=
    Collector.get_posts Examples.collector None 100 None (Examples.channel_env []) in
  let first := run Examples.initial_world in
  let second := run (snd first) in
  post_keys (store (snd first)) = [(1, 100)]
  /\ post_keys (store (snd second)) = [(1, 100); (1, 100)]
  /\ ~ NoDup (post_keys (store (snd second))).
Proof.
  assert (E : post_keys (store (snd (Collector.get_posts Examples.collector None 100 None
                 (Examples.channel_env [])
                 (snd (Collector.get_posts Examples.collector None 100 None
                         (Examples.channel_env []) Examples.initial_world)))))
              = [(1, 100); (1, 100)]) by (vm_compute; reflexivity).
  cbv zeta. rewrite E. split; [vm_compute; reflexivity|]. split; [reflexivity|].
  intros H. inversion H as [|? ? Hin _]. apply Hin. left.
Qed.

(** *** No stored reaction of a run has a target *)

Lemma flush_row_reactions now r d d' :
  untargeted_row r -> flush_row now r d = inr d' ->
  exists new, reactions d' = reactions d ++ new /\ Forall untargeted new.
Proof.
  intros Hr H. destruct r; simpl in H; flush_row_cases H; injection H as <-; cbn.
  all: try (exists []; rewrite app_nil_r; split; [reflexivity | constructor]).
  eexists [_]. split; [reflexivity|]. constructor; [exact Hr | constructor].
Qed.

Lemma flush_reactions clock pending :
  Forall untargeted_row pending ->
  forall n d d' n', flush clock n pending d = (inr d', n') ->
    exists new, reactions d' = reactions d ++ new /\ Forall untargeted new.
Proof.
  induction 1 as [|r pending Hr _ IH]; intros n d d' n' H; simpl in H.
  - injection H as <- _. exists []. rewrite app_nil_r. split; [reflexivity | constructor].
  - destruct (flush_row (clock n) r d) as [e|d1] eqn:Hrow; [discriminate|].
    destruct (flush_row_reactions _ _ _ _ Hr Hrow) as (new1 & E1 & H1).
    destruct (IH _ _ _ _ H) as (new2 & E2 & H2).
    exists (new1 ++ new2). rewrite E2, E1, <- app_assoc. split; [reflexivity|].
    by apply Forall_app.
Qed.

#[local] Instance reactions_since_tick base : Stable (reactions_since base) set_tick.
Proof. intros c w H. exact H. Qed.

Lemma add_untargeted base r :
  untargeted_row r -> maintains (reactions_since base) (add r).
Proof.
  intros Hr env w [Hs Hd]. split; [|exact Hd].
  cbn. apply Forall_app. split; [exact Hs | by constructor].
Qed.

Lemma commit_reactions base : maintains (reactions_since base) commit.
Proof.
  intros env w [Hs (new & E & Hnew)]. unfold commit.
  destruct (commit_fault env (tick w)); [split; [constructor | by exists new]|].
  destruct (flush _ _ _ _) as [[e|d] n'] eqn:Hf; (split; [constructor|]).
  - by exists new.
  - unfold stored_since. cbn.
    destruct (flush_reactions _ _ Hs _ _ _ _ Hf) as (new' & E' & Hnew').
    exists (new ++ new'). rewrite E', E, <- app_assoc. split; [reflexivity|].
    by apply Forall_app.
Qed.

Lemma with_session_reactions base {A} (body : M A) :
  maintains (reactions_since base) body ->
  maintains (stored_since base) (with_session body).
Proof.
  intros Hbody env w Hd. unfold with_session.
  assert (H0 : reactions_since base (set_session [] w)) by (split; [constructor | exact Hd]).
  specialize (Hbody env _ H0).
  destruct (body env (set_session [] w)) as [o w1]. destruct Hbody as [_ Hd1].
  exact Hd1.
Qed.

#[local] Instance stored_since_tick base : Stable (stored_since base) set_tick.
Proof. intros c w H. exact H. Qed.

(** The reactions of an instance that has no identifier yet. *)
Lemma save_reactions_untargeted base message entity :
  Collector.id_if_post entity = None -> Collector.id_if_comment entity = None ->
  maintains (reactions_since base) (Collector._save_reactions message entity).
Proof.
  intros Hp Hc. unfold Collector._save_reactions.
  destruct (msg_reactions message); [|apply maintains_ret].
  apply maintains_for_each. intros reaction. apply add_untargeted. by split.
Qed.

#[local] Hint Resolve commit_reactions : frame.

Lemma collect_posts_reactions base entity messages :
  maintains (reactions_since base) (Collector.collect_posts entity messages).
Proof.
  induction messages as [|message messages IH]; simpl; [apply maintains_ret|].
  destruct (Collector.text_of message); [|exact IH].
  apply maintains_bind; [by apply add_untargeted | intros _].
  apply maintains_bind; [by apply save_reactions_untargeted | intros _].
  frame.
Qed.

Lemma resolve_author_reactions base reply :
  maintains (reactions_since base) (Collector.resolve_author reply).
Proof.
  unfold Collector.resolve_author. destruct (msg_from_id reply); [|apply maintains_ret].
  apply maintains_try_except; [| intros e; apply maintains_ret].
  apply maintains_bind; [frame | intros [user| |]]; try apply maintains_ret.
  apply maintains_bind; [| intros _; apply maintains_ret].
  unfold merge. cbn [user_id]. by apply add_untargeted.
Qed.

Lemma collect_comments_reactions base post_id replies :
  maintains (reactions_since base) (Collector.collect_comments post_id replies).
Proof.
  induction replies as [|reply replies IH]; simpl; [apply maintains_ret|].
  destruct (Collector.text_of reply); [|exact IH].
  apply maintains_bind; [apply resolve_author_reactions | intros user_info].
  apply maintains_bind; [by apply add_untargeted | intros _].
  apply maintains_bind; [by apply save_reactions_untargeted | intros _].
  frame.
Qed.

#[local] Hint Resolve collect_posts_reactions collect_comments_reactions : frame.

(** Whatever the history and the thread, every reaction that a run of
    [get_posts] or of [get_comments] stores has neither a post nor a
    comment. *)
Lemma collected_reactions_have_no_target
    self channel_username post_id limit offset_date env w :
  (exists new,
     reactions (store (snd (Collector.get_posts self channel_username limit offset_date
                              env w)))
     = reactions (store w) ++ new
     /\ Forall (fun r => one_target r = false) new)
  /\ (exists new,
        reactions (store (snd (Collector.get_comments self channel_username post_id limit
                                 env w)))
        = reactions (store w) ++ new
        /\ Forall (fun r => one_target r = false) new).
Proof.
  assert (H0 : stored_since (reactions (store w)) w).
  { exists []. rewrite app_nil_r. split; [reflexivity | constructor]. }
  assert (Hweak : forall new, Forall untargeted new ->
                              Forall (fun r => one_target r = false) new).
  { intros new Hnew. eapply Forall_impl; [exact Hnew|].
    intros r [Hp Hc]. unfold one_target. by rewrite Hp, Hc. }
  split.
  - assert (Hm : maintains (stored_since (reactions (store w)))
                   (Collector.get_posts self channel_username limit offset_date)).
    { unfold Collector.get_posts.
      apply maintains_bind; [frame | intros entity].
      apply maintains_bind; [frame | intros history].
      apply with_session_reactions. frame. }
    destruct (Hm env w H0) as (new & E & Hnew). exists new. auto.
  - assert (Hm : maintains (stored_since (reactions (store w)))
                   (Collector.get_comments self channel_username post_id limit)).
    { unfold Collector.get_comments.
      apply maintains_bind; [frame | intros entity].
      destruct post_id as [pid|]; [|apply maintains_ret].
      destruct (pid =? 0); [apply maintains_ret|].
      apply maintains_bind; [frame | intros [message|]]; [|apply maintains_ret].
      apply maintains_bind; [frame | intros replies].
      apply with_session_reactions. frame. }
    destruct (Hm env w H0) as (new & E & Hnew). exists new. auto.
Qed.

(** C3 fails on the code.  A reaction is built from [entity.id] while
    the post (or the comment) is only pending: its identifier is still
    [None], and the stored reaction points to nothing.  Collecting a
    history of one message that carries one reaction stores that message
    as post 1, and a reaction with neither post nor comment. *)
Theorem stored_reaction_has_no_target :
  let run :=
    Collector.get_posts Examples.collector None 100 None (Examples.channel_env [])
                        Examples.initial_world in
  fst run = Returned [Collector.Build_PostData 1 Examples.t0 "hello" (Some 5) (Some 0)]
  /\ List.map (fun p => (post_id p, post_tg_id p)) (posts (store (snd run)))
     = [(Some 1, 1)]
  /\ List.map (fun r => (reaction_post_id r, reaction_comment_id r,
                         reaction_type r, reaction_count r))
              (reactions (store (snd run)))
     = [(None, None, "👍", 2)]
  /\ List.map one_target (reactions (store (snd run))) = [false].
Proof. repeat split; vm_compute; reflexivity. Qed.

(** The same for the reaction of a comment. *)
Example stored_comment_reaction_has_no_target :
  let run :=
    Collector.get_comments Examples.collector None (Some 1) 100
      (Examples.channel_env [Examples.a_reply_with_reaction]) Examples.initial_world in
  List.map (fun c => (comment_id c, comment_tg_id c)) (comments (store (snd run)))
  = [(Some 1, 11)]
  /\ List.map (fun r => (reaction_post_id r, reaction_comment_id r,
                         reaction_type r, reaction_count r))
              (reactions (store (snd run)))
     = [(None, None, "custom_42", 1)].
Proof. split; vm_compute; reflexivity. Qed.

(** *** The author of a reply *)

(** A failed lookup of the author is absorbed: no author, no exception. *)
Lemma author_lookup_failure_is_absorbed env w reply peer e :
  msg_from_id reply = Some peer ->
  get_entity env (tick w) (ByPeer peer) = Raised e ->
  Collector.resolve_author reply env w = (Returned None, after_query w).
Proof.
  intros Hfrom Hlookup. unfold Collector.resolve_author. rewrite Hfrom.
  erewrite try_raised; [reflexivity|].
  apply bind_raised. unfold Collector.client_get_entity, bind, step, asks, lift.
  cbn. rewrite Hlookup. reflexivity.
Qed.

(** C8 fails on the code.  [merge] reconciles by primary key and the
    instance it is given has none, so a resolved author is always
    inserted, never updated.  Two replies of the same author in one run:
    the commit violates the unique [users.tg_id], [get_comments] raises,
    and nothing of the run is stored. *)
Theorem second_reply_of_an_author_aborts :
  let run :=
    Collector.get_comments Examples.collector None (Some 1) 100
      (Examples.channel_env [Examples.a_reply 11 "first"; Examples.a_reply 12 "second"])
      Examples.initial_world in
  fst run = Raised (integrity_error "UNIQUE constraint failed: users.tg_id")
  /\ store (snd run) = empty_db.
Proof. split; vm_compute; reflexivity. Qed.

(** An author who is already stored: the first run stores the user and
    the comment, the second run raises and stores nothing more. *)
Example known_author_aborts :
  let run :=
    Collector.get_comments Examples.collector None (Some 1) 100
      (Examples.channel_env [Examples.a_reply 11 "first"]) in
  let first := run Examples.initial_world in
  let second := run (snd first) in
  fst first
  = Returned [Collector.Build_CommentData 11 1 Examples.t0 "first"
                (Some (Collector.Build_UserInfo 7 (Some "ann") (Some "Ann") None))]
  /\ user_keys (store (snd first)) = [7]
  /\ List.map comment_tg_id (comments (store (snd first))) = [11]
  /\ fst second = Raised (integrity_error "UNIQUE constraint failed: users.tg_id")
  /\ store (snd second) = store (snd first).
Proof. repeat split; vm_compute; reflexivity. Qed.

(** An author who cannot be resolved: the comment is stored without
    user, and the replies after it are collected. *)
Example unresolved_author_is_skipped :
  let run :=
    Collector.get_comments Examples.collector None (Some 1) 100
      (Examples.channel_env [Examples.a_stranger_reply; Examples.a_reply 11 "first"])
      Examples.initial_world in
  List.map Collector.cd_id <$> fst_returned run = Some [13; 11]
  /\ List.map (fun c => (comment_tg_id c, comment_user_id c)) (comments (store (snd run)))
     = [(13, None); (11, Some 7)].
Proof. split; vm_compute; reflexivity. Qed.

(* ===================================================================== *)
(** ** Further properties of the orchestrator                             *)
(* ===================================================================== *)

(** *** The analysis of one post *)

Lemma no_post_select p d : no_post p d -> LLMService.select_post p d = None.
Proof.
  unfold no_post, LLMService.select_post. intros H.
  induction H as [|q l Hq _ IH]; simpl; [reflexivity|].
  rewrite bool_decide_eq_false_2 by exact Hq. exact IH.
Qed.

(** X1.  On a post identifier that no stored post carries,
    [analyze_post_performance] returns [{"error": "Post not found"}] as a
    value: the two other queries are not made, no request goes to the
    model, and the stored tables and the session are what they were. *)
Theorem missing_post_is_a_result env w p :
  query_fault env (tick w) = None ->
  no_post p (store w) ->
  LLMService.analyze_post_performance p env w
  = (Returned (JObj [("error", JStr "Post not found")]), after_query w).
Proof.
  intros Hq Hno. unfold LLMService.analyze_post_performance.
  rewrite (bind_returned _ _ _ _ _ _ (query_sound _ env w Hq)).
  rewrite (no_post_select _ _ Hno). reflexivity.
Qed.

Lemma missing_post_is_a_result_witness :
  LLMService.analyze_post_performance 2 (Examples.quiet_env Examples.apology)
                                      Examples.world_with_post
  = (Returned (JObj [("error", JStr "Post not found")]),
     after_query Examples.world_with_post).
Proof.
  apply (missing_post_is_a_result (Examples.quiet_env Examples.apology)
           Examples.world_with_post 2).
  - reflexivity.
  - repeat constructor. discriminate.
Defined.




(** *** A channel analysis and the operations that depend on it *)

(** A row that is later than all the others comes first. *)
Lemma sort_desc_latest {A} (key : A -> Z) (l : list A) (x : A) :
  Forall (fun y => key y < key x) l ->
  exists rest, sort_desc key (l ++ [x]) = x :: rest.
Proof.
  unfold sort_desc. rewrite fold_right_app. simpl.
  induction 1 as [|y l Hy _ [rest IH]]; simpl.
  - by eexists.
  - rewrite IH. simpl. destruct (Z.ltb_spec (key y) (key x)); [by eexists | lia].
Qed.

Lemma latest_analysis_appended c d row :
  analysis_channel_id row = Some c ->
  analysis_type row = "channel_content" ->
  Forall (fun a => opt_timestamp (analysis_created_at a)
                   < opt_timestamp (analysis_created_at row)) (analyses d) ->
  LLMService.select_latest_analysis c (with_analyses (analyses d ++ [row]) d) = Some row.
Proof.
  intros Hc Ht Hlate. unfold LLMService.select_latest_analysis. cbn [analyses with_analyses].
  rewrite List.filter_app. cbn [List.filter]. rewrite Hc, Ht, bool_decide_eq_true_2 by reflexivity.
  cbn [andb String.eqb Ascii.eqb Bool.eqb].
  edestruct (sort_desc_latest (fun a => opt_timestamp (analysis_created_at a))) as [rest ->];
    [|reflexivity].
  clear -Hlate. induction Hlate as [|a l Ha _ IH]; simpl; [constructor|].
  destruct (_ && _); [constructor; assumption | exact IH].
Qed.

(** The pending analysis [analyze_channel_content] builds for a value. *)
Lemma analyze_channel_content_decoded env w c result j :
  queries_sound env ->
  commits_sound env ->
  model_answers env result ->
  json_loads env result = Loaded j ->
  LLMService.select_posts c (store w) <> [] ->
  session w = [] ->
  exists w' n,
    LLMService.analyze_channel_content c env w = (Returned j, w')
    /\ store w'
       = with_analyses
           (analyses (store w)
            ++ [stored_analysis (Build_Analysis None (Some c) None "channel_content"
                                   (json_dumps j) None)
                  (store w) (utcnow env n)])
           (store w).
Proof.
  intros Hq Hc Hm Hj Hposts Hs.
  unfold LLMService.analyze_channel_content.
  rewrite (bind_returned _ _ _ _ _ _ (query_sound _ env w (Hq _))).
  destruct (LLMService.select_posts c (store w)) as [|post posts]; [contradiction|].
  destruct (gather_posts env (set_tick (S (tick w)) w) (post :: posts) Hq)
    as (posts_data & w1 & E & Hstore & Hsession & _).
  rewrite (bind_returned _ _ _ _ _ _ E). cbn in Hstore, Hsession.
  eexists _, (S (S (tick w1))). split.
  - apply try_returned.
    erewrite bind_returned; [| rewrite acreate_run, Hm; reflexivity].
    unfold LLMService.loads at 1, asks at 1, bind at 1. rewrite Hj.
    unfold bind at 1, ret at 1.
    unfold bind at 1, add at 1, modify at 1.
    erewrite bind_returned; [reflexivity|].
    apply commit_one_analysis;
      [apply Hc | cbn; rewrite Hsession, Hs; reflexivity | reflexivity].
  - cbn. rewrite Hstore. reflexivity.
Qed.

(** X3.  On a channel with stored posts, when the model's answer decodes
    and the storage engine answers, [analyze_channel_content] returns the
    decoded value and stores it re-encoded as an Analysis row of type
    "channel_content".  When every analysis stored before is older than
    what the clock reads, that row is then the latest analysis of the
    channel, so that a content plan or a survey asked next makes no new
    analysis: its only request to the model holds the stored text, decoded
    and encoded again with an indentation. *)
Theorem decoded_analysis_is_reused env w c result j :
  queries_sound env ->
  commits_sound env ->
  model_answers env result ->
  json_loads env result = Loaded j ->
  analyses_in_the_past env (store w) ->
  LLMService.select_posts c (store w) <> [] ->
  session w = [] ->
  exists w' row,
    LLMService.analyze_channel_content c env w = (Returned j, w')
    /\ analyses (store w') = analyses (store w) ++ [row]
    /\ analysis_type row = "channel_content"
    /\ analysis_channel_id row = Some c
    /\ analysis_post_id row = None
    /\ analysis_content row = json_dumps j
    /\ LLMService.select_latest_analysis c (store w') = Some row
    /\ (forall j' days,
          json_loads env (json_dumps j) = Loaded j' ->
          chat_log (snd (LLMService.generate_content_plan c days env w'))
          = chat_log w' ++ [plan_request j' days]
          /\ is_infix (json_dumps_indent 0 j') (chat_user (plan_request j' days)) = true
          /\ chat_log (snd (LLMService.generate_survey c env w'))
             = chat_log w' ++ [survey_request j']
          /\ is_infix (json_dumps_indent 0 j') (chat_user (survey_request j')) = true).
Proof.
  intros Hq Hc Hm Hj Hpast Hposts Hs.
  destruct (analyze_channel_content_decoded env w c result j Hq Hc Hm Hj Hposts Hs)
    as (w' & n & Hrun & Hstore).
  assert (Hlatest : LLMService.select_latest_analysis c (store w')
                    = Some (stored_analysis (Build_Analysis None (Some c) None
                                               "channel_content" (json_dumps j) None)
                              (store w) (utcnow env n))).
  { rewrite Hstore. apply latest_analysis_appended; [reflexivity | reflexivity |].
    apply Hpast. }
  exists w'. eexists. split; [exact Hrun|].
  split; [rewrite Hstore; reflexivity|].
  do 4 (split; [reflexivity|]). split; [exact Hlatest|].
  intros j' days Hj'.
  assert (Hdata : LLMService.channel_analysis_data c env w'
                  = (Returned j', after_query w')).
  { unfold LLMService.channel_analysis_data.
    rewrite (bind_returned _ _ _ _ _ _ (query_sound _ env w' (Hq _))), Hlatest.
    unfold LLMService.loads, asks, bind. cbn [analysis_content stored_analysis].
    rewrite Hj'. reflexivity. }
  split; [|split; [apply plan_prompt_embeds | split; [|apply survey_prompt_embeds]]].
  - unfold LLMService.generate_content_plan.
    rewrite (bind_returned _ _ _ _ _ _ Hdata).
    change (chat_log w') with (chat_log (after_query w')).
    apply guarded_call_log.
    + intros r. apply plan_block_keeps_log.
    + intros e. frame.
  - unfold LLMService.generate_survey.
    rewrite (bind_returned _ _ _ _ _ _ Hdata).
    change (chat_log w') with (chat_log (after_query w')).
    apply guarded_call_log.
    + intros r. apply survey_block_keeps_log.
    + intros e. frame.
Qed.

Lemma decoded_analysis_is_reused_witness :
  let env := Examples.quiet_env Examples.plan_of_one in
  let j := JObj [("day_1", Examples.a_day "A" "a")] in
  analyses_in_the_past env (store Examples.world_with_old_analysis)
  /\ exists w' row,
    LLMService.analyze_channel_content 1 env Examples.world_with_old_analysis
    = (Returned j, w')
    /\ analyses (store w') = [Examples.an_old_analysis] ++ [row]
    /\ analysis_type row = "channel_content"
    /\ analysis_channel_id row = Some 1
    /\ analysis_post_id row = None
    /\ analysis_content row = Examples.plan_of_one
    /\ LLMService.select_latest_analysis 1 (store w') = Some row
    /\ (forall j' days,
          json_loads env Examples.plan_of_one = Loaded j' ->
          chat_log (snd (LLMService.generate_content_plan 1 days env w'))
          = chat_log w' ++ [plan_request j' days]
          /\ is_infix (json_dumps_indent 0 j') (chat_user (plan_request j' days)) = true
          /\ chat_log (snd (LLMService.generate_survey 1 env w'))
             = chat_log w' ++ [survey_request j']
          /\ is_infix (json_dumps_indent 0 j') (chat_user (survey_request j')) = true).
Proof.
  assert (Hpast : analyses_in_the_past (Examples.quiet_env Examples.plan_of_one)
                    (store Examples.world_with_old_analysis)).
  { intros n. repeat constructor. }
  split; [exact Hpast|].
  apply (decoded_analysis_is_reused (Examples.quiet_env Examples.plan_of_one)
           Examples.world_with_old_analysis 1 Examples.plan_of_one
           (JObj [("day_1", Examples.a_day "A" "a")])).
  - intros n. reflexivity.
  - intros n. reflexivity.
  - intros n request. reflexivity.
  - vm_compute. reflexivity.
  - exact Hpast.
  - discriminate.
  - reflexivity.
Defined.

(** *** What the dependent operations store *)

Lemma flush_analyses_tables clock pending :
  Forall is_analysis pending ->
  forall n d d' n', flush clock n pending d = (inr d', n') ->
                    other_tables d' = other_tables d.
Proof.
  induction 1 as [|r pending Hr _ IH]; intros n d d' n' Hf; simpl in Hf.
  - by injection Hf as <- _.
  - destruct r; try contradiction. simpl in Hf.
    destruct (insert_id _ _); [|discriminate].
    apply IH in Hf. exact Hf.
Qed.

#[local] Instance keeps_tables_tick d0 : Stable (keeps_tables d0) set_tick.
Proof. intros c w H. exact H. Qed.

#[local] Instance keeps_tables_chat_log d0 : Stable (keeps_tables d0) set_chat_log.
Proof. intros c w H. exact H. Qed.

Lemma add_analysis_keeps_tables d0 a : maintains (keeps_tables d0) (add (RAnalysis a)).
Proof.
  intros env w [Hs Hp]. split; [|exact Hp].
  cbn. apply Forall_app. split; [exact Hs | by constructor].
Qed.

Lemma commit_keeps_tables d0 : maintains (keeps_tables d0) commit.
Proof.
  intros env w [Hs Hp]. unfold commit.
  destruct (commit_fault env (tick w)); [by split|].
  destruct (flush _ _ _ _) as [[e|d] n'] eqn:Hf; [by split|].
  split; [constructor|]. cbn. rewrite <- Hp. by eapply flush_analyses_tables.
Qed.

#[local] Hint Resolve add_analysis_keeps_tables commit_keeps_tables : frame.

Lemma analyze_channel_content_keeps_tables d0 c :
  maintains (keeps_tables d0) (LLMService.analyze_channel_content c).
Proof. frame. Qed.

#[local] Hint Resolve analyze_channel_content_keeps_tables : frame.






(** An answer without title: the error names the key, no survey is
    stored. *)
Example survey_without_title :
  let run := LLMService.generate_survey 1 (Examples.quiet_env Examples.plan_of_one)
               Examples.world_with_analysis in
  fst run = Returned (LLMService.error_dict "'title'")
  /\ surveys (store (snd run)) = [].
Proof. split; vm_compute; reflexivity. Qed.





(** *** The posts an analysis reads *)

Section SortDesc.

Context {A : Type} (key : A -> Z).

(** [a] comes before [b] when it is not older. *)
Let newer_first (a b : A) : Prop := key b <= key a.

Lemma insert_desc_permutation x l : insert_desc key x l ≡ₚ x :: l.
Proof.
  induction l as [|y l IH]; simpl; [reflexivity|].
  destruct (key x <? key y); [|reflexivity].
  rewrite IH. apply Permutation_swap.
Qed.

Lemma sort_desc_permutation l : sort_desc key l ≡ₚ l.
Proof.
  induction l as [|x l IH]; simpl; [reflexivity|].
  unfold sort_desc in *. simpl. by rewrite insert_desc_permutation, IH.
Qed.

Lemma insert_desc_sorted x l :
  StronglySorted newer_first l -> StronglySorted newer_first (insert_desc key x l).
Proof.
  induction 1 as [|y l Hl IH Hy]; simpl.
  - repeat constructor.
  - destruct (Z.ltb_spec (key x) (key y)).
    + constructor; [exact IH|].
      rewrite insert_desc_permutation. constructor; [unfold newer_first; lia | exact Hy].
    + constructor; [by constructor|].
      constructor; [exact H|].
      eapply Forall_impl; [exact Hy|]. unfold newer_first. intros z Hz. simpl in *. lia.
Qed.

Lemma sort_desc_sorted l : StronglySorted newer_first (sort_desc key l).
Proof.
  induction l as [|x l IH]; [constructor|].
  unfold sort_desc in *. simpl. by apply insert_desc_sorted.
Qed.

(** The first [n] rows of the sorted list, against any row of the list:
    the row is among them, or there are [n] of them and none is older. *)
Lemma sort_desc_take n l x :
  x ∈ l ->
  x ∈ take n (sort_desc key l)
  \/ (length (take n (sort_desc key l)) = n
      /\ Forall (fun y => key x <= key y) (take n (sort_desc key l))).
Proof.
  intros Hx. rewrite <- sort_desc_permutation in Hx.
  rewrite <- (take_drop n (sort_desc key l)) in Hx at 1.
  apply elem_of_app in Hx as [Hx|Hx]; [by left | right].
  split.
  - apply length_take_le. destruct (decide (n <= length (sort_desc key l))%nat); [done|].
    rewrite drop_ge in Hx by lia. inversion Hx.
  - apply Forall_forall. intros y Hy.
    pose proof (sort_desc_sorted l) as Hs.
    rewrite <- (take_drop n (sort_desc key l)) in Hs.
    exact (StronglySorted_app_1_elem_of _ _ _ _ _ Hs Hy Hx).
Qed.

End SortDesc.

Lemma elem_of_channel_filter c (l : list Post) p :
  p ∈ List.filter (fun p => post_channel_id p =? c) l
  <-> p ∈ l /\ post_channel_id p = c.
Proof.
  rewrite !list_elem_of_In, filter_In, Z.eqb_eq. reflexivity.
Qed.

(** X6.  The posts [analyze_channel_content] reads: at most 50 of them,
    all stored posts of the channel, the latest first; and a stored post
    of the channel that is not read is not later than any of the 50 that
    are. *)
Theorem analysed_posts_are_the_latest c d :
  let selected := LLMService.select_posts c d in
  let posted p := timestamp (post_posted_at p) in
  (length selected <= 50)%nat
  /\ Forall (fun p => p ∈ posts d /\ post_channel_id p = c) selected
  /\ StronglySorted (fun p q => posted q <= posted p) selected
  /\ (forall p, p ∈ posts d -> post_channel_id p = c ->
        p ∈ selected
        \/ (length selected = 50%nat /\ Forall (fun q => posted p <= posted q) selected)).
Proof.
  cbv zeta. unfold LLMService.select_posts.
  set (key := fun p => timestamp (post_posted_at p)).
  set (l := List.filter _ _).
  split; [|split; [|split]].
  - rewrite length_take. lia.
  - apply Forall_forall. intros p Hp.
    apply elem_of_channel_filter. fold l.
    rewrite <- (sort_desc_permutation key l).
    eapply subseteq_take, Hp.
  - pose proof (sort_desc_sorted key l) as Hs.
    rewrite <- (take_drop 50 (sort_desc key l)) in Hs.
    exact (StronglySorted_app_1_l _ _ _ Hs).
  - intros p Hp Hc. apply (sort_desc_take key 50 l p).
    apply elem_of_channel_filter. by split.
Qed.

(* ===================================================================== *)
(** ** Further properties of the conversation                             *)
(* ===================================================================== *)

(** *** Handlers that return *)

Ltac total_step :=
  lazymatch goal with
  | |- total _ => unfold total
  | |- returns _ (bind _ _) => apply returns_bind; [| intros ?]
  | |- returns _ (try_except _ _) => apply returns_try_except; intros ?
  | |- returns _ (ret _) => apply returns_ret
  | |- returns _ (gets _) => apply returns_gets
  | |- returns _ (asks _) => apply returns_asks
  | |- returns _ (modify _) => apply returns_modify
  | |- returns _ (match ?x with _ => _ end) => destruct x
  | |- returns _ ?m => let h := head_of m in unfold h
  end.

Ltac total := repeat total_step.

Lemma confirm_action_returns : total Bot.confirm_action.
Proof. total. Qed.

Lemma state_handler_returns state text h :
  Bot.state_handler state text = Some h -> total h.
Proof.
  unfold Bot.state_handler. intros Hh.
  repeat match type of Hh with
         | (if ?b then _ else _) = _ => destruct b
         end;
    try discriminate; injection Hh as <-; total.
Qed.

Lemma handle_update_returns conversation u :
  Bot.is_edited u = false -> total (Bot.handle_update conversation u).
Proof.
  unfold Bot.handle_update, Bot.on_message. intros ->.
  destruct conversation as [state|], u as [name|text|name|text];
    cbn [Bot.text_of Bot.command_of]; cbv iota.
  all: try solve [total].
  all: destruct (Bot.state_handler state text) as [h|] eqn:Hh; [|total].
  all: apply returns_bind; [by eapply state_handler_returns | intros s; total].
Qed.

Lemma dispatch_returns conversation u :
  Bot.is_edited u = false -> total (Bot.dispatch conversation u).
Proof.
  intros Hu. unfold Bot.dispatch, Bot.on_message. rewrite Hu. cbv iota.
  destruct (Bot.command_of u) as [name|].
  - destruct (String.eqb name "start"); [total|].
    destruct (String.eqb name "help"); [total|].
    destruct (Bot.check_update _ _); [by apply handle_update_returns | total].
  - destruct (Bot.check_update _ _); [by apply handle_update_returns | total].
Qed.

(** *** Edited messages *)

(** What reading [attribute] of [None] raises. *)
Lemma on_message_edited {A B} u attribute (body : M A) (k : A -> M B) env w :
  Bot.is_edited u = true ->
  exists e,
    bind (Bot.on_message u attribute body) k env w = (Raised e, w)
    /\ exn_class e = "AttributeError".
Proof. intros Hu. unfold Bot.on_message, bind, raise. rewrite Hu. by eexists. Qed.

(** An edited message leaves its handler, when it has one, as an
    [AttributeError], and nothing was done. *)
Lemma dispatch_edited conversation u env w :
  Bot.is_edited u = true ->
  Bot.dispatch conversation u env w = (Returned conversation, w)
  \/ (exists e, Bot.dispatch conversation u env w = (Raised e, w)
                /\ exn_class e = "AttributeError").
Proof.
  intros Hu. unfold Bot.dispatch, Bot.check_update, Bot.handle_update.
  destruct u as [name|text|name|text]; try discriminate;
    cbn [Bot.text_of Bot.command_of].
  - destruct (String.eqb (lower name) "start"); [right; by apply on_message_edited|].
    destruct (String.eqb (lower name) "help"); [right; by apply on_message_edited|].
    destruct conversation as [state|].
    + destruct (String.eqb (lower name) "cancel"); right; by apply on_message_edited.
    + destruct (String.eqb (lower name) "menu"); right; by apply on_message_edited.
  - destruct conversation as [state|]; [|by left].
    destruct (Bot.state_handler state text) as [h|]; [|by left].
    rewrite bool_decide_eq_true_2 by by eexists.
    right. by apply on_message_edited.
Qed.

Lemma process_update_edited conversation u env w :
  Bot.is_edited u = true ->
  Bot.process_update conversation u env w = (Returned conversation, w)
  \/ Bot.process_update conversation u env w
     = (Returned conversation,
        set_sent (sent w ++ ["Произошла ошибка при обработке запроса. Пожалуйста, попробуйте позже."]) w).
Proof.
  intros Hu. unfold Bot.process_update.
  destruct (dispatch_edited conversation u env w Hu) as [E | (e & E & _)].
  - left. by rewrite (try_returned _ _ _ _ _ _ E).
  - right. by rewrite (try_raised _ _ _ _ _ _ E).
Qed.

(** X7.  An edited message is not handled.  The filters of the handlers
    take it as they take a new message, but [update.message] is [None]
    for it, so the handler that takes it raises [AttributeError] before it
    stores or sends anything; the application's error handler answers, and
    the conversation stays in its state.  So an edited message changes
    nothing but the replies: the context, the stored tables and the
    requests to the model are what they were.  Every edited command is
    answered so, and every edited text in one of the four states that wait
    for an input; an edited text that no handler takes is ignored. *)
Theorem edited_messages_are_not_handled conversation u env w :
  Bot.is_edited u = true ->
  let answer := "Произошла ошибка при обработке запроса. Пожалуйста, попробуйте позже." in
  (Bot.process_update conversation u env w = (Returned conversation, w)
   \/ Bot.process_update conversation u env w
      = (Returned conversation, set_sent (sent w ++ [answer]) w))
  /\ (forall name, u = Bot.EditedCommand name ->
        (exists e, Bot.dispatch conversation u env w = (Raised e, w)
                   /\ exn_class e = "AttributeError")
        /\ Bot.process_update conversation u env w
           = (Returned conversation, set_sent (sent w ++ [answer]) w))
  /\ (forall text state, u = Bot.EditedText text -> conversation = Some state ->
        Bot.ANALYZE_CHANNEL <= state <= Bot.CREATE_SURVEY ->
        (exists e, Bot.dispatch conversation u env w = (Raised e, w)
                   /\ exn_class e = "AttributeError")
        /\ Bot.process_update conversation u env w
           = (Returned conversation, set_sent (sent w ++ [answer]) w)).
Proof.
  intros Hu answer. split; [by apply process_update_edited|].
  assert (Hraised : forall e, Bot.dispatch conversation u env w = (Raised e, w) ->
            Bot.process_update conversation u env w
            = (Returned conversation, set_sent (sent w ++ [answer]) w)).
  { intros e E. unfold Bot.process_update. by rewrite (try_raised _ _ _ _ _ _ E). }
  assert (Hcase : forall state text,
            Bot.ANALYZE_CHANNEL <= state <= Bot.CREATE_SURVEY ->
            is_Some (Bot.state_handler state text)).
  { intros state text. unfold Bot.state_handler, Bot.MENU, Bot.ANALYZE_CHANNEL,
      Bot.GENERATE_CONTENT_PLAN, Bot.ANALYZE_POST, Bot.CREATE_SURVEY. intros Hstate.
    destruct (Z.eqb_spec state 0); [lia|].
    destruct (Z.eqb_spec state 1); [by eexists|].
    destruct (Z.eqb_spec state 2); [by eexists|].
    destruct (Z.eqb_spec state 3); [by eexists|].
    destruct (Z.eqb_spec state 4); [by eexists|]. lia. }
  split.
  - intros name ->.
    destruct (dispatch_edited conversation (Bot.EditedCommand name) env w Hu)
      as [E | (e & E & He)].
    + exfalso. revert E.
      unfold Bot.dispatch, Bot.check_update, Bot.handle_update, Bot.on_message, bind, raise.
      cbn [Bot.text_of Bot.command_of Bot.is_edited].
      destruct (String.eqb (lower name) "start"); [discriminate|].
      destruct (String.eqb (lower name) "help"); [discriminate|].
      destruct conversation as [state|].
      * destruct (String.eqb (lower name) "cancel"); discriminate.
      * destruct (String.eqb (lower name) "menu"); discriminate.
    + split; [by exists e | by eapply Hraised].
  - intros text state -> -> Hstate.
    destruct (Hcase state text Hstate) as [h Hh].
    destruct (dispatch_edited (Some state) (Bot.EditedText text) env w Hu)
      as [E | (e & E & He)].
    + exfalso. revert E.
      unfold Bot.dispatch, Bot.check_update, Bot.handle_update, Bot.on_message, bind, raise.
      cbn [Bot.text_of Bot.command_of Bot.is_edited]. rewrite Hh.
      rewrite bool_decide_eq_true_2 by by eexists. discriminate.
    + split; [by exists e | by eapply Hraised].
Qed.

Lemma edited_messages_are_not_handled_witness :
  let env := Examples.quiet_env Examples.apology in
  let w := Examples.world_awaiting_confirmation in
  let answer := "Произошла ошибка при обработке запроса. Пожалуйста, попробуйте позже." in
  Bot.is_edited (Bot.EditedText "@other") = true
  /\ Bot.process_update (Some Bot.ANALYZE_CHANNEL) (Bot.EditedText "@other") env w
     = (Returned (Some Bot.ANALYZE_CHANNEL), set_sent (sent w ++ [answer]) w).
Proof.
  split; [reflexivity|].
  refine (proj2 (proj2 (proj2 (edited_messages_are_not_handled
                                 (Some Bot.ANALYZE_CHANNEL) (Bot.EditedText "@other")
                                 (Examples.quiet_env Examples.apology)
                                 Examples.world_awaiting_confirmation eq_refl))
                  "@other" Bot.ANALYZE_CHANNEL eq_refl eq_refl _)).
  unfold Bot.ANALYZE_CHANNEL, Bot.CREATE_SURVEY. lia.
Defined.

(** *** The pending task of a conversation *)

Lemma ends_in_bind {A} state (m : M A) (k : A -> M Z) :
  (forall a, ends_in state (k a)) -> ends_in state (bind m k).
Proof.
  intros Hk env w s w'. unfold bind.
  destruct (m env w) as [[a|e] w1]; [apply Hk | discriminate].
Qed.

Lemma ends_in_ret state : ends_in state (ret state).
Proof. by intros env w s w' [= <- _]. Qed.

Lemma confirm_action_ends : ends_in Bot.END Bot.confirm_action.
Proof.
  unfold Bot.confirm_action. apply ends_in_bind. intros ud.
  destruct (String.eqb _ _).
  - apply ends_in_bind. intros _. apply ends_in_ret.
  - apply ends_in_bind. intros _. apply ends_in_bind. intros result.
    apply ends_in_bind. intros _. apply ends_in_ret.
Qed.

(** What a handler of a state does to the context and to the
    conversation. *)
Lemma state_handler_coherent state text h env w s w' :
  Bot.state_handler state text = Some h ->
  h env w = (Returned s, w') ->
  known_action (user_data w) ->
  known_action (user_data w')
  /\ (s = Bot.WAITING_FOR_CONFIRMATION -> is_Some (ud_pending_action (user_data w')))
  /\ (s = Bot.END \/ Bot.MENU <= s <= Bot.WAITING_FOR_CONFIRMATION).
Proof.
  unfold Bot.state_handler. intros Hh Hrun Hk.
  repeat match type of Hh with
         | (if ?b then _ else _) = _ => destruct b
         end;
    try discriminate; injection Hh as <-.
  1-4: injection Hrun as <- <-; repeat split; [exact Hk | discriminate | right; by compute].
  - injection Hrun as <- <-. split; [|split].
    + left. split; [auto | by eexists].
    + intros _. by eexists.
    + right. by compute.
  - injection Hrun as <- <-. split; [|split].
    + left. split; [auto | by eexists].
    + intros _. by eexists.
    + right. by compute.
  - unfold Bot.process_post_analysis in Hrun. destruct (int (strip text)) as [post_id|].
    + injection Hrun as <- <-. split; [|split].
      * right. split; [reflexivity | by eexists].
      * intros _. by eexists.
      * right. by compute.
    + injection Hrun as <- <-. repeat split; [exact Hk | discriminate | right; by compute].
  - injection Hrun as <- <-. split; [|split].
    + left. split; [auto | by eexists].
    + intros _. by eexists.
    + right. by compute.
  - pose proof (confirm_action_ends _ _ _ _ Hrun) as ->.
    pose proof (confirm_action_keeps_user_data env w) as Hud. rewrite Hrun in Hud.
    simpl in Hud. rewrite Hud. repeat split; [exact Hk | discriminate | by left].
  - injection Hrun as <- <-. repeat split; [exact Hk | discriminate | by left].
Qed.

Lemma handle_update_coherent conversation u env w conversation' w' :
  Bot.is_edited u = false ->
  coherent conversation (user_data w) ->
  Bot.handle_update conversation u env w = (Returned conversation', w') ->
  coherent conversation' (user_data w').
Proof.
  intros Hu Hc. pose proof Hc as (Hk & Hw & Hrange).
  unfold Bot.handle_update, Bot.on_message. rewrite Hu. cbv iota.
  destruct conversation as [state|], u as [name|text|name|text]; try discriminate;
    cbn [Bot.text_of Bot.command_of].
  - destruct (String.eqb (lower name) "cancel"); cbn; intros [= <- <-]; [|exact Hc].
    repeat split; [exact Hk | discriminate].
  - destruct (Bot.state_handler state text) as [h|] eqn:Hh;
      [| intros [= <- <-]; exact Hc].
    unfold bind. destruct (h env w) as [[s|e] w1] eqn:Hrun; [|discriminate].
    intros [= <- <-].
    destruct (state_handler_coherent _ _ _ _ _ _ _ Hh Hrun Hk) as (Hk1 & Hw1 & Hr1).
    unfold Bot.next_state. destruct (Z.eqb_spec s Bot.END) as [->|Hs].
    + repeat split; [exact Hk1 | discriminate].
    + split; [exact Hk1|]. split; [intros [= ->]; by apply Hw1|].
      destruct Hr1; [contradiction | assumption].
  - destruct (String.eqb (lower name) "menu"); cbn; intros [= <- <-]; [|exact Hc].
    repeat split; [exact Hk | discriminate | by compute | by compute].
  - intros [= <- <-]. exact Hc.
Qed.

Lemma dispatch_coherent conversation u env w conversation' w' :
  Bot.is_edited u = false ->
  coherent conversation (user_data w) ->
  Bot.dispatch conversation u env w = (Returned conversation', w') ->
  coherent conversation' (user_data w').
Proof.
  intros Hu Hc. unfold Bot.dispatch, Bot.on_message. rewrite Hu. cbv iota.
  destruct (Bot.command_of u) as [name|].
  - destruct (String.eqb name "start"); [cbn; by intros [= <- <-]|].
    destruct (String.eqb name "help"); [cbn; by intros [= <- <-]|].
    destruct (Bot.check_update _ _); [by apply handle_update_coherent|].
    cbn. by intros [= <- <-].
  - destruct (Bot.check_update _ _); [by apply handle_update_coherent|].
    by intros [= <- <-].
Qed.

Lemma process_update_coherent conversation u env w conversation' w' :
  coherent conversation (user_data w) ->
  Bot.process_update conversation u env w = (Returned conversation', w') ->
  coherent conversation' (user_data w').
Proof.
  intros Hc. destruct (Bot.is_edited u) eqn:Hu.
  - destruct (process_update_edited conversation u env w Hu) as [-> | ->];
      by intros [= <- <-].
  - unfold Bot.process_update.
    destruct (dispatch_returns conversation u Hu env w Logic.I) as (c1 & w1 & E).
    rewrite (try_returned _ _ _ _ _ _ E). intros [= <- <-].
    by eapply dispatch_coherent.
Qed.

(** X8.  In a chat whose context holds a known pending task or none,
    after any sequence of updates: the conversation is over or in one of
    its six states; the pending task, if any, is one of the four tasks the
    bot knows, with the channel or the post it works on captured; and a
    conversation that waits for the confirmation has a pending task.  So
    the answers of [confirm_action] to a missing and to an unknown task
    are not reached through the conversation. *)
Theorem conversations_stay_coherent us conversation env w conversation' w' :
  coherent conversation (user_data w) ->
  Bot.process_updates conversation us env w = (Returned conversation', w') ->
  coherent conversation' (user_data w').
Proof.
  revert conversation w. induction us as [|u us IH]; intros conversation w Hc; simpl.
  - by intros [= <- <-].
  - unfold bind.
    destruct (Bot.process_update conversation u env w) as [[c1|e] w1] eqn:E; [|discriminate].
    apply IH. by eapply process_update_coherent.
Qed.

Lemma conversations_stay_coherent_witness :
  let run :=
    Bot.process_updates None
      [Bot.Command "menu"; Bot.Text "Анализ поста"; Bot.Command "start"; Bot.Text " 42 "]
      (Examples.quiet_env Examples.apology) Examples.initial_world in
  fst run = Returned (Some Bot.WAITING_FOR_CONFIRMATION)
  /\ user_data (snd run) = Build_UserData None (Some 42) (Some "analyze_post")
  /\ coherent (Some Bot.WAITING_FOR_CONFIRMATION) (user_data (snd run)).
Proof.
  split; [vm_compute; reflexivity|]. split; [vm_compute; reflexivity|].
  apply (conversations_stay_coherent
           [Bot.Command "menu"; Bot.Text "Анализ поста"; Bot.Command "start"; Bot.Text " 42 "]
           None (Examples.quiet_env Examples.apology) Examples.initial_world).
  - repeat split. discriminate.
  - vm_compute. reflexivity.
Defined.

(* ===================================================================== *)
(** ** Numerals that are read                                            *)
(* ===================================================================== *)

(** X9.  The keys of a content plan.  A key made of a text without
    underscore, an underscore and the decimal numeral of an integer of at
    most 4300 digits (the longest numeral the interpreter converts) is the
    day of that integer, whatever the text before the underscore
    (["day_3"] is day 3, and so is ["jour_3"]); a key without underscore
    has no day: reading it raises [IndexError]. *)
Theorem day_keys_are_read prefix (n : Z) :
  "_"%char ∉ list_ascii_of_string prefix ->
  Z.abs n < 10 ^ 4300 ->
  LLMService.day_number (prefix +:+ "_" +:+ pretty n) = Returned n
  /\ LLMService.day_number prefix = Raised (Exn "IndexError" "list index out of range").
Proof.
  intros H _. split; [by apply day_number_numeral | by apply day_number_no_underscore].
Qed.

Lemma day_keys_are_read_witness :
  LLMService.day_number "day_12" = Returned 12
  /\ LLMService.day_number "day" = Raised (Exn "IndexError" "list index out of range").
Proof.
  apply (day_keys_are_read "day" 12).
  - intros H. repeat (apply elem_of_cons in H as [H|H]; [discriminate|]). inversion H.
  - vm_compute. reflexivity.
Defined.

(** X10.  The post identifier a user types.  The decimal numeral of any
    integer, with blanks around it or not, is accepted: that integer is
    captured, the task "analyze_post" becomes the pending one, and the
    confirmation is asked.  A text that holds a character other than a
    digit, a sign, an underscore or a blank (an ASCII letter, say) is
    refused: the bot asks for a number again and the context is what it
    was. *)
Theorem post_id_is_read_as_an_integer env w :
  (forall before after (n : Z),
     blank before -> blank after ->
     exists w',
       Bot.process_post_analysis (before +:+ pretty n +:+ after) env w
       = (Returned Bot.WAITING_FOR_CONFIRMATION, w')
       /\ user_data w'
          = Build_UserData (ud_channel_username (user_data w)) (Some n) (Some "analyze_post")
       /\ sent w' = sent w ++ ["Вы хотите проанализировать пост с ID " +:+ pretty n +:+ "?"])
  /\ (forall text c,
        c ∈ list_ascii_of_string text -> foreign c ->
        exists w',
          Bot.process_post_analysis text env w = (Returned Bot.ANALYZE_POST, w')
          /\ user_data w' = user_data w
          /\ sent w' = sent w ++ ["Неверный формат ID поста. Пожалуйста, введите число."]).
Proof.
  split.
  - intros before after n Hb Ha. unfold Bot.process_post_analysis.
    rewrite int_around by assumption. eexists. split; [reflexivity|]. split; reflexivity.
  - intros text c Hin Hc. unfold Bot.process_post_analysis.
    assert (c ∈ list_ascii_of_string (strip text)) as Hin'.
    { apply strip_keeps; [exact Hin | apply Hc]. }
    rewrite (int_foreign c _ Hin' Hc). eexists. split; [reflexivity|]. split; reflexivity.
Qed.

(** For instance " -7 " is post -7, and "12a" is refused. *)
Example post_ids_typed :
  let answer text :=
    Bot.process_post_analysis text (Examples.quiet_env Examples.apology)
                              Examples.initial_world in
  (fst (answer " -7 "), ud_post_id (user_data (snd (answer " -7 "))))
  = (Returned Bot.WAITING_FOR_CONFIRMATION, Some (-7))
  /\ (fst (answer "12a"), ud_post_id (user_data (snd (answer "12a"))))
     = (Returned Bot.ANALYZE_POST, None).
Proof. split; vm_compute; reflexivity. Qed.

(** *** Inputs that are taken and then found missing *)

Lemma no_space_at : no_space "@".
Proof. repeat constructor. Qed.

Lemma normalize_username_at before after :
  blank before -> blank after ->
  Bot.normalize_username (before +:+ "@" +:+ after) = "".
Proof.
  intros Hb Ha. unfold Bot.normalize_username.
  by rewrite (strip_around before "@" after Hb Ha no_space_at).
Qed.

Lemma normalize_username_blank text : blank text -> Bot.normalize_username text = "".
Proof.
  intros H. unfold Bot.normalize_username.
  assert (strip text = "") as ->; [|reflexivity].
  exact (strip_around "" "" text (List.Forall_nil _) H (List.Forall_nil _)).
Qed.

Lemma state_handler_post text :
  Bot.state_handler Bot.ANALYZE_POST text = Some (Bot.process_post_analysis text).
Proof. reflexivity. Qed.

Lemma state_handler_confirm :
  Bot.state_handler Bot.WAITING_FOR_CONFIRMATION "Да" = Some Bot.confirm_action.
Proof. reflexivity. Qed.

(** X11.  Inputs that are taken and then found missing.  The post
    identifier 0 and the channel name "@" pass the input step, and the
    confirmation is asked for them; on "Да" the task is not run: no query
    is made and no request is sent, the bot answers that the post (the
    channel) was not given, and the conversation ends. *)
Theorem empty_inputs_are_reported_late env w before after :
  blank before -> blank after ->
  (exists w',
     Bot.handle_updates (Some Bot.ANALYZE_POST)
       [Bot.Text (before +:+ "0" +:+ after); Bot.Text "Да"] env w
     = (Returned None, w')
     /\ sent w'
        = sent w ++ ["Вы хотите проанализировать пост с ID 0?";
                     "Выполняю запрос... Это может занять некоторое время.";
                     error_reply "Не указан ID поста"]
     /\ tick w' = tick w /\ store w' = store w /\ chat_log w' = chat_log w)
  /\ (exists w',
        Bot.handle_updates (Some Bot.ANALYZE_CHANNEL)
          [Bot.Text (before +:+ "@" +:+ after); Bot.Text "Да"] env w
        = (Returned None, w')
        /\ sent w'
           = sent w ++ ["Вы хотите проанализировать канал @?";
                        "Выполняю запрос... Это может занять некоторое время.";
                        error_reply "Не указано имя канала"]
        /\ tick w' = tick w /\ store w' = store w /\ chat_log w' = chat_log w).
Proof.
  intros Hb Ha. split.
  - unfold Bot.handle_updates, Bot.handle_update, Bot.on_message.
    cbn [Bot.text_of Bot.command_of Bot.is_edited]. rewrite state_handler_post.
    unfold Bot.process_post_analysis.
    pose proof (int_around before after 0 Hb Ha) as Hint.
    change (pretty 0) with "0" in Hint. rewrite Hint.
    eexists. split; [reflexivity|].
    cbn. rewrite <- !app_assoc. repeat split.
  - unfold Bot.handle_updates, Bot.handle_update, Bot.on_message.
    cbn [Bot.text_of Bot.command_of Bot.is_edited].
    change (Bot.state_handler Bot.ANALYZE_CHANNEL (before +:+ "@" +:+ after))
      with (Some (Bot.process_channel_analysis (before +:+ "@" +:+ after))).
    unfold Bot.process_channel_analysis.
    rewrite (normalize_username_at before after Hb Ha).
    eexists. split; [reflexivity|].
    cbn. rewrite <- !app_assoc. repeat split.
Qed.

Lemma empty_inputs_are_reported_late_witness :
  let env := Examples.quiet_env Examples.apology in
  let w := Examples.initial_world in
  (exists w',
     Bot.handle_updates (Some Bot.ANALYZE_POST) [Bot.Text (" " +:+ "0" +:+ ""); Bot.Text "Да"]
       env w
     = (Returned None, w')
     /\ sent w'
        = sent w ++ ["Вы хотите проанализировать пост с ID 0?";
                     "Выполняю запрос... Это может занять некоторое время.";
                     error_reply "Не указан ID поста"]
     /\ tick w' = tick w /\ store w' = store w /\ chat_log w' = chat_log w)
  /\ (exists w',
        Bot.handle_updates (Some Bot.ANALYZE_CHANNEL)
          [Bot.Text (" " +:+ "@" +:+ ""); Bot.Text "Да"] env w
        = (Returned None, w')
        /\ sent w'
           = sent w ++ ["Вы хотите проанализировать канал @?";
                        "Выполняю запрос... Это может занять некоторое время.";
                        error_reply "Не указано имя канала"]
        /\ tick w' = tick w /\ store w' = store w /\ chat_log w' = chat_log w).
Proof.
  apply (empty_inputs_are_reported_late (Examples.quiet_env Examples.apology)
           Examples.initial_world " " "").
  - repeat constructor.
  - constructor.
Defined.

(** *** The channel that is analysed *)

Section Blind.

Lemma blind_ret {A} (a : A) : context_blind (ret a).
Proof. by intros env w ud. Qed.

Lemma blind_raise {A} (e : exn) : context_blind (@raise A e).
Proof. by intros env w ud. Qed.

Lemma blind_lift {A} (o : outcome A) : context_blind (lift o).
Proof. by intros env w ud. Qed.

Lemma blind_asks {A} (g : Env -> A) : context_blind (asks g).
Proof. by intros env w ud. Qed.

Lemma blind_gets {A} (g : World -> A) :
  (forall ud w, g (set_user_data ud w) = g w) -> context_blind (gets g).
Proof. intros Hg env w ud. unfold gets. by rewrite Hg. Qed.

Lemma blind_modify (g : World -> World) :
  (forall ud w, g (set_user_data ud w) = set_user_data ud (g w)) ->
  context_blind (modify g).
Proof. intros Hg env w ud. unfold modify. by rewrite Hg. Qed.

Lemma blind_step : context_blind step.
Proof. by intros env w ud. Qed.

Lemma blind_bind {A B} (m : M A) (k : A -> M B) :
  context_blind m -> (forall a, context_blind (k a)) -> context_blind (bind m k).
Proof.
  intros Hm Hk env w ud. unfold bind. rewrite Hm.
  destruct (m env w) as [[a|e] w1]; simpl; [apply Hk | reflexivity].
Qed.

Lemma blind_try_except {A} (m : M A) (h : exn -> M A) :
  context_blind m -> (forall e, context_blind (h e)) -> context_blind (try_except m h).
Proof.
  intros Hm Hh env w ud. unfold try_except. rewrite Hm.
  destruct (m env w) as [[a|e] w1]; simpl; [reflexivity | apply Hh].
Qed.

Lemma blind_for_each {A} (body : A -> M unit) (l : list A) :
  (forall x, context_blind (body x)) -> context_blind (for_each l body).
Proof.
  intros Hbody. induction l as [|x l IH]; simpl.
  - apply blind_ret.
  - apply blind_bind; [apply Hbody | intros _; exact IH].
Qed.

Lemma blind_map_m {A B} (g : A -> M B) (l : list A) :
  (forall x, context_blind (g x)) -> context_blind (map_m g l).
Proof.
  intros Hg. induction l as [|x l IH]; simpl.
  - apply blind_ret.
  - apply blind_bind; [apply Hg | intros y].
    apply blind_bind; [exact IH | intros ys; apply blind_ret].
Qed.

Lemma blind_commit : context_blind commit.
Proof.
  intros env w ud. unfold commit. cbn.
  destruct (commit_fault env (tick w)); [reflexivity|].
  destruct (flush _ _ _ _) as [[e|d] n']; reflexivity.
Qed.

Lemma blind_with_session {A} (body : M A) :
  context_blind body -> context_blind (with_session body).
Proof.
  intros Hbody env w ud. unfold with_session.
  change (set_session [] (set_user_data ud w)) with (set_user_data ud (set_session [] w)).
  rewrite Hbody. destruct (body env (set_session [] w)) as [o w1]. reflexivity.
Qed.

End Blind.

Ltac blind_step :=
  lazymatch goal with
  | |- context_blind (bind _ _) => apply blind_bind; [| intros ?]
  | |- context_blind (try_except _ _) => apply blind_try_except; [| intros ?]
  | |- context_blind (ret _) => apply blind_ret
  | |- context_blind (raise _) => apply blind_raise
  | |- context_blind (lift _) => apply blind_lift
  | |- context_blind (asks _) => apply blind_asks
  | |- context_blind (gets _) => apply blind_gets; intros ? ?; reflexivity
  | |- context_blind (modify _) => apply blind_modify; intros ? ?; reflexivity
  | |- context_blind step => apply blind_step
  | |- context_blind commit => apply blind_commit
  | |- context_blind (with_session _) => apply blind_with_session
  | |- context_blind (for_each _ _) => apply blind_for_each; intros ?
  | |- context_blind (map_m _ _) => apply blind_map_m; intros ?
  | |- context_blind (match ?x with _ => _ end) => destruct x
  | |- context_blind ?m =>
      first [ progress cbv beta zeta | let h := head_of m in unfold h ]
  end.

Ltac blind := repeat blind_step.

Lemma analyze_channel_content_blind c : context_blind (LLMService.analyze_channel_content c).
Proof. blind. Qed.

Lemma generate_content_plan_blind c days :
  context_blind (LLMService.generate_content_plan c days).
Proof. blind. Qed.

Lemma generate_survey_blind c : context_blind (LLMService.generate_survey c).
Proof. blind. Qed.

Lemma analyze_post_performance_blind p :
  context_blind (LLMService.analyze_post_performance p).
Proof. blind. Qed.

#[local] Instance store_user_data : Ignores store set_user_data.
Proof. intros c w. reflexivity. Qed.
#[local] Instance store_session : Ignores store set_session.
Proof. intros c w. reflexivity. Qed.
#[local] Instance chat_log_user_data : Ignores chat_log set_user_data.
Proof. intros c w. reflexivity. Qed.

(** The lines of a summary are made without touching the world. *)
Section Lines.

Context {B : Type} (f : World -> B).

Lemma format_keeps j : preserves f (Bot.format j).
Proof. frame. Qed.

Lemma day_lines_keeps days i : preserves f (Bot.day_lines i days).
Proof.
  revert i. induction days as [|[k v] days IH]; intros i; simpl; [frame|].
  apply preserves_maintains. intros b.
  apply maintains_bind; [frame | intros title].
  apply maintains_bind; [by apply preserves_maintains, format_keeps | intros text].
  apply maintains_bind; [by apply preserves_maintains, IH | intros lines]. frame.
Qed.

Lemma bullet_lines_keeps xs : preserves f (Bot.bullet_lines xs).
Proof.
  induction xs as [|x xs IH]; simpl; [frame|].
  apply preserves_maintains. intros b.
  apply maintains_bind; [by apply preserves_maintains, format_keeps | intros text].
  apply maintains_bind; [by apply preserves_maintains, IH | intros lines]. frame.
Qed.

Lemma question_lines_keeps qs : preserves f (Bot.question_lines qs).
Proof.
  induction qs as [|x qs IH]; simpl; [frame|].
  apply preserves_maintains. intros b.
  apply maintains_bind; [frame | intros question_text].
  apply maintains_bind; [by apply preserves_maintains, format_keeps | intros text].
  apply maintains_bind; [by apply preserves_maintains, IH | intros lines]. frame.
Qed.

End Lines.

#[local] Hint Resolve format_keeps day_lines_keeps bullet_lines_keeps question_lines_keeps
  : frame.

(** A task of the bot: the operation in a session of its own, then the
    summary of its result; the stored tables and the log are left as the
    operation leaves them, whatever the context holds. *)
Lemma perform_effect (svc : M json) (k : json -> M Bot.PerformResult) env w ud :
  context_blind svc ->
  (forall r, preserves store (k r)) ->
  (forall r, preserves chat_log (k r)) ->
  effect (try_except (bind (with_session svc) k) Bot.handler env (set_user_data ud w))
  = effect (svc env (set_session [] w)).
Proof.
  intros Hblind Hstore Hlog. unfold effect, try_except, bind.
  rewrite (blind_with_session svc Hblind). unfold with_session.
  destruct (svc env (set_session [] w)) as [[r|e] w1]; simpl.
  - specialize (Hstore r env (set_user_data ud (set_session (session w) w1))).
    specialize (Hlog r env (set_user_data ud (set_session (session w) w1))).
    destruct (k r env _) as [[a|e] w2]; simpl in *; by rewrite Hstore, Hlog.
  - reflexivity.
Qed.

(** X12.  The channel a user names is not looked up: for every name
    that is not empty, the three tasks on a channel leave in the stored
    tables and in the log of requests what the operation leaves when run
    on channel 1 (for the plan, for 7 days) in a fresh session; the name
    only goes into the replies. *)
Theorem the_channel_analysed_is_channel_one env w name :
  name <> "" ->
  effect (Bot._perform_channel_analysis env (naming name w))
  = effect (LLMService.analyze_channel_content 1 env (set_session [] w))
  /\ effect (Bot._perform_content_plan_generation env (naming name w))
     = effect (LLMService.generate_content_plan 1 7 env (set_session [] w))
  /\ effect (Bot._perform_survey_creation env (naming name w))
     = effect (LLMService.generate_survey 1 env (set_session [] w)).
Proof.
  intros Hname. apply String.eqb_neq in Hname.
  split; [|split].
  - unfold Bot._perform_channel_analysis, naming.
    unfold bind at 1, gets at 1, try_except at 1. cbn [user_data set_user_data ud_channel_username].
    rewrite Hname.
    apply (perform_effect (LLMService.analyze_channel_content 1));
      [apply analyze_channel_content_blind | intros r; frame..].
  - unfold Bot._perform_content_plan_generation, naming.
    unfold bind at 1, gets at 1, try_except at 1. cbn [user_data set_user_data ud_channel_username].
    rewrite Hname.
    apply (perform_effect (LLMService.generate_content_plan 1 7));
      [apply generate_content_plan_blind | intros r; frame..].
  - unfold Bot._perform_survey_creation, naming.
    unfold bind at 1, gets at 1, try_except at 1. cbn [user_data set_user_data ud_channel_username].
    rewrite Hname.
    apply (perform_effect (LLMService.generate_survey 1));
      [apply generate_survey_blind | intros r; frame..].
Qed.

Lemma the_channel_analysed_is_channel_one_witness :
  let env := Examples.quiet_env Examples.survey_text in
  let w := Examples.world_with_post in
  effect (Bot._perform_channel_analysis env (naming "another_channel" w))
  = effect (LLMService.analyze_channel_content 1 env (set_session [] w))
  /\ effect (Bot._perform_content_plan_generation env (naming "another_channel" w))
     = effect (LLMService.generate_content_plan 1 7 env (set_session [] w))
  /\ effect (Bot._perform_survey_creation env (naming "another_channel" w))
     = effect (LLMService.generate_survey 1 env (set_session [] w)).
Proof.
  apply (the_channel_analysed_is_channel_one (Examples.quiet_env Examples.survey_text)
           Examples.world_with_post "another_channel").
  discriminate.
Defined.

(** *** Commands during a conversation *)

(** X13.  Commands during a conversation.  The name of a command is
    compared in lower case.  [/cancel], however its letters are cased,
    ends the conversation with one reply.  No other command leaves the
    conversation or restarts it: [/start], [/help], [/menu] and every
    other command get one reply, and the conversation stays in its state,
    with its context; but for [/start] and [/help] (for [/menu] too), the
    reply is that the command is unknown. *)
Theorem only_cancel_leaves_a_conversation state name env w :
  command_name name ->
  (lower name = "cancel" ->
     Bot.process_update (Some state) (Bot.Command name) env w
     = (Returned None, set_sent (sent w ++ ["Операция отменена."]) w))
  /\ (lower name <> "cancel" ->
      exists reply,
        Bot.process_update (Some state) (Bot.Command name) env w
        = (Returned (Some state), set_sent (sent w ++ [reply]) w)
        /\ (lower name <> "start" -> lower name <> "help" ->
            reply = "Извините, я не знаю такой команды. Используйте /help, чтобы увидеть список доступных команд.")).
Proof.
  intros _.
  unfold Bot.process_update, Bot.dispatch, Bot.check_update, Bot.handle_update,
    Bot.on_message.
  cbn [Bot.text_of Bot.command_of Bot.is_edited].
  split.
  - intros ->. reflexivity.
  - intros Hname. apply String.eqb_neq in Hname.
    destruct (String.eqb_spec (lower name) "start") as [->|Hstart].
    { eexists. split; [reflexivity | congruence]. }
    destruct (String.eqb_spec (lower name) "help") as [->|Hhelp].
    { eexists. split; [reflexivity | congruence]. }
    rewrite Hname. eexists. split; reflexivity.
Qed.

Lemma only_cancel_leaves_a_conversation_witness :
  let env := Examples.quiet_env Examples.apology in
  let w := Examples.initial_world in
  Bot.process_update (Some Bot.ANALYZE_CHANNEL) (Bot.Command "CANCEL") env w
  = (Returned None, set_sent (sent w ++ ["Операция отменена."]) w)
  /\ exists reply,
       Bot.process_update (Some Bot.ANALYZE_CHANNEL) (Bot.Command "Menu") env w
       = (Returned (Some Bot.ANALYZE_CHANNEL), set_sent (sent w ++ [reply]) w)
       /\ (lower "Menu" <> "start" -> lower "Menu" <> "help" ->
           reply = "Извините, я не знаю такой команды. Используйте /help, чтобы увидеть список доступных команд.").
Proof.
  split.
  - apply (only_cancel_leaves_a_conversation Bot.ANALYZE_CHANNEL "CANCEL"
             (Examples.quiet_env Examples.apology) Examples.initial_world).
    + repeat constructor.
    + reflexivity.
  - apply (only_cancel_leaves_a_conversation Bot.ANALYZE_CHANNEL "Menu"
             (Examples.quiet_env Examples.apology) Examples.initial_world).
    + repeat constructor.
    + discriminate.
Defined.

(* ===================================================================== *)
(** ** The routes                                                         *)
(* ===================================================================== *)

(** *** Status codes *)

(** A guarded route returns a value or raises an [HTTPException] of
    status 500, whatever its body does. *)
Lemma guarded_status {A} http_str (body : M (Routes.HTTPException + A)) env w :
  exists r w',
    Routes.guarded http_str body env w = (Returned r, w')
    /\ match r with inl e => Routes.status_code e = 500 | inr _ => True end.
Proof.
  unfold Routes.guarded. destruct (body env w) as [[[e|a]|e] w1]; by eexists _, _.
Qed.

Lemma request_guarded {A} http_str (body : M (Routes.HTTPException + A)) env w :
  exists r w',
    request (Routes.guarded http_str body) env w = (Returned r, w')
    /\ (Server.status r = 200 \/ Server.status r = 500).
Proof.
  destruct (guarded_status http_str body env (set_session [] w)) as (r & w1 & E & Hr).
  unfold request, Server.respond, Db.get_db, with_session, try_except, bind.
  rewrite E. destruct r as [e|a]; eexists _, _; (split; [reflexivity|]); simpl; auto.
Qed.

(** X14.  The routes that run an operation answer with status 200 or
    500 and nothing else, whatever the storage engine, the model and the
    operation do: every exception of their body, the 404 they raise for a
    row that is missing included, is raised again with status 500. *)
Theorem operation_routes_answer_200_or_500 http_str env w id :
  (exists r w',
     request (Routes.analyze_channel http_str id) env w = (Returned r, w')
     /\ (Server.status r = 200 \/ Server.status r = 500))
  /\ (exists r w',
        request (Routes.analyze_post http_str id) env w = (Returned r, w')
        /\ (Server.status r = 200 \/ Server.status r = 500))
  /\ (exists r w',
        request (Routes.create_survey http_str id) env w = (Returned r, w')
        /\ (Server.status r = 200 \/ Server.status r = 500)).
Proof. repeat split; apply request_guarded. Qed.

Lemma no_channel_select id d : no_channel id d -> Routes.select_channel id d = None.
Proof.
  unfold no_channel, Routes.select_channel. intros H.
  induction H as [|c l Hc _ IH]; simpl; [reflexivity|].
  rewrite bool_decide_eq_false_2 by exact Hc. exact IH.
Qed.

(** The lookup of a row that is not there, in a session of the request. *)
Lemma lookup_fails {A B} (select : Db -> option A) (k : option A -> M B) env w :
  query_fault env (tick w) = None ->
  select (store w) = None ->
  bind (query select) k env (set_session [] w)
  = k None env (set_session [] (after_query w)).
Proof.
  intros Hq Hnone.
  rewrite (bind_returned _ _ _ _ _ _ (query_sound select env (set_session [] w) Hq)).
  cbn [store set_session]. rewrite Hnone. reflexivity.
Qed.

(** X15.  A request for a channel or a post that is not stored.  The
    routes that read answer 404, with the text that names the row; the
    routes that run an operation raise the same 404 inside their guarded
    body and answer 500, with [str()] of that exception as their detail.
    Either way one query is made and nothing else happens. *)
Theorem missing_rows_are_answered env w http_str id :
  query_fault env (tick w) = None ->
  (no_channel id (store w) ->
     request (Routes.get_channel id) env w
     = (Returned (failure 404 (Routes.detail (missing "Channel" id))), after_query w)
     /\ request (Routes.analyze_channel http_str id) env w
        = (Returned (failure 500 (JStr (http_str (missing "Channel" id)))), after_query w)
     /\ request (Routes.create_survey http_str id) env w
        = (Returned (failure 500 (JStr (http_str (missing "Channel" id)))), after_query w))
  /\ (no_post id (store w) ->
        request (Routes.get_post id) env w
        = (Returned (failure 404 (Routes.detail (missing "Post" id))), after_query w)
        /\ request (Routes.analyze_post http_str id) env w
           = (Returned (failure 500 (JStr (http_str (missing "Post" id)))), after_query w)).
Proof.
  intros Hq. split.
  - intros Hno. apply no_channel_select in Hno.
    unfold request, Server.respond, Db.get_db, with_session, try_except.
    unfold Routes.get_channel, Routes.analyze_channel, Routes.create_survey, Routes.guarded.
    repeat split; unfold bind at 1; rewrite (lookup_fails _ _ env w Hq Hno); reflexivity.
  - intros Hno. apply no_post_select in Hno.
    unfold request, Server.respond, Db.get_db, with_session, try_except.
    unfold Routes.get_post, Routes.analyze_post, Routes.guarded.
    repeat split; unfold bind at 1; rewrite (lookup_fails _ _ env w Hq Hno); reflexivity.
Qed.

Lemma missing_rows_are_answered_witness :
  let env := Examples.quiet_env Examples.apology in
  let w := Examples.world_with_post in
  request (Routes.get_channel 1) env w
  = (Returned (failure 404 (JStr "Channel with ID 1 not found")), after_query w)
  /\ request (Routes.analyze_channel Examples.status_and_detail 1) env w
     = (Returned (failure 500 (JStr "404: Channel with ID 1 not found")), after_query w)
  /\ request (Routes.analyze_post Examples.status_and_detail 2) env w
     = (Returned (failure 500 (JStr "404: Post with ID 2 not found")), after_query w).
Proof.
  destruct (missing_rows_are_answered (Examples.quiet_env Examples.apology)
              Examples.world_with_post Examples.status_and_detail 1 eq_refl)
    as [Hchannel _].
  destruct (missing_rows_are_answered (Examples.quiet_env Examples.apology)
              Examples.world_with_post Examples.status_and_detail 2 eq_refl)
    as [_ Hpost].
  destruct (Hchannel ltac:(constructor)) as (H1 & H2 & _).
  destruct (Hpost ltac:(repeat constructor; discriminate)) as (_ & H3).
  split; [exact H1|]. split; [exact H2 | exact H3].
Defined.

(** *** Pages *)

Lemma page_length {A} offset limit (rows : list A) :
  0 <= limit -> Z.of_nat (length (Routes.page offset limit rows)) <= limit.
Proof.
  intros H. unfold Routes.page. destruct (Z.ltb_spec limit 0); [lia|].
  rewrite length_take. lia.
Qed.

Lemma page_elem_of {A} offset limit (rows : list A) x :
  x ∈ Routes.page offset limit rows -> x ∈ rows.
Proof.
  unfold Routes.page. destruct (limit <? 0); intros H.
  - by eapply subseteq_drop.
  - by eapply subseteq_drop, subseteq_take.
Qed.

(** A page and the page after it make the page of both. *)
Lemma page_next {A} offset limit more (rows : list A) :
  0 <= offset -> 0 <= limit -> 0 <= more ->
  Routes.page offset limit rows ++ Routes.page (offset + limit) more rows
  = Routes.page offset (limit + more) rows.
Proof.
  intros Ho Hl Hm. unfold Routes.page.
  destruct (Z.ltb_spec limit 0); [lia|]. destruct (Z.ltb_spec more 0); [lia|].
  destruct (Z.ltb_spec (limit + more) 0); [lia|].
  rewrite !Z2Nat.inj_add by lia. rewrite <- drop_drop. apply take_take_drop.
Qed.

Lemma page_sorted {A} (R : relation A) offset limit (rows : list A) :
  StronglySorted R rows -> StronglySorted R (Routes.page offset limit rows).
Proof.
  intros H. unfold Routes.page.
  assert (Hd : StronglySorted R (drop (Z.to_nat offset) rows)).
  { rewrite <- (take_drop (Z.to_nat offset) rows) in H.
    exact (StronglySorted_app_1_r _ _ _ H). }
  destruct (limit <? 0); [exact Hd|].
  rewrite <- (take_drop (Z.to_nat limit) (drop _ rows)) in Hd.
  exact (StronglySorted_app_1_l _ _ _ Hd).
Qed.

(** X16.  The pages of the posts of a channel.  With the query
    answered, an offset and a limit that are not negative, the route
    answers 200 with a list of stored posts of the channel, the latest
    first, and with its length as "total": the size of the page, at most
    the limit, not the number of posts of the channel.  The page that
    starts where this one ends continues it: together they are the page of
    both. *)
Theorem pages_of_posts env w channel_id limit offset :
  query_fault env (tick w) = None ->
  0 <= offset -> 0 <= limit ->
  let posts := Routes.select_channel_posts channel_id limit offset (store w) in
  request (Routes.get_channel_posts channel_id limit offset) env w
  = (Returned (Server.Build_Response 200
                 (Server.Content (posts, Z.of_nat (length posts)))),
     after_query w)
  /\ Z.of_nat (length posts) <= limit
  /\ Forall (fun p => p ∈ Models.posts (store w) /\ post_channel_id p = channel_id) posts
  /\ StronglySorted (fun p q => timestamp (post_posted_at q) <= timestamp (post_posted_at p))
                    posts
  /\ (forall more, 0 <= more ->
        posts ++ Routes.select_channel_posts channel_id more (offset + limit) (store w)
        = Routes.select_channel_posts channel_id (limit + more) offset (store w)).
Proof.
  intros Hq Ho Hl posts. split; [|split; [|split; [|split]]].
  - unfold request, Server.respond, Db.get_db, with_session, try_except,
      Routes.get_channel_posts.
    unfold bind at 1.
    rewrite (bind_returned _ _ _ _ _ _
               (query_sound (Routes.select_channel_posts channel_id limit offset) env
                  (set_session [] w) Hq)).
    reflexivity.
  - by apply page_length.
  - apply Forall_forall. intros p Hp. apply page_elem_of in Hp.
    apply elem_of_channel_filter.
    by rewrite <- (sort_desc_permutation (fun p => timestamp (post_posted_at p))).
  - apply page_sorted, (sort_desc_sorted (fun p => timestamp (post_posted_at p))).
  - intros more Hm. by apply page_next.
Qed.

Lemma pages_of_posts_witness :
  let env := Examples.quiet_env Examples.apology in
  let w := Examples.world_with_three_posts in
  let posts := Routes.select_channel_posts 1 2 0 (store w) in
  posts = [Examples.post_of_day 3; Examples.post_of_day 2]
  /\ request (Routes.get_channel_posts 1 2 0) env w
     = (Returned (Server.Build_Response 200
                    (Server.Content (posts, Z.of_nat (length posts)))),
        after_query w)
  /\ Z.of_nat (length posts) <= 2
  /\ Forall (fun p => p ∈ Models.posts (store w) /\ post_channel_id p = 1) posts
  /\ StronglySorted (fun p q => timestamp (post_posted_at q) <= timestamp (post_posted_at p))
                    posts
  /\ (forall more, 0 <= more ->
        posts ++ Routes.select_channel_posts 1 more (0 + 2) (store w)
        = Routes.select_channel_posts 1 (2 + more) 0 (store w)).
Proof.
  split; [vm_compute; reflexivity|].
  apply (pages_of_posts (Examples.quiet_env Examples.apology)
           Examples.world_with_three_posts 1 2 0); [reflexivity | lia | lia].
Defined.

(* ===================================================================== *)
(** ** Further properties of the collector                                *)
(* ===================================================================== *)

(** *** What a run of [get_posts] returns and stores *)

Lemma pending_posts_app l1 l2 :
  pending_posts (l1 ++ l2) = pending_posts l1 ++ pending_posts l2.
Proof. unfold pending_posts. apply flat_map_app. Qed.

Lemma pending_posts_reactions rs : pending_posts (List.map RReaction rs) = [].
Proof. induction rs; simpl; auto. Qed.


Lemma save_reactions_plain message entity env w :
  exists rs,
    Collector._save_reactions message entity env w
    = (Returned tt, set_session (session w ++ List.map RReaction rs) w)
    /\ Forall plain_row (List.map RReaction rs).
Proof.
  unfold Collector._save_reactions. destruct (msg_reactions message) as [results|].
  - eexists (List.map _ results). split.
    + rewrite List.map_map. apply (for_each_add (fun reaction => RReaction _)).
    + induction results; constructor; auto. reflexivity.
  - exists []. simpl. rewrite app_nil_r. split; [by destruct w | constructor].
Qed.

(** The loop of [get_posts]: one dictionary and one pending post per
    message that has a text, in the order of the history. *)
Lemma collect_posts_rows entity messages env w :
  exists rows,
    Collector.collect_posts entity messages env w
    = (Returned (omap post_data_of messages), set_session (session w ++ rows) w)
    /\ Forall plain_row rows
    /\ Forall2 (fun d p => post_for (entity_id entity) d p)
               (omap post_data_of messages) (pending_posts rows).
Proof.
  revert w. induction messages as [|message messages IH]; intros w.
  - exists []. simpl. rewrite app_nil_r. split; [by destruct w|]. split; constructor.
  - assert (Hcons : omap post_data_of (message :: messages)
                    = match post_data_of message with
                      | Some d => d :: omap post_data_of messages
                      | None => omap post_data_of messages
                      end) by reflexivity.
    rewrite Hcons. clear Hcons.
    cbn [Collector.collect_posts].
    assert (Hdata : post_data_of message
                    = match Collector.text_of message with
                      | Some text =>
                          Some (Collector.Build_PostData (msg_id message) (msg_date message)
                                  text (msg_views message) (msg_forwards message))
                      | None => None
                      end) by reflexivity.
    rewrite Hdata. clear Hdata.
    destruct (Collector.text_of message) as [text|]; [|apply IH].
    unfold bind at 1. cbn [add modify].
    match goal with
    | |- context [bind (Collector._save_reactions message ?e) _ env ?w0] =>
        destruct (save_reactions_plain message e env w0) as (rs & Hrs & Hplain)
    end.
    rewrite (bind_returned _ _ _ _ _ _ Hrs).
    edestruct IH as (rows & Hrun & Hrows & Hposts).
    rewrite (bind_returned _ _ _ _ _ _ Hrun).
    eexists (_ :: List.map RReaction rs ++ rows). split; [|split].
    + cbn. rewrite <- !app_assoc. reflexivity.
    + constructor; [reflexivity|]. apply Forall_app. by split.
    + cbn [pending_posts flat_map app]. fold (pending_posts (List.map RReaction rs ++ rows)).
      rewrite pending_posts_app, pending_posts_reactions. simpl.
      constructor; [repeat split | exact Hposts].
Qed.



(** In that run the message without views is returned without views and
    stored with none: 0. *)
Example views_of_a_bare_message :
  let run :=
    Collector.get_posts Examples.collector None 100 None
      (Examples.history_env
         [Examples.a_bare_message; Examples.a_service_message; Examples.a_message])
      Examples.initial_world in
  List.map Collector.pd_views <$> fst_returned run = Some [None; Some 5]
  /\ List.map post_views (posts (store (snd run))) = [Some 0; Some 5]
  /\ List.map post_forwards (posts (store (snd run))) = [Some 0; Some 0].
Proof. repeat split; vm_compute; reflexivity. Qed.

(** *** What a run of [get_comments] returns and stores *)

Lemma pending_comments_app l1 l2 :
  pending_comments (l1 ++ l2) = pending_comments l1 ++ pending_comments l2.
Proof. unfold pending_comments. apply flat_map_app. Qed.

Lemma pending_comments_reactions rs : pending_comments (List.map RReaction rs) = [].
Proof. induction rs; simpl; auto. Qed.

Lemma flush_row_comments now r d d' :
  flush_row now r d = inr d' ->
  exists stored,
    comments d' = comments d ++ stored
    /\ Forall2 same_comment (pending_comments [r]) stored.
Proof.
  destruct r; simpl; intros H; flush_row_cases H; injection H as <-; cbn.
  all: try (exists []; rewrite app_nil_r; split; [reflexivity | constructor]).
  eexists [_]. split; [reflexivity|]. constructor; [repeat split | constructor].
Qed.

(** A flush that goes through stores the pending comments in their
    order. *)
Lemma flush_comments clock pending :
  forall n d d' n', flush clock n pending d = (inr d', n') ->
    exists stored,
      comments d' = comments d ++ stored
      /\ Forall2 same_comment (pending_comments pending) stored.
Proof.
  induction pending as [|r pending IH]; intros n d d' n' H; simpl in H.
  - injection H as <- _. exists []. rewrite app_nil_r. split; [reflexivity | constructor].
  - destruct (flush_row (clock n) r d) as [e|d1] eqn:Hrow; [discriminate|].
    destruct (flush_row_comments _ _ _ _ Hrow) as (s1 & E1 & H1).
    destruct (IH _ _ _ _ H) as (s2 & E2 & H2).
    exists (s1 ++ s2). rewrite E2, E1, <- app_assoc. split; [reflexivity|].
    change (r :: pending) with ([r] ++ pending). rewrite pending_comments_app.
    by apply Forall2_app.
Qed.

(** The author of a reply: the lookup returns, leaves the stored tables
    alone, and adds no pending comment. *)
Lemma resolve_author_run reply env w :
  exists user_info w1,
    Collector.resolve_author reply env w = (Returned user_info, w1)
    /\ store w1 = store w
    /\ exists rows, session w1 = session w ++ rows /\ pending_comments rows = [].
Proof.
  unfold Collector.resolve_author. destruct (msg_from_id reply) as [from_id|].
  2:{ eexists _, _. split; [reflexivity|]. split; [reflexivity|].
      exists []. by rewrite app_nil_r. }
  unfold try_except, bind at 1, Collector.client_get_entity.
  unfold bind at 1, step at 1. unfold bind at 1, asks at 1, lift at 1.
  destruct (get_entity env (tick w) (ByPeer from_id)) as [[user|id|id]|e].
  - eexists _, _. split; [reflexivity|]. split; [reflexivity|].
    eexists [_]. split; reflexivity.
  - eexists _, _. split; [reflexivity|]. split; [reflexivity|].
    exists []. by rewrite app_nil_r.
  - eexists _, _. split; [reflexivity|]. split; [reflexivity|].
    exists []. by rewrite app_nil_r.
  - eexists _, _. split; [reflexivity|]. split; [reflexivity|].
    exists []. by rewrite app_nil_r.
Qed.

(** The loop of [get_comments]: it returns, leaves the stored tables
    alone, and adds one pending comment per dictionary it returns. *)
Lemma collect_comments_rows post_id replies env w :
  exists comments_data w1 rows,
    Collector.collect_comments post_id replies env w = (Returned comments_data, w1)
    /\ store w1 = store w
    /\ session w1 = session w ++ rows
    /\ Forall2 comment_of comments_data (pending_comments rows)
    /\ Forall (fun d => Collector.cd_post_id d = post_id) comments_data.
Proof.
  revert w. induction replies as [|reply replies IH]; intros w.
  - exists [], w, []. simpl. rewrite app_nil_r. repeat split; constructor.
  - cbn [Collector.collect_comments].
    destruct (Collector.text_of reply) as [text|]; [|apply IH].
    destruct (resolve_author_run reply env w)
      as (user_info & w1 & Hauthor & Hstore1 & rows1 & Hsession1 & Hnone1).
    rewrite (bind_returned _ _ _ _ _ _ Hauthor).
    unfold bind at 1. cbn [add modify].
    match goal with
    | |- context [bind (Collector._save_reactions reply ?e) _ env ?w0] =>
        destruct (save_reactions_plain reply e env w0) as (rs & Hrs & _)
    end.
    rewrite (bind_returned _ _ _ _ _ _ Hrs).
    match goal with
    | |- context [bind (Collector.collect_comments post_id replies) _ env ?w0] =>
        destruct (IH w0) as (data & w2 & rows2 & Hrun & Hstore2 & Hsession2 & Hall & Hpost)
    end.
    rewrite (bind_returned _ _ _ _ _ _ Hrun).
    eexists (_ :: data), w2, (rows1 ++ _ :: List.map RReaction rs ++ rows2).
    split; [reflexivity|]. split; [|split; [|split]].
    + rewrite Hstore2. cbn. exact Hstore1.
    + rewrite Hsession2. cbn. rewrite Hsession1, <- !app_assoc. reflexivity.
    + rewrite pending_comments_app, Hnone1.
      cbn [pending_comments flat_map app].
      fold (pending_comments (List.map RReaction rs ++ rows2)).
      rewrite pending_comments_app, pending_comments_reactions. simpl.
      constructor; [repeat split | exact Hall].
    + constructor; [reflexivity | exact Hpost].
Qed.

(** The end of the two collection methods: the commit of what the loop
    left pending, in the session of the method. *)
Lemma collected_commit {A} (data : A) env w0 w1 o w' :
  (match (commit ;;; ret data) env w1 with
   | (o, w2) => (o, set_session (session w0) w2)
   end) = (o, w') ->
  (exists e, o = Raised e /\ store w' = store w1)
  \/ (exists d n n',
        o = Returned data
        /\ flush (utcnow env) n (session w1) (store w1) = (inr d, n')
        /\ store w' = d).
Proof.
  unfold bind, commit.
  destruct (commit_fault env (tick w1)) as [e|].
  { intros [= <- <-]. left. by eexists. }
  destruct (flush _ _ _ _) as [[e|d] n'] eqn:Hflush.
  { intros [= <- <-]. left. by eexists. }
  intros [= <- <-]. right. by eexists _, _, _.
Qed.

(** X18.  The comments a run of [get_comments] stores.  When the run
    returns, it has stored one comment per dictionary it returns, in
    their order, after the comments that were stored: under the post
    identifier that was asked for (the identifier of the message, not the
    key of a stored post), with the identifier of the reply, its text and
    its date, and with the external identifier of the author as its user
    when the author was resolved, no user otherwise. *)
Theorem stored_comments_are_the_returned_ones
    self channel_username post_id limit env w comments_data w' :
  Collector.get_comments self channel_username post_id limit env w
  = (Returned comments_data, w') ->
  exists stored,
    comments (store w') = comments (store w) ++ stored
    /\ Forall2 comment_of comments_data stored
    /\ Forall (fun d => Some (Collector.cd_post_id d) = post_id) comments_data.
Proof.
  assert (Hnone : forall w1 : World, store w1 = store w ->
            exists stored : list Models.Comment,
              comments (store w1) = comments (store w) ++ stored
              /\ Forall2 comment_of [] stored
              /\ Forall (fun d => Some (Collector.cd_post_id d) = post_id) []).
  { intros w1 ->. exists []. rewrite app_nil_r. repeat split; constructor. }
  unfold Collector.get_comments.
  unfold bind at 1, Collector.client_get_entity.
  unfold bind at 1, step at 1. unfold bind at 1, asks at 1, lift at 1.
  destruct (get_entity env (tick w) _) as [entity|e]; [|discriminate].
  destruct post_id as [post_id|]; [| intros [= <- <-]; by apply Hnone].
  destruct (post_id =? 0); [intros [= <- <-]; by apply Hnone|].
  unfold bind at 1, Collector.client_get_message.
  unfold bind at 1, step at 1. unfold bind at 1, asks at 1, lift at 1.
  destruct (get_message env _ _ _) as [[message|]|e];
    [| intros [= <- <-]; by apply Hnone | discriminate].
  unfold bind at 1, Collector.client_get_replies.
  unfold bind at 1, step at 1. unfold bind at 1, asks at 1, lift at 1.
  destruct (get_replies env _ _ _ _) as [replies|e]; [|discriminate].
  unfold with_session. unfold bind at 1.
  match goal with
  | |- context [Collector.collect_comments post_id replies env ?w0] =>
      destruct (collect_comments_rows post_id replies env w0)
        as (data & w1 & rows & Hrun & Hstore & Hsession & Hall & Hpost)
  end.
  rewrite Hrun. intros Hend.
  apply (collected_commit data env) in Hend
    as [(e & [=] & _) | (d & n & n' & [= <-] & Hflush & ->)].
  apply flush_comments in Hflush as (stored & Hstored & Hsame).
  exists stored. rewrite Hstored, Hstore. split; [reflexivity|]. split.
  - rewrite Hsession in Hsame. cbn [session set_session set_tick app] in Hsame.
    clear -Hall Hsame. revert stored Hsame.
    generalize dependent (pending_comments rows). intros cs Hall.
    induction Hall as [|d c ds cs Hd _ IH]; intros stored Hsame.
    + inversion Hsame. constructor.
    + inversion Hsame as [|? s ? stored' Hs Hrest]; subst.
      constructor; [|by apply IH].
      destruct Hd as (H1 & H2 & H3 & H4 & H5), Hs as (S1 & S2 & S3 & S4 & S5).
      repeat split; congruence.
  - eapply Forall_impl; [exact Hpost|]. intros d0 ->. reflexivity.
Qed.

Lemma stored_comments_are_the_returned_ones_witness :
  let run :=
    Collector.get_comments Examples.collector None (Some 1) 100
      (Examples.channel_env [Examples.a_stranger_reply; Examples.a_reply 11 "first"])
      Examples.initial_world in
  let comments_data :=
    [Collector.Build_CommentData 13 1 Examples.t0 "anonymous" None;
     Collector.Build_CommentData 11 1 Examples.t0 "first"
       (Some (Collector.Build_UserInfo 7 (Some "ann") (Some "Ann") None))] in
  fst run = Returned comments_data
  /\ exists stored,
       comments (store (snd run)) = [] ++ stored
       /\ Forall2 comment_of comments_data stored
       /\ Forall (fun d => Some (Collector.cd_post_id d) = Some 1) comments_data.
Proof.
  split; [vm_compute; reflexivity|].
  apply (stored_comments_are_the_returned_ones Examples.collector None (Some 1) 100
           (Examples.channel_env [Examples.a_stranger_reply; Examples.a_reply 11 "first"])
           Examples.initial_world).
  vm_compute. reflexivity.
Defined.

(** *** A run that fails *)

(** X19.  A collection that fails stores nothing: when a run of
    [get_posts] or of [get_comments] raises, at the lookup of the channel,
    at the reading of the history or of the thread, or at the commit that
    ends it, the stored tables are what they were before the run. *)
Theorem a_failed_collection_stores_nothing
    self channel_username post_id limit offset_date env w :
  (forall e w',
     Collector.get_posts self channel_username limit offset_date env w = (Raised e, w') ->
     store w' = store w)
  /\ (forall e w',
        Collector.get_comments self channel_username post_id limit env w = (Raised e, w') ->
        store w' = store w).
Proof.
  split; intros e w'.
  - unfold Collector.get_posts.
    unfold bind at 1, Collector.client_get_entity.
    unfold bind at 1, step at 1. unfold bind at 1, asks at 1, lift at 1.
    destruct (get_entity env (tick w) _) as [entity|e0]; [| by intros [= _ <-]].
    unfold bind at 1, Collector.client_get_history.
    unfold bind at 1, step at 1. unfold bind at 1, asks at 1, lift at 1.
    destruct (get_history env _ _ _ _) as [history|e0]; [| by intros [= _ <-]].
    unfold with_session. unfold bind at 1.
    match goal with
    | |- context [Collector.collect_posts entity history env ?w0] =>
        destruct (collect_posts_rows entity history env w0) as (rows & Hrun & _)
    end.
    rewrite Hrun. intros Hend.
    apply (collected_commit _ env) in Hend
      as [(e0 & _ & ->) | (d & n & n' & [=] & _)].
    reflexivity.
  - unfold Collector.get_comments.
    unfold bind at 1, Collector.client_get_entity.
    unfold bind at 1, step at 1. unfold bind at 1, asks at 1, lift at 1.
    destruct (get_entity env (tick w) _) as [entity|e0]; [| by intros [= _ <-]].
    destruct post_id as [post_id|]; [|discriminate].
    destruct (post_id =? 0); [discriminate|].
    unfold bind at 1, Collector.client_get_message.
    unfold bind at 1, step at 1. unfold bind at 1, asks at 1, lift at 1.
    destruct (get_message env _ _ _) as [[message|]|e0];
      [| discriminate | by intros [= _ <-]].
    unfold bind at 1, Collector.client_get_replies.
    unfold bind at 1, step at 1. unfold bind at 1, asks at 1, lift at 1.
    destruct (get_replies env _ _ _ _) as [replies|e0]; [| by intros [= _ <-]].
    unfold with_session. unfold bind at 1.
    match goal with
    | |- context [Collector.collect_comments post_id replies env ?w0] =>
        destruct (collect_comments_rows post_id replies env w0)
          as (data & w1 & rows & Hrun & Hstore & _)
    end.
    rewrite Hrun. intros Hend.
    apply (collected_commit data env) in Hend
      as [(e0 & _ & ->) | (d & n & n' & [=] & _)].
    exact Hstore.
Qed.
